(** * xml2json: the XML to OpenRPC-like JSON converter of json-rpc/tools

    A shallow embedding of [json-rpc/tools/xml2json.py] and the properties
    of its conversion.  The embedding follows the script function by
    function and keeps its names.

    - An lxml element is a rose tree carrying a tag, an attribute map and
      its children.  The script never looks at text nodes; a comment or a
      processing instruction shows up in [getchildren] with a tag that is
      equal to no tag name, and is represented by an element with such a
      tag.
    - A Python [str] is the string of the bytes of its UTF-8 encoding, as
      lxml decodes them from the input file; [str.strip] and [int] read
      it character by character ([PyStr.chars]).
    - Python values are the [pyval] type; a [dict] keeps insertion order,
      and assigning to a key that is present keeps the key's position.
    - [print], [os.makedirs] and the file write are recorded as events, in
      program order; an uncaught exception is the [Raise] outcome.  The
      argument of [toStr] in a diagnostic is kept as the element itself.
      The data handed to [dataToPrettyJson] stands for the file's content.
    - The builders call each other recursively along the element tree; the
      recursion is cut by a fuel counter, and [fuel_of] is always enough
      (see [getJsonParam_fuel_enough]).
    - Failures of the operating system (an unreadable input, a directory
      that cannot be created, a full disk) are outside the model. *)

From Stdlib Require Import String Ascii List ZArith Bool Arith Lia.
Import ListNotations.
Set Warnings "-register-all".
Local Open Scope string_scope.
Local Open Scope list_scope.

(** ** Python strings *)

Module PyStr.

(** A [str] is held as the UTF-8 encoding of its code points, and read
    one character at a time. *)
Definition byte (c : ascii) : N := N_of_ascii c.

Definition continuation (c : ascii) : bool :=
  ((128 <=? byte c) && (byte c <=? 191))%N.

(** The length of the encoding that a first byte announces. *)
Definition width (c : ascii) : nat :=
  let b := byte c in
  if (b <? 128)%N then 1
  else if (b <? 192)%N then 0
  else if (b <? 224)%N then 2
  else if (b <? 240)%N then 3
  else if (b <? 248)%N then 4
  else 0.

(** What a byte that starts no character is read as: no code point. *)
Definition invalid : N := 1114112.

(** The characters of a string: the code point and the encoding of
    each. *)
Fixpoint chars (s : string) : list (N * string) :=
  match s with
  | EmptyString => []
  | String c1 s1 =>
      match width c1, s1 with
      | 1%nat, _ => (byte c1, String c1 EmptyString) :: chars s1
      | 2%nat, String c2 s2 =>
          if continuation c2
          then ((byte c1 - 192) * 64 + (byte c2 - 128),
                String c1 (String c2 EmptyString))%N :: chars s2
          else (invalid, String c1 EmptyString) :: chars s1
      | 3%nat, String c2 (String c3 s3) =>
          if continuation c2 && continuation c3
          then (((byte c1 - 224) * 64 + (byte c2 - 128)) * 64 + (byte c3 - 128),
                String c1 (String c2 (String c3 EmptyString)))%N :: chars s3
          else (invalid, String c1 EmptyString) :: chars s1
      | 4%nat, String c2 (String c3 (String c4 s4)) =>
          if continuation c2 && continuation c3 && continuation c4
          then ((((byte c1 - 240) * 64 + (byte c2 - 128)) * 64
                 + (byte c3 - 128)) * 64 + (byte c4 - 128),
                String c1 (String c2 (String c3 (String c4 EmptyString))))%N
               :: chars s4
          else (invalid, String c1 EmptyString) :: chars s1
      | _, _ => (invalid, String c1 EmptyString) :: chars s1
      end
  end.

(** [c.isspace()]: the white space that [str.strip] removes. *)
Definition isspace (n : N) : bool :=
  (((9 <=? n) && (n <=? 13)) || ((28 <=? n) && (n <=? 32))
   || (n =? 133) || (n =? 160) || (n =? 5760)
   || ((8192 <=? n) && (n <=? 8202))
   || (n =? 8232) || (n =? 8233) || (n =? 8239) || (n =? 8287)
   || (n =? 12288))%N.

Fixpoint lstrip (l : list (N * string)) : list (N * string) :=
  match l with
  | c :: l' => if isspace (fst c) then lstrip l' else l
  | [] => []
  end.

(** [s.strip()] *)
Definition strip (s : string) : string :=
  String.concat ""
    (map snd (List.rev (lstrip (List.rev (lstrip (chars s)))))).

Fixpoint rev_acc (s acc : string) : string :=
  match s with
  | String c s' => rev_acc s' (String c acc)
  | EmptyString => acc
  end.

Definition rev (s : string) : string := rev_acc s EmptyString.

(** [s.split(",")]: never empty, one more field than there are commas. *)
Fixpoint split_comma (s : string) : list string :=
  match s with
  | EmptyString => [EmptyString]
  | String c s' =>
      if Ascii.eqb c "," then EmptyString :: split_comma s'
      else match split_comma s' with
           | h :: t => String c h :: t
           | [] => [String c EmptyString]
           end
  end.

(** [needle in hay] on two strings: substring test. *)
Fixpoint contains (needle hay : string) : bool :=
  String.prefix needle hay
  || match hay with
     | String _ hay' => contains needle hay'
     | EmptyString => false
     end.

(** The code points of the digit zero of each script, after ASCII: the
    ten digits of a script follow one another (Unicode 14.0, the one of
    CPython 3.11). *)
Definition digit_zeros : list N :=
  [1632; 1776; 1984; 2406; 2534; 2662; 2790; 2918; 3046; 3174; 3302; 3430;
   3558; 3664; 3792; 3872; 4160; 4240; 6112; 6160; 6470; 6608; 6784; 6800;
   6992; 7088; 7232; 7248; 42528; 43216; 43264; 43472; 43504; 43600; 44016;
   65296; 66720; 68912; 69734; 69872; 69942; 70096; 70384; 70736; 70864;
   71248; 71360; 71472; 71904; 72016; 72784; 73040; 73120; 92768; 92864;
   93008; 120782; 120792; 120802; 120812; 120822; 123200; 123632; 125264;
   130032]%N.

(** The value of a decimal digit outside ASCII. *)
Definition decimal (n : N) : option N :=
  match List.find (fun z => (z <=? n) && (n <? z + 10))%N digit_zeros with
  | Some z => Some (n - z)%N
  | None => None
  end.

(** What [int] reads a character as: ASCII stays, other white space is a
    blank, another decimal digit is its ASCII digit, and anything else
    is a character that no number has. *)
Definition to_ascii (n : N) : N :=
  if (n <? 128)%N then n
  else if isspace n then 32%N
  else match decimal n with
       | Some d => (48 + d)%N
       | None => 0%N
       end.

(** The blanks that [int] skips around a number. *)
Definition int_space (n : N) : bool :=
  (((9 <=? n) && (n <=? 13)) || (n =? 32))%N.

Fixpoint skip_space (l : list N) : list N :=
  match l with
  | n :: l' => if int_space n then skip_space l' else l
  | [] => []
  end.

(** Decimal digits, single underscores allowed between two digits; the
    digits are counted. *)
Fixpoint parse_digits (l : list N) (acc : Z) (count : N) (after_digit : bool)
  : option (Z * N) :=
  match l with
  | [] => if after_digit then Some (acc, count) else None
  | n :: l' =>
      if ((48 <=? n) && (n <=? 57))%N
      then parse_digits l' (acc * 10 + Z.of_N (n - 48)) (count + 1)%N true
      else if (n =? 95)%N then
             if after_digit then parse_digits l' acc count false else None
      else None
  end.

(** The interpreter's limit on the digits of a number read from a
    string, [sys.get_int_max_str_digits()], as it is set by default. *)
Definition max_str_digits : N := 4300.

Definition unsigned (l : list N) : option Z :=
  match parse_digits l 0 0%N false with
  | Some (z, count) => if (count <=? max_str_digits)%N then Some z else None
  | None => None
  end.

(** [int(s)]: [None] stands for the [ValueError]. *)
Definition int (s : string) : option Z :=
  let l := map (fun c => to_ascii (fst c)) (chars s) in
  match List.rev (skip_space (List.rev (skip_space l))) with
  | 43%N :: r => unsigned r
  | 45%N :: r => option_map Z.opp (unsigned r)
  | r => unsigned r
  end.

(** [posixpath.join(a, b)]. *)
Definition endswith_slash (s : string) : bool :=
  match rev s with
  | String c _ => Ascii.eqb c "/"
  | EmptyString => false
  end.

Definition join (a b : string) : string :=
  match b with
  | String "/" _ => b
  | _ => if (a =? "") || endswith_slash a then (a ++ b)%string
         else (a ++ "/" ++ b)%string
  end.

End PyStr.

(** ** XML elements *)

Inductive Element : Type :=
  mkElement (tag : string) (attrib : list (string * string))
            (children : list Element).

Definition tag (e : Element) : string :=
  match e with mkElement t _ _ => t end.

Definition attrib (e : Element) : list (string * string) :=
  match e with mkElement _ a _ => a end.

Definition getchildren (e : Element) : list Element :=
  match e with mkElement _ _ c => c end.

Fixpoint assoc (k : string) (l : list (string * string)) : option string :=
  match l with
  | [] => None
  | (k', v) :: l' => if k' =? k then Some v else assoc k l'
  end.

(** [e.attrib.get(k)] *)
Definition get (e : Element) (k : string) : option string := assoc k (attrib e).

(** [e.attrib.get(k, d)] *)
Definition get_or (e : Element) (k d : string) : string :=
  match get e k with Some v => v | None => d end.

(** Truth value of [e.attrib.get(k)]: present and not empty. *)
Definition truthy (o : option string) : bool :=
  match o with
  | Some s => negb (s =? "")
  | None => false
  end.

(** [o == s] for the result of [attrib.get]. *)
Definition is_str (o : option string) (s : string) : bool :=
  match o with
  | Some v => v =? s
  | None => false
  end.

(** [e.find(t)] and [e.findall(t)] for a plain tag name. *)
Definition find (e : Element) (t : string) : option Element :=
  List.find (fun c => tag c =? t) (getchildren e).

Definition findall (e : Element) (t : string) : list Element :=
  List.filter (fun c => tag c =? t) (getchildren e).

(** Nesting depth, the measure the recursion of the builders follows. *)
Fixpoint depth (e : Element) : nat :=
  match e with
  | mkElement _ _ cs =>
      S ((fix depths (l : list Element) : nat :=
            match l with
            | [] => 0
            | c :: l' => Nat.max (depth c) (depths l')
            end) cs)
  end.

(** ** Python values *)

Inductive pykey : Type :=
| KStr (s : string)
| KInt (z : Z)
| KNone.

Coercion KStr : string >-> pykey.

Definition key_eqb (a b : pykey) : bool :=
  match a, b with
  | KStr s, KStr t => s =? t
  | KInt x, KInt y => Z.eqb x y
  | KNone, KNone => true
  | _, _ => false
  end.

Inductive pyval : Type :=
| PNone
| PBool (b : bool)
| PInt (z : Z)
| PStr (s : string)
| PList (l : list pyval)
| PTuple (l : list pyval)
| PDict (d : list (pykey * pyval)).

Definition dict : Type := list (pykey * pyval).

(** A scalar used as an enum value or as a dictionary key. *)
Definition of_key (k : pykey) : pyval :=
  match k with
  | KStr s => PStr s
  | KInt z => PInt z
  | KNone => PNone
  end.

(** [attrib.get(k)] as a Python value. *)
Definition of_opt (o : option string) : pyval :=
  match o with
  | Some s => PStr s
  | None => PNone
  end.

(** Truth value of a Python object. *)
Definition py_bool (v : pyval) : bool :=
  match v with
  | PNone => false
  | PBool b => b
  | PInt z => negb (Z.eqb z 0)
  | PStr s => negb (s =? "")
  | PList l | PTuple l => match l with [] => false | _ => true end
  | PDict d => match d with [] => false | _ => true end
  end.

Module Dict.

(** [d.get(k)] *)
Fixpoint lookup (k : pykey) (d : dict) : option pyval :=
  match d with
  | [] => None
  | (k', v) :: d' => if key_eqb k' k then Some v else lookup k d'
  end.

(** [k in d] *)
Definition mem (k : pykey) (d : dict) : bool :=
  match lookup k d with Some _ => true | None => false end.

(** [d[k] = v]: an existing key keeps its place, a new one goes last. *)
Fixpoint set (k : pykey) (v : pyval) (d : dict) : dict :=
  match d with
  | [] => [(k, v)]
  | (k', v') :: d' =>
      if key_eqb k' k then (k', v) :: d' else (k', v') :: set k v d'
  end.

(** [del d[k]] on a key that is present. *)
Fixpoint remove (k : pykey) (d : dict) : dict :=
  match d with
  | [] => []
  | (k', v) :: d' => if key_eqb k' k then d' else (k', v) :: remove k d'
  end.

(** [d.update(other)] *)
Definition update (d other : dict) : dict :=
  fold_left (fun acc kv => set (fst kv) (snd kv) acc) other d.

End Dict.

(** ** Effects: diagnostics, the file system, exceptions *)

(** One constructor per [print] of the script.  [toStr(elem)] is kept as
    [elem]; [ForgotDynamicKeys] and [EmptyValue] are the two messages that
    the script prints as plain strings, braces included. *)
Inductive diag : Type :=
| ChoiceNoValue (choiceElem : Element)
| InvalidChoiceValue (choiceElem : Element)
| ChoiceNoValues (param : Element)
| ItemNoType (item : Element)
| KeyWithoutValue (param : Element)
| ForgotDynamicKeys
| ParamTypeEmpty (branch : string) (param : Element)
| ParamNameEmpty (branch : string) (param : Element)
| MethodNoName (method : Element)
| NoInput (method : Element)
| NoOutput (branch : string) (method : Element)
| NoOutputTypeNorValue (branch : string) (method : Element)
| ExpectedChoiceTag (param : Element)
| EmptyValue
| HandlerNoName
| NoAuthType (branch : string) (method : Element)
| BadAuthType (authType authTypesStr : string).

Inductive event : Type :=
| Stdout (d : diag)
| Makedirs (path : string)          (* os.makedirs(path, exist_ok=True) *)
| WriteFile (path : string) (data : pyval).

Inductive exn : Type :=
| KeyError (k : string)
| ValueError (s : string)
| TypeError.

Inductive outcome (A : Type) : Type :=
| Ret (a : A)
| Raise (e : exn)
| NoFuel.

Arguments Ret {A} a.
Arguments Raise {A} e.
Arguments NoFuel {A}.

(** A computation: the events it performed, then how it ended.  The
    builders only print, so their events are diagnostics ([M]); the
    writer also touches the file system ([IO]). *)
Definition W (E A : Type) : Type := (list E * outcome A)%type.
Definition M (A : Type) : Type := W diag A.
Definition IO (A : Type) : Type := W event A.

Definition ret {E A} (a : A) : W E A := ([], Ret a).

Definition bind {E A B} (m : W E A) (f : A -> W E B) : W E B :=
  match m with
  | (t, Ret a) => let (t', r) := f a in (t ++ t', r)
  | (t, Raise e) => (t, Raise e)
  | (t, NoFuel) => (t, NoFuel)
  end.

Definition raise {E A} (e : exn) : W E A := ([], Raise e).

Definition print (d : diag) : M unit := ([d], Ret tt).

(** A builder run from the writer: its diagnostics go to the console. *)
Definition lift {A} (m : M A) : IO A := (map Stdout (fst m), snd m).

Definition makedirs (path : string) : IO unit := ([Makedirs path], Ret tt).

Definition write_file (path : string) (data : pyval) : IO unit :=
  ([WriteFile path data], Ret tt).

Definition when {E} (b : bool) (m : W E unit) : W E unit :=
  if b then m else ret tt.

Declare Scope py_scope.
Delimit Scope py_scope with py.
Notation "x <- m ;; k" := (bind m (fun x => k))
  (at level 61, m at next level, right associativity) : py_scope.
Notation "m ;; k" := (bind m (fun _ => k))
  (at level 61, right associativity) : py_scope.
Notation "' pat <- m ;; k" := (bind m (fun x => match x with pat => k end))
  (at level 61, pat pattern, m at next level, right associativity) : py_scope.
Local Open Scope py_scope.

Definition events {E A} (m : W E A) : list E := fst m.
Definition result {E A} (m : W E A) : outcome A := snd m.

(** [d.pop(k)] and [del d[k]]: a [KeyError] when the key is missing. *)
Definition pop (k : string) (d : dict) : M (pyval * dict) :=
  match Dict.lookup k d with
  | Some v => ret (v, Dict.remove k d)
  | None => raise (KeyError k)
  end.

(** [d.update(v)] where [v] was stored as a value: only a dict has items. *)
Definition items_of (v : pyval) : dict :=
  match v with
  | PDict d => d
  | _ => []
  end.

(** ** The type-mapping table *)

(** The [type] field of a [ParamType]: a string or a tuple of strings. *)
Inductive jsontype : Type :=
| One (s : string)
| Several (l : list string).

Record ParamType : Type := mkParamType {
  type : jsontype;
  comment : string;
  pattern : string;
}.

(** [ParamType()]: every field defaults to the empty string. *)
Definition ParamType0 : ParamType := mkParamType (One "") "" "".

Definition datetimePattern : string :=
  "^[0-9]{4}-[0-9]{2}-[0-9]{2} [0-9]{2}:[0-9]{2}(:[0-9]{2})?$".

(** The dictionary display, entry by entry and in its order; the key
    ["list, str"] is written twice there, with the same value. *)
Definition paramTypeMapping : list (string * ParamType) :=
  [ ("any", ParamType0);
    ("str", mkParamType (One "string") "" "");
    ("srt", mkParamType (One "string") "" "");
    ("str_int", mkParamType (One "string") "" "^[0-9]+$");
    ("int", mkParamType (One "number") "" "");
    ("float", mkParamType (One "number") "" "");
    ("str_float", mkParamType (One "str") "float as string" "");
    ("datetime", mkParamType (One "string") "datetime" datetimePattern);
    ("datetime, float",
      mkParamType (Several ["string"; "number"]) "datetime or number" "");
    ("datetime, null",
      mkParamType (Several ["string"; "null"]) "datetime or null" datetimePattern);
    ("bool", mkParamType (One "boolean") "" "");
    ("true_if_exists", mkParamType (One "boolean") "true if exists" "");
    ("list", mkParamType (One "array") "" "");
    ("list, str", mkParamType (Several ["array"; "string"]) "" "");
    ("dict", mkParamType (One "object") "" "");
    ("null", mkParamType (One "null") "" "");
    ("int, null", mkParamType (Several ["number"; "null"]) "int or null" "");
    ("dynamic", mkParamType (One "") "dynamic type" "");
    ("list, str", mkParamType (Several ["array"; "string"]) "" "");
    ("list, int", mkParamType (Several ["array"; "number"]) "array or int" "");
    ("int, list", mkParamType (Several ["number"; "array"]) "int or array" "");
    ("str, list", mkParamType (Several ["string"; "array"]) "string or array" "")
  ].

(** [paramTypeMapping.get(k)]: in a display the last entry of a key wins. *)
Fixpoint table_get (k : string) (t : list (string * ParamType))
  : option ParamType :=
  match t with
  | [] => None
  | (k', v) :: t' =>
      match table_get k t' with
      | Some v' => Some v'
      | None => if k' =? k then Some v else None
      end
  end.

(** [paramTypeMapping[k]] *)
Definition paramTypeMapping_getitem (k : string) : M ParamType :=
  match table_get k paramTypeMapping with
  | Some v => ret v
  | None => raise (KeyError k)
  end.

(** The mapped type as a Python value, as it is stored in a schema. *)
Definition of_type (t : jsontype) : pyval :=
  match t with
  | One s => PStr s
  | Several l => PTuple (map PStr l)
  end.

(** ["array" in t] *)
Definition array_in (t : jsontype) : bool :=
  match t with
  | One s => PyStr.contains "array" s
  | Several l => existsb (fun s => s =? "array") l
  end.

(** Truth value of the mapped type. *)
Definition type_bool (t : jsontype) : bool := py_bool (of_type t).

(** [str(t)], as the f-string of the result name formats it. *)
Definition type_str (t : jsontype) : string :=
  match t with
  | One s => s
  | Several l =>
      ("(" ++ String.concat ", " (map (fun s => "'" ++ s ++ "'") l)
           ++ (match l with [_] => "," | _ => "" end) ++ ")")%string
  end.

(** A value used as a dictionary key.  [True] and [1] are the same key;
    a list or a dict is unhashable.  (A tuple never reaches this point.) *)
Definition key_of (v : pyval) : M pykey :=
  match v with
  | PStr s => ret (KStr s)
  | PInt z => ret (KInt z)
  | PBool b => ret (KInt (if b then 1 else 0))
  | PNone => ret KNone
  | PList _ | PTuple _ | PDict _ => raise TypeError
  end.

(** [d.update(d.pop("schema"))], guarded by ["schema" in d]. *)
Definition flatten_schema (d : dict) : dict :=
  match Dict.lookup "schema" d with
  | Some schema => Dict.update (Dict.remove "schema" d) (items_of schema)
  | None => d
  end.

(** ** The parameter builders *)

Section Builders.

(** The module-level [branch] that the diagnostics format; the script
    sets it from the command line and passes the same value to
    [convert]. *)
Variable branch : string.

(** The loop of [getChoiceJsonParam]; [None] is its early [return]. *)
Fixpoint getChoiceJsonParam_loop (cs : list Element) (values : list pykey)
    (comments : dict) (default : option pykey)
  : M (option (list pykey * dict * option pykey)) :=
  match cs with
  | [] => ret (Some (values, comments, default))
  | choiceElem :: cs' =>
      if negb (tag choiceElem =? "choice") then ret None
      else match get choiceElem "value" with
      | None => print (ChoiceNoValue choiceElem) ;; ret None
      | Some value =>
          let _type := get choiceElem "type" in
          value <- (if truthy _type then
                      if is_str _type "int" then
                        match PyStr.int value with
                        | Some z => ret (KInt z)
                        | None => raise (ValueError value)
                        end
                      else if is_str _type "str" then ret (KStr value)
                      else print (InvalidChoiceValue choiceElem) ;;
                           ret (KStr value)
                    else ret (KStr value)) ;;
          let values := values ++ [value] in
          let comment := get choiceElem "comment" in
          let comments :=
            if truthy comment then Dict.set value (of_opt comment) comments
            else comments in
          let default :=
            if truthy (get choiceElem "default") then Some value
            else default in
          getChoiceJsonParam_loop cs' values comments default
      end
  end.

(** The coercion of a default that is not [None]. *)
Definition coerce_default (default : pykey) : pyval :=
  match default with
  | KStr s =>
      if (s =? "true") || (s =? "false") then PBool (s =? "true")
      else match PyStr.int s with
           | Some z => PInt z
           | None => PStr s
           end
  | KInt z => PInt z
  | KNone => PNone
  end.

Definition getChoiceJsonParam (param : Element) : M (option dict) :=
  let paramName := get param "name" in
  let description := get param "comment" in
  r <- getChoiceJsonParam_loop (getchildren param) [] [] None ;;
  match r with
  | None => ret None
  | Some (values, comments, default) =>
      when (match values with [] => true | _ => false end)
           (print (ChoiceNoValues param)) ;;
      let paramJson : dict := [] in
      let paramJson :=
        if truthy paramName then Dict.set "name" (of_opt paramName) paramJson
        else paramJson in
      let paramJson :=
        match description with
        | Some d => Dict.set "description" (PStr d) paramJson
        | None => paramJson
        end in
      let paramJson := Dict.set "enum" (PList (map of_key values)) paramJson in
      let paramJson :=
        match default with
        | Some d => Dict.set "default" (coerce_default d) paramJson
        | None => paramJson
        end in
      let paramJson :=
        match comments with
        | [] => paramJson
        | _ => Dict.set "value_comment" (PDict comments) paramJson
        end in
      ret (Some paramJson)
  end.

Definition addParamExtraAttrs (param : Element) (paramJson : dict) : dict :=
  match get param "default" with
  | Some default =>
      Dict.set "default" (PStr default)
               (Dict.set "required" (PBool false) paramJson)
  | None =>
      if truthy (get param "optional")
      then Dict.set "required" (PBool false) paramJson
      else paramJson
  end.

(** [getJsonParam], as the functions below call it back. *)
Variable self : Element -> M (option dict).

Fixpoint getParams_loop (cs : list Element) (params : list dict)
  : M (list dict) :=
  match cs with
  | [] => ret params
  | param :: cs' =>
      if negb (tag param =? "param") then getParams_loop cs' params
      else if negb (truthy (get param "name")) then
        print (ParamNameEmpty branch param) ;; getParams_loop cs' params
      else
        jsonParam <- self param ;;
        match jsonParam with
        | None => getParams_loop cs' params
        | Some jsonParam => getParams_loop cs' (params ++ [jsonParam])
        end
  end.

Definition getParams (elem : Element) : M (list dict) :=
  getParams_loop (getchildren elem) [].

Definition getListItemSchema (item : Element) : M (option dict) :=
  let _type := get item "type" in
  if negb (truthy _type) then print (ItemNoType item) ;; ret None
  else if is_str _type "choice" then
    let itemJson : dict := [(KStr "title", PStr (get_or item "comment" ""))] in
    _tmpItem <- getChoiceJsonParam item ;;
    match _tmpItem with
    | None => ret None
    | Some _tmpItem =>
        let itemJson := Dict.update itemJson _tmpItem in
        let itemJson :=
          if Dict.mem "description" itemJson
          then Dict.remove "description" itemJson
          else itemJson in
        ret (Some itemJson)
    end
  else if is_str _type "dict" then
    params <- getParams item ;;
    let params := map flatten_schema params in
    let res : dict :=
      [(KStr "title", PStr (get_or item "comment" ""));
       (KStr "type", PStr "object")] in
    let res :=
      if is_str (get item "dynamic_keys") "true"
      then Dict.set "dynamic_keys" (PBool true) res
      else res in
    let res := Dict.set "params" (PList (map PDict params)) res in
    ret (Some res)
  else
    ret (Some [(KStr "title", PStr (get_or item "comment" ""));
               (KStr "type", of_opt _type)]).

Fixpoint getMultiTypeListItemSchema_loop (items : list Element) (index : nat)
    (result : list dict) : M (list dict) :=
  match items with
  | [] => ret result
  | item :: items' =>
      let schema : dict := [(KStr "index", PInt (Z.of_nat index))] in
      schema2 <- getListItemSchema item ;;
      match schema2 with
      | None => getMultiTypeListItemSchema_loop items' (S index) result
      | Some schema2 =>
          getMultiTypeListItemSchema_loop items' (S index)
            (result ++ [Dict.update schema schema2])
      end
  end.

Definition getMultiTypeListItemSchema (items : list Element) : M (list dict) :=
  getMultiTypeListItemSchema_loop items 0 [].

Definition getListSchema (elem : Element) (newType : pyval) : M dict :=
  let schema : dict := [(KStr "type", newType)] in
  let items := findall elem "item" in
  schema <- (match items with
             | [] => ret schema
             | item0 :: _ =>
                 itemSchema <-
                   (if (1 <? List.length items)%nat then
                      l <- getMultiTypeListItemSchema items ;;
                      ret (PList (map PDict l))
                    else
                      o <- getListItemSchema item0 ;;
                      ret (match o with Some d => PDict d | None => PNone end)) ;;
                 ret (if py_bool itemSchema
                      then Dict.set "items" itemSchema schema
                      else schema)
             end) ;;
  let length := get elem "length" in
  ret (if truthy length && negb (is_str length "-1")
       then Dict.set "length" (of_opt length) schema
       else schema).

Definition setDynamicKeys (param : Element) (schema : dict) : M dict :=
  let schema := Dict.set "dynamic_keys" (PBool true) schema in
  match find param "key" with
  | None => ret schema
  | Some key =>
      match find param "value" with
      | None => print (KeyWithoutValue param) ;; ret schema
      | Some value =>
          let schema :=
            Dict.set "__key__"
              (PDict [(KStr "type", PStr (get_or key "type" ""));
                      (KStr "title", PStr (get_or key "comment" ""))])
              schema in
          valueJson <- self value ;;
          match valueJson with
          | None => raise TypeError       (* "schema" in None *)
          | Some valueJson =>
              let valueJson := flatten_schema valueJson in
              ret (Dict.set "__value__" (PDict valueJson) schema)
          end
      end
  end.

(** The loop of [setDictParamsSchema] over the sub-parameters. *)
Fixpoint setDictParamsSchema_loop (subParams : list dict) (properties : dict)
  : M dict :=
  match subParams with
  | [] => ret properties
  | subParam :: rest =>
      '(name, subParam) <- pop "name" subParam ;;
      '(title, subParam) <-
        (if Dict.mem "description" subParam then pop "description" subParam
         else ret (PStr "", subParam)) ;;
      let prop : dict := [(KStr "title", title)] in
      '(prop, subParam) <-
        (if Dict.mem "schema" subParam then
           '(schema, subParam) <- pop "schema" subParam ;;
           ret (Dict.update prop (items_of schema), subParam)
         else ret (prop, subParam)) ;;
      let prop := Dict.update prop subParam in
      name <- key_of name ;;
      setDictParamsSchema_loop rest (Dict.set name (PDict prop) properties)
  end.

Definition setDictParamsSchema (param : Element) (schema : dict) : M dict :=
  subParams <- getParams param ;;
  properties <- setDictParamsSchema_loop subParams [] ;;
  schema <- (if is_str (get param "dynamic_keys") "true"
             then setDynamicKeys param schema
             else when (match find param "key" with Some _ => true | None => false end)
                       (print ForgotDynamicKeys) ;;
                  ret schema) ;;
  ret (Dict.set "properties" (PDict properties) schema).

Definition getJsonParam_body (param : Element) : M (option dict) :=
  let paramName := get param "name" in
  let paramType := get param "type" in
  when (negb (truthy paramType)) (print (ParamTypeEmpty branch param)) ;;
  if is_str paramType "choice" then getChoiceJsonParam param
  else
    let description := get_or param "comment" "" in
    let paramValue := get param "value" in
    newType <- (if truthy paramType
                then paramTypeMapping_getitem (get_or param "type" "")
                else ret ParamType0) ;;
    if truthy paramValue then
      (* like a choice with one value *)
      let paramJson : dict :=
        [(KStr "name", of_opt paramName);
         (KStr "description", PStr description);
         (KStr "enum", PList [of_opt paramValue])] in
      ret (Some (addParamExtraAttrs param paramJson))
    else
      let description :=
        if negb (comment newType =? "")
        then (comment newType ++ ", " ++ description)%string
        else description in
      schema <- (if array_in (type newType)
                 then getListSchema param (of_type (type newType))
                 else ret [(KStr "type", of_type (type newType))]) ;;
      schema <- (if negb (pattern newType =? "")
                 then ret (Dict.set "pattern" (PStr (pattern newType)) schema)
                 else if is_str paramType "dict"
                      then setDictParamsSchema param schema
                      else ret schema) ;;
      let paramJson : dict := [] in
      let paramJson :=
        if truthy paramName then Dict.set "name" (of_opt paramName) paramJson
        else paramJson in
      let paramJson :=
        Dict.update paramJson
          [(KStr "description", PStr description);
           (KStr "schema", PDict schema)] in
      ret (Some (addParamExtraAttrs param paramJson)).

End Builders.

(** [getJsonParam]: the recursion through [getParams] and [setDynamicKeys]
    goes down the element tree, one unit of fuel per nested call. *)
Fixpoint getJsonParam (branch : string) (fuel : nat) (param : Element)
  : M (option dict) :=
  match fuel with
  | O => ([], NoFuel)
  | S fuel' => getJsonParam_body branch (getJsonParam branch fuel') param
  end.

(** Fuel that covers every nested call below an element. *)
Definition fuel_of (e : Element) : nat := S (depth e).

(** ** The method builder *)

Section Methods.

Variable branch : string.
Variable fuel : nat.

(** The [choice] loop over the children of [<output>]. *)
Fixpoint resultValues_loop (cs : list Element) (resultValues : list pyval)
  : M (list pyval) :=
  match cs with
  | [] => ret resultValues
  | param :: cs' =>
      if negb (tag param =? "choice") then
        print (ExpectedChoiceTag param) ;; resultValues_loop cs' resultValues
      else
        let value := get param "value" in
        if negb (truthy value) then
          print EmptyValue ;; resultValues_loop cs' resultValues
        else resultValues_loop cs' (resultValues ++ [of_opt value])
  end.

(** The [param] loop over the children of [<output>]. *)
Fixpoint resultParams_loop (cs : list Element) (resultParams : dict)
  : M dict :=
  match cs with
  | [] => ret resultParams
  | param :: cs' =>
      if negb (tag param =? "param") then resultParams_loop cs' resultParams
      else
        let paramName := get param "name" in
        if negb (truthy paramName) then
          print (ParamNameEmpty branch param) ;;
          resultParams_loop cs' resultParams
        else
          jsonParamTmp <- getJsonParam branch fuel param ;;
          match jsonParamTmp with
          | None => resultParams_loop cs' resultParams
          | Some jsonParamTmp =>
              '(_, jsonParamTmp) <- pop "name" jsonParamTmp ;;
              '(title, jsonParamTmp) <-
                (if Dict.mem "description" jsonParamTmp
                 then pop "description" jsonParamTmp
                 else ret (PStr "", jsonParamTmp)) ;;
              let jsonParam : dict := [(KStr "title", title)] in
              '(jsonParam, jsonParamTmp) <-
                (if Dict.mem "schema" jsonParamTmp then
                   '(schema, jsonParamTmp) <- pop "schema" jsonParamTmp ;;
                   ret (Dict.update jsonParam (items_of schema), jsonParamTmp)
                 else ret (jsonParam, jsonParamTmp)) ;;
              let jsonParam := Dict.update jsonParam jsonParamTmp in
              resultParams_loop cs'
                (Dict.set (get_or param "name" "") (PDict jsonParam) resultParams)
          end
  end.

(** The [result] object, from what the output resolution found. *)
Definition result_object (outputComment : string) (resultType : ParamType)
    (resultValues : option (list pyval)) (resultParams : dict) : dict :=
  let resultName :=
    match resultValues with
    | Some _ => "Response (one of following values)"
    | None =>
        if type_bool (type resultType)
        then ("Response (" ++ type_str (type resultType) ++ ")")%string
        else ""
    end in
  let result : dict :=
    [(KStr "name", PStr resultName); (KStr "comment", PStr outputComment)] in
  let result :=
    if type_bool (type resultType) then
      let resultSchema : dict :=
        [(KStr "title", PStr ""); (KStr "type", of_type (type resultType))] in
      let resultSchema :=
        match resultParams with
        | [] => resultSchema
        | _ => Dict.set "properties" (PDict resultParams) resultSchema
        end in
      Dict.set "schema" (PDict resultSchema) result
    else result in
  match resultValues with
  | Some vs => Dict.set "enum" (PList vs) result
  | None => result
  end.

(** [getJsonMethod] from [if outputType == "choice":] to its end, given
    the [resultValues] found so far: the [result] object is built and
    stored in the descriptor. *)
Definition getJsonMethod_resolve (outputElem : Element) (jsonMethod : dict)
    (resultValues : option (list pyval)) : M (option dict) :=
  let outputComment := get_or outputElem "comment" "" in
  let outputType := get outputElem "type" in
  let resultType := ParamType0 in
  '(resultValues, resultType) <-
    (if is_str outputType "choice" then
       vs <- resultValues_loop (getchildren outputElem) [] ;;
       ret (Some vs, resultType)
     else if truthy outputType then
       resultType <- paramTypeMapping_getitem (get_or outputElem "type" "") ;;
       ret (resultValues, resultType)
     else ret (resultValues, resultType)) ;;
  resultParams <- resultParams_loop (getchildren outputElem) [] ;;
  let result :=
    result_object outputComment resultType resultValues resultParams in
  ret (Some (Dict.set "result" (PDict result) jsonMethod)).

(** [getJsonMethod] from [outputComment = ...] on: the resolution of
    [<output>], with its [if outputValue: ... elif not outputType:
    return None]. *)
Definition getJsonMethod_output (method outputElem : Element)
    (jsonMethod : dict) : M (option dict) :=
  let outputType := get outputElem "type" in
  let outputValue := get outputElem "value" in
  if truthy outputValue then
    getJsonMethod_resolve outputElem jsonMethod (Some [of_opt outputValue])
  else if negb (truthy outputType) then
    print (NoOutputTypeNorValue branch method) ;; ret None
  else getJsonMethod_resolve outputElem jsonMethod None.

(** The descriptor of [getJsonMethod] up to [jsonMethod["params"]]. *)
Definition jsonMethod_head (handlerName : string) (method : Element)
    (authTypes : list string) (params : list dict) : dict :=
  let jsonMethod : dict :=
    [(KStr "name",
       PStr (handlerName ++ "." ++ get_or method "name" "")%string);
     (KStr "description", PStr (get_or method "comment" ""));
     (KStr "auth_type", PList (map PStr authTypes))] in
  let requires_perm := get method "requires_perm" in
  let jsonMethod :=
    if truthy requires_perm
    then Dict.set "requires_perm" (of_opt requires_perm) jsonMethod
    else jsonMethod in
  Dict.set "params" (PList (map PDict params)) jsonMethod.

Definition getJsonMethod (handlerName : string) (method : Element)
    (authTypes : list string) : M (option dict) :=
  if negb (tag method =? "method") then ret None
  else
    let methodName := get method "name" in
    if negb (truthy methodName) then print (MethodNoName method) ;; ret None
    else match find method "input" with
    | None => print (NoInput method) ;; ret None
    | Some inputElem =>
      match find method "output" with
      | None => print (NoOutput branch method) ;; ret None
      | Some outputElem =>
          params <- getParams branch (getJsonParam branch fuel) inputElem ;;
          let jsonMethod :=
            jsonMethod_head handlerName method authTypes params in
          getJsonMethod_output method outputElem jsonMethod
      end
    end.

End Methods.

(** ** The handler and document writer *)

Definition known_auth_type (authType : string) : bool :=
  existsb (fun s => s =? authType)
          ["ADMIN"; "NORMAL_USER"; "VOIP_USER"; "ANONYMOUS"].

Fixpoint check_auth_types (authTypes : list string) (authTypesStr : string)
  : M unit :=
  match authTypes with
  | [] => ret tt
  | authType :: rest =>
      when (negb (known_auth_type authType))
           (print (BadAuthType authType authTypesStr)) ;;
      check_auth_types rest authTypesStr
  end.

(** The access levels of a method whose [auth_type] attribute is present:
    the [if authTypesStr: ... else: ...] of the method loop. *)
Definition authTypes_of (authTypesStr : string) : M (list string) :=
  if negb (authTypesStr =? "") then
    let authTypes := map PyStr.strip (PyStr.split_comma authTypesStr) in
    check_auth_types authTypes authTypesStr ;; ret authTypes
  else ret ["ADMIN"; "NORMAL_USER"; "VOIP_USER"].

(** The method loop of [convertSubsystem]; [None] is its [return]. *)
Fixpoint convertSubsystem_loop (fuel : nat) (branch handlerName : string)
    (cs : list Element) (methods : list dict) : M (option (list dict)) :=
  match cs with
  | [] => ret (Some methods)
  | method :: cs' =>
      if negb (tag method =? "method")
      then convertSubsystem_loop fuel branch handlerName cs' methods
      else match get method "auth_type" with
      | None => print (NoAuthType branch method) ;; ret None
      | Some authTypesStr =>
          authTypes <- authTypes_of authTypesStr ;;
          jsonMethod <- getJsonMethod branch fuel handlerName method authTypes ;;
          match jsonMethod with
          | None => convertSubsystem_loop fuel branch handlerName cs' methods
          | Some jsonMethod =>
              convertSubsystem_loop fuel branch handlerName cs'
                                    (methods ++ [jsonMethod])
          end
      end
  end.

(** The data that [convertSubsystem] serialises into the handler's file. *)
Definition document (branch handlerName : string) (methods : list dict) : pyval :=
  PDict
    [(KStr "openrpc", PStr "1.2.1");
     (KStr "info",
       PDict [(KStr "version", PStr "1.0.0");
              (KStr "title",
                PStr ("IBSng: branch " ++ branch ++ ": " ++ handlerName)%string)]);
     (KStr "methods", PList (map PDict methods))].

Definition convertSubsystem (fuel : nat) (handler : Element)
    (branch outDir : string) : IO unit :=
  if negb (truthy (get handler "name")) then lift (print HandlerNoName)
  else
    let handlerName := get_or handler "name" "" in
    let branchDir := PyStr.join outDir branch in
    makedirs branchDir ;;
    methods <- lift (convertSubsystem_loop fuel branch handlerName
                                           (getchildren handler) []) ;;
    match methods with
    | None => ret tt
    | Some methods =>
        write_file (PyStr.join branchDir (handlerName ++ ".json")%string)
                   (document branch handlerName methods)
    end.

Fixpoint convert_loop (fuel : nat) (cs : list Element) (branch outDir : string)
  : IO unit :=
  match cs with
  | [] => ret tt
  | handler :: cs' =>
      if negb (tag handler =? "handler") then convert_loop fuel cs' branch outDir
      else convertSubsystem fuel handler branch outDir ;;
           convert_loop fuel cs' branch outDir
  end.

(** [convert], on the parsed document. *)
Definition convert (doc : Element) (branch outDir : string) : IO unit :=
  convert_loop (fuel_of doc) (getchildren doc) branch outDir.

(** ** The file system, as far as the writer touches it *)

Record FS : Type := mkFS {
  dirs : list string;
  files : list (string * pyval);
}.

(** [os.makedirs(path, exist_ok=True)]: nothing happens, and nothing is
    raised, when the directory is there already. *)
Definition fs_makedirs (path : string) (fs : FS) : FS :=
  if existsb (fun d => d =? path) (dirs fs) then fs
  else mkFS (path :: dirs fs) (files fs).

(** [open(path, "w")] followed by the write: the file holds the data. *)
Definition fs_write (path : string) (data : pyval) (fs : FS) : FS :=
  mkFS (dirs fs)
       ((path, data) :: filter (fun f => negb (fst f =? path)) (files fs)).

Definition fs_step (fs : FS) (ev : event) : FS :=
  match ev with
  | Stdout _ => fs
  | Makedirs path => fs_makedirs path fs
  | WriteFile path data => fs_write path data fs
  end.

Definition fs_run (evs : list event) (fs : FS) : FS := fold_left fs_step evs fs.

Definition is_write (ev : event) : bool :=
  match ev with WriteFile _ _ => true | _ => false end.

Definition is_fs_event (ev : event) : bool :=
  match ev with Stdout _ => false | _ => true end.

(** The files a run wrote, in order. *)
Definition writes (evs : list event) : list event := filter is_write evs.

(** ** Vocabulary of the properties *)

(** A table entry for a single scalar JSON type: one type name, which is
    neither the array nor the object type. *)
Definition scalar_entry (entry : ParamType) (T : string) : Prop :=
  type entry = One T /\ T <> "array" /\ T <> "object".


(** The value a [<choice>] child contributes to the enumeration: the
    integer read from its [value] when [type="int"], the [value] itself
    otherwise. *)
Definition choice_value (choiceElem : Element) : pykey :=
  match get choiceElem "value" with
  | Some value =>
      if is_str (get choiceElem "type") "int" then
        match PyStr.int value with
        | Some z => KInt z
        | None => KStr value
        end
      else KStr value
  | None => KNone
  end.

(** A [<choice>] child that [getChoiceJsonParam] can take in: it has a
    [value], which reads as an integer when the child says [type="int"]. *)
Definition choice_ok (choiceElem : Element) : Prop :=
  tag choiceElem = "choice"
  /\ exists value,
      get choiceElem "value" = Some value
      /\ (get choiceElem "type" = Some "int" -> PyStr.int value <> None).

(** The child whose value becomes the default: the last one that carries
    a non-empty [default] attribute. *)
Definition marked_default (cs : list Element) : option Element :=
  List.find (fun c => truthy (get c "default")) (rev cs).

(** The [result] object of a method descriptor that was returned. *)
Definition method_result (m : M (option dict)) : option pyval :=
  match result m with
  | Ret (Some d) => Dict.lookup "result" d
  | _ => None
  end.

(** The descriptors in the documents that a run wrote, and their names. *)
Definition methods_written (evs : list event) : list pyval :=
  flat_map (fun ev =>
              match ev with
              | WriteFile _ (PDict d) =>
                  match Dict.lookup "methods" d with
                  | Some (PList l) => l
                  | _ => []
                  end
              | _ => []
              end) evs.

Definition descriptor_name (v : pyval) : option pyval :=
  match v with
  | PDict d => Dict.lookup "name" d
  | _ => None
  end.

(** An emitted object that carries a non-empty [name]. *)
Definition has_name (d : dict) : Prop :=
  exists n, n <> "" /\ Dict.lookup "name" d = Some (PStr n).

(** The [length] key of a list schema, from the [length] attribute. *)
Definition length_entry (elem : Element) : option pyval :=
  match get elem "length" with
  | Some l => if (l =? "") || (l =? "-1") then None else Some (PStr l)
  | None => None
  end.

(** A computation that does not stop for want of fuel. *)
Definition terminates {E A} (m : W E A) : Prop := result m <> NoFuel.

(** ** Sample elements *)

Module Sample.

Definition input_empty : Element := mkElement "input" [] [].

Definition output_int : Element := mkElement "output" [("type", "int")] [].

Definition method_int : Element :=
  mkElement "method" [("name", "count"); ("auth_type", "")]
            [input_empty; output_int].

Definition handler_ok : Element :=
  mkElement "handler" [("name", "group")] [method_int].

(** A type tag that the table does not know. *)
Definition param_bogus : Element :=
  mkElement "param" [("name", "x"); ("type", "bogus")] [].

Definition output_bogus : Element := mkElement "output" [("type", "bogus")] [].

Definition method_bogus_output : Element :=
  mkElement "method" [("name", "list"); ("auth_type", "ADMIN")]
            [input_empty; output_bogus].

Definition input_bogus : Element := mkElement "input" [] [param_bogus].

Definition method_bogus_param : Element :=
  mkElement "method" [("name", "add"); ("auth_type", "ADMIN")]
            [input_bogus; output_int].

Definition handler_bogus : Element :=
  mkElement "handler" [("name", "user")] [method_bogus_output].

(** A method without [auth_type], after one that is converted. *)
Definition method_no_auth : Element :=
  mkElement "method" [("name", "del")] [input_empty; output_int].

Definition handler_no_auth : Element :=
  mkElement "handler" [("name", "user")] [method_int; method_no_auth].

(** An output with neither [type] nor [value], before a method that is
    converted. *)
Definition output_untyped : Element := mkElement "output" [] [].

Definition method_untyped : Element :=
  mkElement "method" [("name", "first"); ("auth_type", "")]
            [input_empty; output_untyped].

Definition handler_untyped : Element :=
  mkElement "handler" [("name", "user")] [method_untyped; method_int].

Definition handler_typed : Element :=
  mkElement "handler" [("name", "user")] [method_int].

(** Outputs with a [value] and a [type] at once. *)
Definition method_value_and_type : Element :=
  mkElement "method" [("name", "state"); ("auth_type", "")]
    [input_empty; mkElement "output" [("type", "int"); ("value", "ok")] []].

Definition method_value_and_choice : Element :=
  mkElement "method" [("name", "mode"); ("auth_type", "")]
    [input_empty;
     mkElement "output" [("type", "choice"); ("value", "ok")]
       [mkElement "choice" [("value", "a")] [];
        mkElement "choice" [("value", "b")] []]].

(** Choice parameters. *)
Definition choice_ab : Element :=
  mkElement "param" [("name", "kind"); ("type", "choice")]
    [mkElement "choice" [("value", "a"); ("default", "true")] [];
     mkElement "choice" [("value", "b")] []].

Definition choice_not_int : Element :=
  mkElement "param" [("name", "kind"); ("type", "choice")]
    [mkElement "choice" [("type", "int"); ("value", "abc")] []].

(** Dict parameters with dynamic keys. *)
Definition key_str : Element :=
  mkElement "key" [("type", "str"); ("comment", "k")] [].

Definition value_int : Element := mkElement "value" [("type", "int")] [].

Definition dict_dynamic : Element :=
  mkElement "param" [("type", "dict"); ("dynamic_keys", "true")]
            [key_str; value_int].

Definition dict_key_only : Element :=
  mkElement "param" [("type", "dict"); ("dynamic_keys", "true")] [key_str].

(** List parameters. *)
Definition item_int : Element := mkElement "item" [("type", "int")] [].

Definition list_int : Element := mkElement "param" [("type", "list")] [item_int].

Definition list_int_length : Element :=
  mkElement "param" [("type", "list"); ("length", "3")] [item_int].

Definition list_empty_length : Element :=
  mkElement "param" [("name", "ids"); ("type", "list"); ("length", "")] [].

(** A [<value>] element that carries a literal [value]. *)
Definition value_literal : Element :=
  mkElement "value" [("type", "str"); ("value", "x")] [].

Definition dict_value_literal : Element :=
  mkElement "param"
    [("name", "conds"); ("type", "dict"); ("dynamic_keys", "true")]
    [mkElement "key" [("type", "str")] []; value_literal].

Definition doc_value_literal : Element :=
  mkElement "root" []
    [mkElement "handler" [("name", "user")]
       [mkElement "method" [("name", "search"); ("auth_type", "")]
          [mkElement "input" [] [dict_value_literal]; output_int]]].

End Sample.

(** ** Vocabulary of the further properties *)

(** A child that [getParams] converts: a [<param>] with a non-empty name. *)
Definition named_param (c : Element) : bool :=
  (tag c =? "param") && truthy (get c "name").

Definition is_method (c : Element) : bool := tag c =? "method".

Definition is_handler (c : Element) : bool := tag c =? "handler".

(** What a conversion that ended contributes to the list being built. *)
Definition returned {A} (m : M (option A)) : list A :=
  match result m with
  | Ret (Some a) => [a]
  | _ => []
  end.

(** The descriptor that the method loop of [convertSubsystem] appends for
    a [<method>] child. *)
Definition method_descriptor (fuel : nat) (branch handlerName : string)
    (method : Element) : list dict :=
  match get method "auth_type" with
  | Some authTypesStr =>
      match result (authTypes_of authTypesStr) with
      | Ret authTypes =>
          returned (getJsonMethod branch fuel handlerName method authTypes)
      | _ => []
      end
  | None => []
  end.

(** The keys of a dict, in order; a dict built by assignments has each
    key once. *)
Definition keys (d : dict) : list pykey := map fst d.

Definition wf (d : dict) : Prop := NoDup (keys d).

Definition keys_within (ks : list string) (d : dict) : Prop :=
  forall k, In k (keys d) -> In k (map KStr ks).

(** The keys of a parameter object and those of its schema. *)
Definition param_keys : list string :=
  ["name"; "description"; "schema"; "enum"; "default"; "required";
   "value_comment"].

Definition schema_keys : list string :=
  ["type"; "items"; "length"; "pattern"; "dynamic_keys"; "__key__";
   "__value__"; "properties"].

(** The shape of what [getJsonParam] returns. *)
Definition shape (p : dict) : Prop :=
  wf p /\ keys_within param_keys p
  /\ forall v, Dict.lookup "schema" p = Some v ->
               exists s, v = PDict s /\ wf s /\ keys_within schema_keys s.

(** The entries of the schema of a parameter object, if it has one. *)
Definition schema_of (p : dict) : dict :=
  match Dict.lookup "schema" p with
  | Some s => items_of s
  | None => []
  end.

(** A parameter object [p] as a property of a dict schema: its
    description is the [title], its name is dropped, and the entries of
    its schema stand beside its other keys. *)
Definition is_property (p prop : dict) : Prop :=
  Dict.lookup "title" prop
  = Some (match Dict.lookup "description" p with
          | Some t => t
          | None => PStr ""
          end)
  /\ forall k,
      key_eqb "title" k = false ->
      Dict.lookup k prop
      = if key_eqb "name" k || key_eqb "description" k || key_eqb "schema" k
        then None
        else match Dict.lookup k p with
             | Some v => Some v
             | None => Dict.lookup k (schema_of p)
             end.

(** A parameter object [p] with its schema merged into it, as an entry
    of the [params] of a dict item. *)
Definition is_flattened (p q : dict) : Prop :=
  forall k,
    Dict.lookup k q
    = if key_eqb "schema" k then None
      else match Dict.lookup k p with
           | Some v => Some v
           | None => Dict.lookup k (schema_of p)
           end.

(** The property that the loops of [setDictParamsSchema] and
    [getJsonMethod] build from a parameter object. *)
Definition property_of (p : dict) : dict :=
  Dict.update
    (Dict.update
       [(KStr "title", match Dict.lookup "description" p with
                       | Some t => t
                       | None => PStr ""
                       end)]
       (schema_of p))
    (Dict.remove "schema" (Dict.remove "description" (Dict.remove "name" p))).

Definition name_key (p : dict) : pykey :=
  match Dict.lookup "name" p with
  | Some (PStr n) => KStr n
  | _ => KNone
  end.

(** A [<choice>] child whose [type] is neither empty, nor [int], nor
    [str]. *)
Definition odd_choice_type (choiceElem : Element) : bool :=
  truthy (get choiceElem "type")
  && negb (is_str (get choiceElem "type") "int")
  && negb (is_str (get choiceElem "type") "str").

Definition has_auth_type (method : Element) : bool :=
  match get method "auth_type" with
  | Some _ => true
  | None => false
  end.

(** The file that a run which ends writes for a [<handler>] child: none
    when the handler has no name or one of its methods no [auth_type]. *)
Definition handler_file (fuel : nat) (branch outDir : string) (h : Element)
  : list event :=
  if truthy (get h "name")
     && forallb has_auth_type (filter is_method (getchildren h))
  then [WriteFile
          (PyStr.join (PyStr.join outDir branch)
                      (get_or h "name" "" ++ ".json")%string)
          (document branch (get_or h "name" "")
             (flat_map (method_descriptor fuel branch (get_or h "name" ""))
                       (filter is_method (getchildren h))))]
  else [].

(** The number of commas of a string. *)
Fixpoint commas (s : string) : nat :=
  match s with
  | EmptyString => 0
  | String c s' => if Ascii.eqb c "," then S (commas s') else commas s'
  end.
(** * Properties *)

(** ** Computations *)

Arguments bind : simpl never.

Section Computations.

Context {E A B : Type}.

Lemma bind_ret_l (a : A) (f : A -> W E B) : bind (ret a) f = f a.
Proof. unfold bind, ret. now destruct (f a). Qed.

Lemma bind_Ret (m : W E A) (f : A -> W E B) t a :
  m = (t, Ret a) -> bind m f = (t ++ events (f a), result (f a)).
Proof. intros ->. unfold bind. now destruct (f a). Qed.

Lemma bind_Raise (m : W E A) (f : A -> W E B) t e :
  m = (t, Raise e) -> bind m f = (t, Raise e).
Proof. now intros ->. Qed.

Lemma bind_NoFuel (m : W E A) (f : A -> W E B) t :
  m = (t, NoFuel) -> bind m f = (t, NoFuel).
Proof. now intros ->. Qed.

Lemma bind_inv_Ret (m : W E A) (f : A -> W E B) t b :
  bind m f = (t, Ret b) ->
  exists t1 a t2, m = (t1, Ret a) /\ f a = (t2, Ret b) /\ t = t1 ++ t2.
Proof.
  unfold bind. destruct m as [t1 [a|e|]]; try discriminate.
  destruct (f a) as [t2 r] eqn:Ef. intros [= <- ->].
  now exists t1, a, t2.
Qed.

Lemma bind_events_prefix (m : W E A) (f : A -> W E B) :
  exists t, events (bind m f) = events m ++ t.
Proof.
  unfold bind. destruct m as [t1 [a|e|]]; simpl.
  - destruct (f a) as [t2 r]. now exists t2.
  - exists []. now rewrite app_nil_r.
  - exists []. now rewrite app_nil_r.
Qed.

End Computations.

Lemma bind_assoc {E A B C} (m : W E A) (f : A -> W E B) (g : B -> W E C) :
  bind (bind m f) g = bind m (fun x => bind (f x) g).
Proof.
  unfold bind.
  destruct m as [t [a|e|]]; auto.
  destruct (f a) as [t1 [b|e|]]; auto.
  destruct (g b) as [t2 r]. now rewrite app_assoc.
Qed.

Lemma bind_ret_r {E A} (m : W E A) : bind m ret = m.
Proof.
  unfold bind, ret.
  destruct m as [t [a|e|]]; auto. now rewrite app_nil_r.
Qed.

Lemma bind_ext {E A B} (m : W E A) (f g : A -> W E B) :
  (forall a, f a = g a) -> bind m f = bind m g.
Proof.
  intros H. unfold bind. destruct m as [t [a|e|]]; auto. now rewrite H.
Qed.

Lemma surjective_W {E A} (m : W E A) : m = (events m, result m).
Proof. now destruct m. Qed.

(** ** Dictionaries *)

Lemma key_eqb_refl k : key_eqb k k = true.
Proof. destruct k; simpl; auto using String.eqb_refl, Z.eqb_refl. Qed.

Lemma key_eqb_eq k k' : key_eqb k k' = true -> k = k'.
Proof.
  destruct k, k'; simpl; try discriminate; auto.
  - intros H. apply String.eqb_eq in H. now subst.
  - intros H. apply Z.eqb_eq in H. now subst.
Qed.

Lemma lookup_set_eq k v d : Dict.lookup k (Dict.set k v d) = Some v.
Proof.
  induction d as [|[k' v'] d IH]; simpl.
  - now rewrite key_eqb_refl.
  - destruct (key_eqb k' k) eqn:Ek; simpl; rewrite Ek; auto.
Qed.

Lemma lookup_set_neq k k' v d :
  key_eqb k' k = false -> Dict.lookup k (Dict.set k' v d) = Dict.lookup k d.
Proof.
  intros Hk. induction d as [|[k0 v0] d IH]; simpl.
  - now rewrite Hk.
  - destruct (key_eqb k0 k') eqn:E0; simpl.
    + apply key_eqb_eq in E0. subst k0. now rewrite Hk.
    + now rewrite IH.
Qed.

Lemma lookup_remove_neq k k' d :
  key_eqb k' k = false -> Dict.lookup k (Dict.remove k' d) = Dict.lookup k d.
Proof.
  intros Hk. induction d as [|[k0 v0] d IH]; simpl; auto.
  destruct (key_eqb k0 k') eqn:E0; simpl.
  - apply key_eqb_eq in E0. subst k0. now rewrite Hk.
  - now rewrite IH.
Qed.

Lemma mem_set_neq k k' v d :
  key_eqb k' k = false -> Dict.mem k (Dict.set k' v d) = Dict.mem k d.
Proof. intros Hk. unfold Dict.mem. now rewrite lookup_set_neq. Qed.

Lemma mem_set_eq k v d : Dict.mem k (Dict.set k v d) = true.
Proof. unfold Dict.mem. now rewrite lookup_set_eq. Qed.

Lemma set_not_nil k v d : Dict.set k v d <> [].
Proof. destruct d as [|[k' v'] d]; simpl; [|destruct (key_eqb k' k)]; discriminate. Qed.

(** [addParamExtraAttrs] only touches [required] and [default]. *)
Lemma lookup_addParamExtraAttrs param k d :
  key_eqb "required" k = false -> key_eqb "default" k = false ->
  Dict.lookup k (addParamExtraAttrs param d) = Dict.lookup k d.
Proof.
  intros Hr Hd. unfold addParamExtraAttrs.
  destruct (get param "default"); [|destruct (truthy _)];
    now rewrite ?lookup_set_neq.
Qed.

(** ** The type-mapping table *)

Lemma table_get_In k t v : table_get k t = Some v -> In (k, v) t.
Proof.
  induction t as [|[k' v'] t IH]; simpl; [discriminate|].
  destruct (table_get k t) as [w|].
  - intros [= <-]. right. now apply IH.
  - destruct (String.eqb_spec k' k) as [->|]; [|discriminate].
    intros [= <-]. now left.
Qed.

Lemma choice_not_in_table : table_get "choice" paramTypeMapping = None.
Proof. reflexivity. Qed.

Lemma truthy_Some s : s <> "" -> truthy (Some s) = true.
Proof. intros H. simpl. now destruct (String.eqb_spec s ""). Qed.

Lemma is_str_Some_neq s t : s <> t -> is_str (Some s) t = false.
Proof. intros H. simpl. now destruct (String.eqb_spec s t). Qed.

(** ** [getJsonParam] on a parameter with a mapped type and no value *)

(** What [getJsonParam] does once [type] is found in the table and the
    element carries no (non-empty) [value]. *)
Lemma getJsonParam_typed branch fuel param t entry :
  get param "type" = Some t ->
  table_get t paramTypeMapping = Some entry ->
  truthy (get param "value") = false ->
  getJsonParam branch (S fuel) param =
    (schema <- (if array_in (type entry)
                then getListSchema branch (getJsonParam branch fuel) param
                                   (of_type (type entry))
                else ret [(KStr "type", of_type (type entry))]) ;;
     schema <- (if negb (pattern entry =? "")
                then ret (Dict.set "pattern" (PStr (pattern entry)) schema)
                else if t =? "dict"
                     then setDictParamsSchema branch (getJsonParam branch fuel)
                                              param schema
                     else ret schema) ;;
     ret (Some (addParamExtraAttrs param
                  (Dict.update
                     (if truthy (get param "name")
                      then [(KStr "name", of_opt (get param "name"))] else [])
                     [(KStr "description",
                        PStr (if negb (comment entry =? "")
                              then (comment entry ++ ", "
                                      ++ get_or param "comment" "")%string
                              else get_or param "comment" ""));
                      (KStr "schema", PDict schema)])))).
Proof.
  intros Ht Htab Hv.
  assert (Hne : t <> "").
  { intros ->. discriminate Htab. }
  assert (Hnc : t <> "choice").
  { intros ->. discriminate Htab. }
  simpl. unfold getJsonParam_body, get_or.
  rewrite Ht, Hv, (truthy_Some _ Hne), (is_str_Some_neq _ _ Hnc).
  unfold paramTypeMapping_getitem. rewrite Htab.
  simpl negb. unfold when. rewrite !bind_ret_l. reflexivity.
Qed.

(** ** The loops, one prefix at a time *)

Lemma getParams_loop_app branch self cs1 cs2 params :
  getParams_loop branch self (cs1 ++ cs2) params =
    (params' <- getParams_loop branch self cs1 params ;;
     getParams_loop branch self cs2 params').
Proof.
  revert params. induction cs1 as [|c cs1 IH]; intros params; simpl.
  - now rewrite bind_ret_l.
  - destruct (negb (tag c =? "param")); [apply IH|].
    destruct (negb (truthy (get c "name"))).
    + rewrite bind_assoc. apply bind_ext. intros _. apply IH.
    + rewrite bind_assoc. apply bind_ext. intros [j|]; apply IH.
Qed.

Lemma convertSubsystem_loop_app fuel branch hn cs1 cs2 methods :
  convertSubsystem_loop fuel branch hn (cs1 ++ cs2) methods =
    (r <- convertSubsystem_loop fuel branch hn cs1 methods ;;
     match r with
     | Some methods' => convertSubsystem_loop fuel branch hn cs2 methods'
     | None => ret None
     end).
Proof.
  revert methods. induction cs1 as [|c cs1 IH]; intros methods; simpl.
  - now rewrite bind_ret_l.
  - destruct (negb (tag c =? "method")); [apply IH|].
    destruct (get c "auth_type") as [a|].
    + rewrite !bind_assoc. apply bind_ext. intros auth.
      rewrite bind_assoc. apply bind_ext. intros [j|]; apply IH.
    + rewrite bind_assoc. apply bind_ext. intros _. now rewrite bind_ret_l.
Qed.

Lemma convert_loop_app fuel cs1 cs2 branch outDir :
  convert_loop fuel (cs1 ++ cs2) branch outDir =
    (convert_loop fuel cs1 branch outDir ;; convert_loop fuel cs2 branch outDir).
Proof.
  induction cs1 as [|c cs1 IH]; simpl.
  - now rewrite bind_ret_l.
  - destruct (negb (tag c =? "handler")); [apply IH|].
    rewrite bind_assoc. apply bind_ext. intros _. apply IH.
Qed.

(** ** Scalar parameters *)

Lemma scalar_entry_not_array t entry T :
  table_get t paramTypeMapping = Some entry ->
  scalar_entry entry T ->
  array_in (type entry) = false /\ t <> "dict".
Proof.
  intros Htab (HT & Ha & Ho).
  apply table_get_In in Htab. unfold paramTypeMapping in Htab.
  simpl in Htab.
  repeat (destruct Htab as [Htab|Htab];
          [injection Htab as <- <-; simpl in HT;
           first [ discriminate HT
                 | injection HT as <-;
                   first [ congruence | split; [reflexivity|discriminate] ] ]
          |]).
  contradiction.
Qed.

(** C1.  A [<param>] whose [type] attribute is a key of the table mapped
    to a single scalar JSON type, and which carries no [value] attribute,
    is converted to an object whose [schema.type] is the mapped type, and
    whose schema has a [pattern] key exactly when the table entry declares
    a pattern. *)
Theorem getJsonParam_scalar_schema :
  forall branch fuel param t entry T,
    get param "type" = Some t -> t <> "" ->
    table_get t paramTypeMapping = Some entry ->
    scalar_entry entry T ->
    get param "value" = None ->
    exists obj schema,
      getJsonParam branch (S fuel) param = ([], Ret (Some obj)) /\
      Dict.lookup "schema" obj = Some (PDict schema) /\
      Dict.lookup "type" schema = Some (PStr T) /\
      (Dict.mem "pattern" schema = true <-> pattern entry <> "").
Proof.
  intros branch fuel param t entry T Ht _ Htab Hsc Hv.
  destruct (scalar_entry_not_array _ _ _ Htab Hsc) as [Harr Hnd].
  destruct Hsc as (HT & _ & _).
  rewrite (getJsonParam_typed _ _ _ _ _ Ht Htab) by now rewrite Hv.
  rewrite Harr, bind_ret_l, HT. simpl of_type.
  destruct (String.eqb_spec t "dict") as [|_]; [contradiction|].
  destruct (String.eqb_spec (pattern entry) "") as [Hp|Hp];
    simpl negb; cbv iota; rewrite bind_ret_l; eexists _, _;
    (split; [reflexivity|]);
    (split; [rewrite lookup_addParamExtraAttrs by reflexivity;
             apply lookup_set_eq|]);
    (split; [reflexivity|]); simpl.
  - split; [discriminate|congruence].
  - split; auto.
Qed.

Lemma getJsonParam_scalar_schema_witness :
  exists obj schema,
    getJsonParam "main" 1 (mkElement "param" [("name", "n"); ("type", "str_int")] [])
      = ([], Ret (Some obj)) /\
    Dict.lookup "schema" obj = Some (PDict schema) /\
    Dict.lookup "type" schema = Some (PStr "string") /\
    (Dict.mem "pattern" schema = true <-> "^[0-9]+$" <> "").
Proof.
  apply (getJsonParam_scalar_schema "main" 0
           (mkElement "param" [("name", "n"); ("type", "str_int")] [])
           "str_int" (mkParamType (One "string") "" "^[0-9]+$") "string").
  - reflexivity.
  - discriminate.
  - reflexivity.
  - repeat split; discriminate.
  - reflexivity.
Defined.

(** ** Unknown type tags *)

Lemma getJsonParam_unknown_type branch fuel param t :
  get param "type" = Some t ->
  t <> "" -> t <> "choice" -> table_get t paramTypeMapping = None ->
  getJsonParam branch (S fuel) param = ([], Raise (KeyError t)).
Proof.
  intros Ht Hne Hnc Htab.
  simpl. unfold getJsonParam_body, get_or.
  rewrite Ht, (truthy_Some _ Hne), (is_str_Some_neq _ _ Hnc).
  unfold paramTypeMapping_getitem. rewrite Htab.
  simpl negb. unfold when. now rewrite bind_ret_l.
Qed.

(** [getJsonMethod] on a method that passes the checks on its own shape. *)
Lemma getJsonMethod_wellformed branch fuel handlerName method authTypes
      inputElem outputElem :
  tag method = "method" -> truthy (get method "name") = true ->
  find method "input" = Some inputElem ->
  find method "output" = Some outputElem ->
  getJsonMethod branch fuel handlerName method authTypes =
    (params <- getParams branch (getJsonParam branch fuel) inputElem ;;
     getJsonMethod_output branch fuel method outputElem
       (jsonMethod_head handlerName method authTypes params)).
Proof.
  intros Htag Hname Hin Hout.
  unfold getJsonMethod. now rewrite Htag, Hname, Hin, Hout.
Qed.

Lemma getJsonMethod_output_unknown_type branch fuel method outputElem jsonMethod t :
  get outputElem "type" = Some t ->
  t <> "" -> t <> "choice" -> table_get t paramTypeMapping = None ->
  getJsonMethod_output branch fuel method outputElem jsonMethod
    = ([], Raise (KeyError t)).
Proof.
  intros Ht Hne Hnc Htab.
  unfold getJsonMethod_output, getJsonMethod_resolve, get_or.
  rewrite Ht, (truthy_Some _ Hne), (is_str_Some_neq _ _ Hnc).
  unfold paramTypeMapping_getitem. rewrite Htab.
  simpl negb. cbv iota.
  now destruct (truthy (get outputElem "value")).
Qed.

Lemma convertSubsystem_loop_method fuel branch hn method cs methods a :
  tag method = "method" -> get method "auth_type" = Some a ->
  convertSubsystem_loop fuel branch hn (method :: cs) methods =
    (authTypes <- authTypes_of a ;;
     jsonMethod <- getJsonMethod branch fuel hn method authTypes ;;
     match jsonMethod with
     | None => convertSubsystem_loop fuel branch hn cs methods
     | Some jsonMethod =>
         convertSubsystem_loop fuel branch hn cs (methods ++ [jsonMethod])
     end).
Proof. intros Htag Ha. simpl. now rewrite Htag, Ha. Qed.

(** The access levels are always computed: only diagnostics can happen. *)
Lemma authTypes_of_returns a :
  exists tr authTypes, authTypes_of a = (tr, Ret authTypes).
Proof.
  unfold authTypes_of. destruct (negb (a =? "")); [|now eexists _, _].
  generalize (map PyStr.strip (PyStr.split_comma a)) at 1 as l.
  generalize (map PyStr.strip (PyStr.split_comma a)) as l0.
  intros l0 l.
  assert (H : exists tr, check_auth_types l a = (tr, Ret tt)).
  { induction l as [|x l [tr IH]]; simpl; [now eexists|].
    rewrite IH. unfold when.
    destruct (negb (known_auth_type x)); unfold bind, print, ret; simpl;
      now eexists. }
  destruct H as [tr ->]. unfold bind, ret. simpl. now eexists _, _.
Qed.

(** An exception raised while a method is converted ends the run: the
    handler's file is not written and no later handler is looked at. *)
Lemma method_exception_ends_run fuel branch outDir e
      hs0 h hs1 ms0 m ms1 a tr0 tr1 methods tra authTypes trm :
  convert_loop fuel hs0 branch outDir = (tr0, Ret tt) ->
  tag h = "handler" -> truthy (get h "name") = true ->
  getchildren h = ms0 ++ m :: ms1 ->
  convertSubsystem_loop fuel branch (get_or h "name" "") ms0 []
    = (tr1, Ret (Some methods)) ->
  tag m = "method" -> get m "auth_type" = Some a ->
  authTypes_of a = (tra, Ret authTypes) ->
  getJsonMethod branch fuel (get_or h "name" "") m authTypes = (trm, Raise e) ->
  convert_loop fuel (hs0 ++ h :: hs1) branch outDir =
    (tr0 ++ Makedirs (PyStr.join outDir branch) :: map Stdout (tr1 ++ tra ++ trm),
     Raise e).
Proof.
  intros Hhs0 Hh Hname Hch Hms0 Hm Ha Hauth Hraise.
  rewrite convert_loop_app, (bind_Ret _ _ _ _ Hhs0).
  simpl convert_loop. rewrite Hh. simpl negb. cbv iota.
  unfold convertSubsystem. rewrite Hname, Hch. simpl negb. cbv iota.
  rewrite convertSubsystem_loop_app, (bind_Ret _ _ _ _ Hms0).
  rewrite (convertSubsystem_loop_method _ _ _ _ _ _ _ Hm Ha).
  rewrite (bind_Ret _ _ _ _ Hauth), (bind_Raise _ _ _ _ Hraise).
  unfold events, result, lift, makedirs, bind. simpl.
  now rewrite !map_app.
Qed.

(** C2.  A [type] attribute that is not empty, is not ["choice"] and is no
    key of the table makes the unguarded lookup raise [KeyError]: in
    [getJsonParam] for a [<param>], in [getJsonMethod] for an [<output>].
    No diagnostic is printed for it and the node is not skipped.  The
    exception reaches [getJsonMethod] from a parameter of [<input>], and
    from there it ends the run: the handler's file is not written and
    the handlers after it are not converted. *)
Theorem unknown_type_raises_KeyError :
  forall branch fuel t,
    t <> "" -> t <> "choice" -> table_get t paramTypeMapping = None ->
    (forall param,
        get param "type" = Some t ->
        getJsonParam branch (S fuel) param = ([], Raise (KeyError t)))
    /\
    (forall handlerName method authTypes inputElem outputElem tr params,
        tag method = "method" -> truthy (get method "name") = true ->
        find method "input" = Some inputElem ->
        find method "output" = Some outputElem ->
        get outputElem "type" = Some t ->
        getParams branch (getJsonParam branch fuel) inputElem = (tr, Ret params) ->
        getJsonMethod branch fuel handlerName method authTypes
          = (tr, Raise (KeyError t)))
    /\
    (forall handlerName method authTypes inputElem outputElem ps0 param ps1 tr params,
        tag method = "method" -> truthy (get method "name") = true ->
        find method "input" = Some inputElem ->
        find method "output" = Some outputElem ->
        getchildren inputElem = ps0 ++ param :: ps1 ->
        getParams_loop branch (getJsonParam branch (S fuel)) ps0 []
          = (tr, Ret params) ->
        tag param = "param" -> truthy (get param "name") = true ->
        get param "type" = Some t ->
        getJsonMethod branch (S fuel) handlerName method authTypes
          = (tr, Raise (KeyError t)))
    /\
    (forall outDir hs0 h hs1 ms0 m ms1 a tr0 tr1 methods tra authTypes trm,
        convert_loop fuel hs0 branch outDir = (tr0, Ret tt) ->
        tag h = "handler" -> truthy (get h "name") = true ->
        getchildren h = ms0 ++ m :: ms1 ->
        convertSubsystem_loop fuel branch (get_or h "name" "") ms0 []
          = (tr1, Ret (Some methods)) ->
        tag m = "method" -> get m "auth_type" = Some a ->
        authTypes_of a = (tra, Ret authTypes) ->
        getJsonMethod branch fuel (get_or h "name" "") m authTypes
          = (trm, Raise (KeyError t)) ->
        convert_loop fuel (hs0 ++ h :: hs1) branch outDir =
          (tr0 ++ Makedirs (PyStr.join outDir branch)
               :: map Stdout (tr1 ++ tra ++ trm),
           Raise (KeyError t))).
Proof.
  intros branch fuel t Hne Hnc Htab. repeat split.
  - intros param Ht. now apply getJsonParam_unknown_type.
  - intros hn method auth inp out tr params Htag Hname Hin Hout Ht Hps.
    rewrite (getJsonMethod_wellformed _ _ _ _ _ _ _ Htag Hname Hin Hout).
    rewrite (bind_Ret _ _ _ _ Hps).
    rewrite (getJsonMethod_output_unknown_type _ _ _ _ _ _ Ht Hne Hnc Htab).
    simpl. now rewrite app_nil_r.
  - intros hn method auth inp out ps0 param ps1 tr params
           Htag Hname Hin Hout Hch Hps0 Hp Hpn Ht.
    rewrite (getJsonMethod_wellformed _ _ _ _ _ _ _ Htag Hname Hin Hout).
    unfold getParams. rewrite Hch, getParams_loop_app.
    rewrite (bind_Ret _ _ _ _ Hps0). cbn [getParams_loop].
    rewrite Hp, Hpn. simpl negb. cbv iota.
    rewrite (getJsonParam_unknown_type _ _ _ _ Ht Hne Hnc Htab).
    unfold bind. simpl. now rewrite app_nil_r.
  - intros. eapply method_exception_ends_run; eauto.
Qed.

(** ** The handler writer *)

Lemma writes_app evs1 evs2 : writes (evs1 ++ evs2) = writes evs1 ++ writes evs2.
Proof. apply filter_app. Qed.

Lemma writes_Print ds : writes (map Stdout ds) = [].
Proof. induction ds; simpl; auto. Qed.

(** What a handler without a usable name does: one diagnostic. *)
Lemma convertSubsystem_unnamed fuel h branch outDir :
  truthy (get h "name") = false ->
  convertSubsystem fuel h branch outDir = ([Stdout HandlerNoName], Ret tt).
Proof. intros Hn. unfold convertSubsystem. now rewrite Hn. Qed.

(** What a named handler does, from the outcome of its method loop. *)
Lemma convertSubsystem_named fuel h branch outDir tr r :
  truthy (get h "name") = true ->
  convertSubsystem_loop fuel branch (get_or h "name" "") (getchildren h) []
    = (tr, r) ->
  convertSubsystem fuel h branch outDir =
    (Makedirs (PyStr.join outDir branch)
       :: map Stdout tr
       ++ match r with
          | Ret (Some methods) =>
              [WriteFile (PyStr.join (PyStr.join outDir branch)
                                     (get_or h "name" "" ++ ".json")%string)
                         (document branch (get_or h "name" "") methods)]
          | _ => []
          end,
     match r with
     | Ret _ => Ret tt
     | Raise e => Raise e
     | NoFuel => NoFuel
     end).
Proof.
  intros Hn Hloop. unfold convertSubsystem. rewrite Hn, Hloop.
  simpl negb. cbv iota.
  unfold bind, lift, makedirs, write_file, ret. simpl.
  destruct r as [[methods|]|e|]; simpl; now rewrite ?app_nil_r.
Qed.

(** The method loop stops at a method without [auth_type]. *)
Lemma convertSubsystem_loop_no_auth_type fuel branch hn m cs methods :
  tag m = "method" -> get m "auth_type" = None ->
  convertSubsystem_loop fuel branch hn (m :: cs) methods
    = ([NoAuthType branch m], Ret None).
Proof. intros Htag Ha. simpl. now rewrite Htag, Ha. Qed.

Lemma convertSubsystem_loop_aborted fuel branch hn ms0 m ms1 methods0 :
  tag m = "method" -> get m "auth_type" = None ->
  forall methods,
    result (convertSubsystem_loop fuel branch hn (ms0 ++ m :: ms1) methods0)
      <> Ret (Some methods).
Proof.
  intros Htag Ha methods.
  rewrite convertSubsystem_loop_app.
  destruct (convertSubsystem_loop fuel branch hn ms0 methods0)
    as [tr [[acc|]|e|]].
  - rewrite (bind_Ret _ _ _ _ eq_refl).
    rewrite (convertSubsystem_loop_no_auth_type _ _ _ _ _ _ Htag Ha).
    discriminate.
  - rewrite (bind_Ret _ _ _ _ eq_refl). discriminate.
  - rewrite (bind_Raise _ _ _ _ eq_refl). discriminate.
  - rewrite (bind_NoFuel _ _ _ eq_refl). discriminate.
Qed.

Lemma convertSubsystem_aborted_writes fuel branch outDir h ms0 m ms1 :
  getchildren h = ms0 ++ m :: ms1 ->
  tag m = "method" -> get m "auth_type" = None ->
  writes (events (convertSubsystem fuel h branch outDir)) = [].
Proof.
  intros Hch Htag Ha.
  destruct (truthy (get h "name")) eqn:Hn.
  - destruct (convertSubsystem_loop fuel branch (get_or h "name" "")
                (getchildren h) []) as [tr r] eqn:E.
    rewrite (convertSubsystem_named _ _ _ _ _ _ Hn E).
    unfold events. simpl. rewrite writes_app, writes_Print.
    destruct r as [[methods|]|e|]; auto.
    exfalso.
    apply (convertSubsystem_loop_aborted fuel branch (get_or h "name" "")
             ms0 m ms1 [] Htag Ha methods).
    rewrite <- Hch, E. reflexivity.
  - now rewrite convertSubsystem_unnamed.
Qed.

(** A handler that returns without writing leaves the run as it would be
    without it. *)
Lemma convert_loop_skip fuel branch outDir h hs0 hs1 :
  result (convertSubsystem fuel h branch outDir) = Ret tt ->
  writes (events (convertSubsystem fuel h branch outDir)) = [] ->
  result (convert_loop fuel (hs0 ++ h :: hs1) branch outDir)
    = result (convert_loop fuel (hs0 ++ hs1) branch outDir)
  /\ writes (events (convert_loop fuel (hs0 ++ h :: hs1) branch outDir))
     = writes (events (convert_loop fuel (hs0 ++ hs1) branch outDir)).
Proof.
  intros Hr Hw. rewrite !convert_loop_app.
  assert (Hc : convertSubsystem fuel h branch outDir
               = (events (convertSubsystem fuel h branch outDir), Ret tt)).
  { now rewrite <- Hr, <- surjective_W. }
  destruct (convert_loop fuel hs0 branch outDir) as [t0 [[]|e|]].
  - rewrite !(bind_Ret _ _ t0 tt eq_refl).
    cbn [convert_loop].
    destruct (negb (tag h =? "handler")); [auto|].
    rewrite (bind_Ret _ _ _ _ Hc).
    cbn [events result fst snd]. split; [reflexivity|].
    now rewrite !writes_app, Hw.
  - rewrite !(bind_Raise _ _ t0 e eq_refl). auto.
  - rewrite !(bind_NoFuel _ _ t0 eq_refl). auto.
Qed.

(** C3.  A handler with a [<method>] child that has no [auth_type]
    attribute writes no file at all, whatever was converted before that
    method.  Unless an earlier method of the handler ended the run with an
    exception, the handler returns normally, and the run over the document
    ends as, and writes the files that, it would without this handler. *)
Theorem missing_auth_type_aborts_handler :
  forall fuel branch outDir h ms0 m ms1,
    getchildren h = ms0 ++ m :: ms1 ->
    tag m = "method" -> get m "auth_type" = None ->
    writes (events (convertSubsystem fuel h branch outDir)) = []
    /\
    (forall tr r,
        convertSubsystem_loop fuel branch (get_or h "name" "") ms0 [] = (tr, Ret r) ->
        result (convertSubsystem fuel h branch outDir) = Ret tt
        /\ forall hs0 hs1,
            result (convert_loop fuel (hs0 ++ h :: hs1) branch outDir)
              = result (convert_loop fuel (hs0 ++ hs1) branch outDir)
            /\ writes (events (convert_loop fuel (hs0 ++ h :: hs1) branch outDir))
               = writes (events (convert_loop fuel (hs0 ++ hs1) branch outDir))).
Proof.
  intros fuel branch outDir h ms0 m ms1 Hch Htag Ha.
  pose proof (convertSubsystem_aborted_writes fuel branch outDir h ms0 m ms1
                Hch Htag Ha) as Hw.
  split; [exact Hw|].
  intros tr r Hms0.
  assert (Hr : result (convertSubsystem fuel h branch outDir) = Ret tt).
  { destruct (truthy (get h "name")) eqn:Hn.
    - destruct (convertSubsystem_loop fuel branch (get_or h "name" "")
                  (getchildren h) []) as [tr' r'] eqn:E.
      rewrite (convertSubsystem_named _ _ _ _ _ _ Hn E).
      rewrite Hch, convertSubsystem_loop_app, (bind_Ret _ _ _ _ Hms0) in E.
      destruct r as [methods|].
      + rewrite (convertSubsystem_loop_no_auth_type _ _ _ _ _ _ Htag Ha) in E.
        injection E as _ <-. reflexivity.
      + injection E as _ <-. reflexivity.
    - now rewrite convertSubsystem_unnamed. }
  split; [exact Hr|].
  intros hs0 hs1. now apply convert_loop_skip.
Qed.

(** ** A method whose output has neither a type nor a value *)

Lemma getJsonMethod_output_untyped branch fuel method outputElem jsonMethod :
  truthy (get outputElem "type") = false ->
  truthy (get outputElem "value") = false ->
  getJsonMethod_output branch fuel method outputElem jsonMethod
    = ([NoOutputTypeNorValue branch method], Ret None).
Proof.
  intros Ht Hv. unfold getJsonMethod_output. now rewrite Ht, Hv.
Qed.

Lemma getJsonMethod_untyped_output branch fuel hn method authTypes outputElem trm r :
  find method "output" = Some outputElem ->
  truthy (get outputElem "type") = false ->
  truthy (get outputElem "value") = false ->
  getJsonMethod branch fuel hn method authTypes = (trm, Ret r) ->
  r = None
  /\ (tag method = "method" -> truthy (get method "name") = true ->
      forall inputElem, find method "input" = Some inputElem ->
      exists params,
        getParams branch (getJsonParam branch fuel) inputElem
          = (removelast trm, Ret params)
        /\ trm = removelast trm ++ [NoOutputTypeNorValue branch method]).
Proof.
  intros Hout Ht Hv. unfold getJsonMethod. rewrite Hout.
  destruct (negb (tag method =? "method")) eqn:Htag.
  { intros [= <- <-]. split; [reflexivity|].
    intros Htag'. rewrite Htag' in Htag. discriminate. }
  destruct (negb (truthy (get method "name"))) eqn:Hn.
  { intros [= <- <-]. split; [reflexivity|].
    intros _ Hn'. rewrite Hn' in Hn. discriminate. }
  destruct (find method "input") as [inputElem|].
  2:{ intros [= <- <-]. split; [reflexivity|]. intros _ _ i. discriminate. }
  intros H. apply bind_inv_Ret in H.
  destruct H as (t1 & params & t2 & Hps & Hk & ->).
  rewrite getJsonMethod_output_untyped in Hk by assumption.
  injection Hk as <- <-. split; [reflexivity|].
  intros _ _ i [= <-]. exists params.
  rewrite removelast_last. auto.
Qed.

Lemma convertSubsystem_result_writes fuel h h' branch outDir :
  attrib h' = attrib h ->
  result (convertSubsystem_loop fuel branch (get_or h "name" "") (getchildren h) [])
  = result (convertSubsystem_loop fuel branch (get_or h "name" "") (getchildren h') []) ->
  result (convertSubsystem fuel h branch outDir)
    = result (convertSubsystem fuel h' branch outDir)
  /\ writes (events (convertSubsystem fuel h branch outDir))
     = writes (events (convertSubsystem fuel h' branch outDir)).
Proof.
  intros Hattr Hres.
  assert (Hget : forall k, get h' k = get h k).
  { intros k. unfold get. now rewrite Hattr. }
  assert (Hname : get_or h' "name" "" = get_or h "name" "").
  { unfold get_or. now rewrite Hget. }
  destruct (truthy (get h "name")) eqn:Hn.
  - assert (Hn' : truthy (get h' "name") = true) by now rewrite Hget.
    rewrite (convertSubsystem_named fuel h branch outDir _ _ Hn (surjective_W _)).
    rewrite (convertSubsystem_named fuel h' branch outDir _ _ Hn' (surjective_W _)).
    rewrite Hname, <- Hres.
    cbn [events result fst snd]. split; [reflexivity|].
    cbn [writes filter is_write]. now rewrite !filter_app, !writes_Print.
  - assert (Hn' : truthy (get h' "name") = false) by now rewrite Hget.
    now rewrite !convertSubsystem_unnamed.
Qed.

(** C4, as the code has it.  A [<method>] whose [<output>] has neither a
    [type] nor a [value] attribute is skipped on its own: [getJsonMethod]
    prints the diagnostic and returns [None], the method loop goes on with
    the methods that follow, and the handler ends as, and writes the file
    that, it would without this method. *)
Theorem untyped_output_skips_only_its_method :
  forall fuel branch hn m out a tra authTypes trm r,
    tag m = "method" -> get m "auth_type" = Some a ->
    find m "output" = Some out ->
    get out "type" = None -> get out "value" = None ->
    authTypes_of a = (tra, Ret authTypes) ->
    getJsonMethod branch fuel hn m authTypes = (trm, Ret r) ->
    r = None
    /\ (truthy (get m "name") = true ->
        forall inputElem, find m "input" = Some inputElem ->
          trm = removelast trm ++ [NoOutputTypeNorValue branch m])
    /\ (forall cs methods,
          convertSubsystem_loop fuel branch hn (m :: cs) methods =
            (tra ++ trm ++ events (convertSubsystem_loop fuel branch hn cs methods),
             result (convertSubsystem_loop fuel branch hn cs methods)))
    /\ (forall outDir h h' ms0 ms1,
          hn = get_or h "name" "" -> attrib h' = attrib h ->
          getchildren h = ms0 ++ m :: ms1 -> getchildren h' = ms0 ++ ms1 ->
          result (convertSubsystem fuel h branch outDir)
            = result (convertSubsystem fuel h' branch outDir)
          /\ writes (events (convertSubsystem fuel h branch outDir))
             = writes (events (convertSubsystem fuel h' branch outDir))).
Proof.
  intros fuel branch hn m out a tra authTypes trm r
         Htag Ha Hout Ht Hv Hauth Hm.
  assert (Ht' : truthy (get out "type") = false) by now rewrite Ht.
  assert (Hv' : truthy (get out "value") = false) by now rewrite Hv.
  destruct (getJsonMethod_untyped_output _ _ _ _ _ _ _ _ Hout Ht' Hv' Hm)
    as [-> Hdiag].
  assert (Hloop : forall cs methods,
             convertSubsystem_loop fuel branch hn (m :: cs) methods =
               (tra ++ trm ++ events (convertSubsystem_loop fuel branch hn cs methods),
                result (convertSubsystem_loop fuel branch hn cs methods))).
  { intros cs methods.
    rewrite (convertSubsystem_loop_method _ _ _ _ _ _ _ Htag Ha).
    rewrite (bind_Ret _ _ _ _ Hauth), (bind_Ret _ _ _ _ Hm).
    cbn [events result fst snd]. reflexivity. }
  split; [reflexivity|]. split; [|split; [exact Hloop|]].
  - intros Hn i Hi. destruct (Hdiag Htag Hn i Hi) as (params & _ & H). exact H.
  - intros outDir h h' ms0 ms1 -> Hattr Hch Hch'.
    apply convertSubsystem_result_writes; [exact Hattr|].
    rewrite Hch, Hch', !convertSubsystem_loop_app.
    destruct (convertSubsystem_loop fuel branch (get_or h "name" "") ms0 [])
      as [t0 [[acc|]|e|]].
    + rewrite !(bind_Ret _ _ t0 (Some acc) eq_refl), Hloop. reflexivity.
    + reflexivity.
    + reflexivity.
    + reflexivity.
Qed.

(** ** The result object *)

Lemma resultValues_loop_returns cs acc :
  exists tr vs, resultValues_loop cs acc = (tr, Ret vs).
Proof.
  revert acc. induction cs as [|c cs IH]; intros acc; simpl.
  - now eexists _, _.
  - destruct (negb (tag c =? "choice")).
    + destruct (IH acc) as (tr & vs & ->). unfold bind, print. simpl.
      now eexists _, _.
    + destruct (negb (truthy (get c "value"))).
      * destruct (IH acc) as (tr & vs & ->). unfold bind, print. simpl.
        now eexists _, _.
      * apply IH.
Qed.

Lemma result_object_enum c rt rv rp :
  Dict.lookup "enum" (result_object c rt rv rp) = option_map PList rv.
Proof.
  unfold result_object. destruct rv as [vs|]; simpl option_map.
  - apply lookup_set_eq.
  - destruct (type_bool (type rt)); [rewrite lookup_set_neq|]; reflexivity.
Qed.

Lemma result_object_schema c rt rv rp :
  Dict.lookup "schema" (result_object c rt rv rp) =
    if type_bool (type rt)
    then Some (PDict (match rp with
                      | [] => [(KStr "title", PStr ""); (KStr "type", of_type (type rt))]
                      | _ => Dict.set "properties" (PDict rp)
                               [(KStr "title", PStr ""); (KStr "type", of_type (type rt))]
                      end))
    else None.
Proof.
  unfold result_object.
  destruct rv as [vs|]; rewrite ?lookup_set_neq by reflexivity;
    (destruct (type_bool (type rt)); [apply lookup_set_eq|reflexivity]).
Qed.

(** What the output resolution has found when it returns a descriptor. *)
Lemma getJsonMethod_output_inv branch fuel method outputElem jsonMethod tr d :
  getJsonMethod_output branch fuel method outputElem jsonMethod = (tr, Ret (Some d)) ->
  exists resultType resultValues resultParams,
    d = Dict.set "result"
          (PDict (result_object (get_or outputElem "comment" "")
                                resultType resultValues resultParams))
          jsonMethod
    /\ (is_str (get outputElem "type") "choice" = true ->
        resultType = ParamType0
        /\ exists trv vs,
            resultValues_loop (getchildren outputElem) [] = (trv, Ret vs)
            /\ resultValues = Some vs)
    /\ (is_str (get outputElem "type") "choice" = false ->
        resultValues = (if truthy (get outputElem "value")
                        then Some [of_opt (get outputElem "value")] else None)
        /\ (if truthy (get outputElem "type")
            then table_get (get_or outputElem "type" "") paramTypeMapping
                 = Some resultType
            else resultType = ParamType0 /\ truthy (get outputElem "value") = true)).
Proof.
  assert (Hres : forall rv0 t,
             getJsonMethod_resolve branch fuel outputElem jsonMethod rv0
               = (t, Ret (Some d)) ->
             exists resultType resultValues resultParams,
               d = Dict.set "result"
                     (PDict (result_object (get_or outputElem "comment" "")
                               resultType resultValues resultParams))
                     jsonMethod
               /\ (is_str (get outputElem "type") "choice" = true ->
                   resultType = ParamType0
                   /\ exists trv vs,
                       resultValues_loop (getchildren outputElem) [] = (trv, Ret vs)
                       /\ resultValues = Some vs)
               /\ (is_str (get outputElem "type") "choice" = false ->
                   resultValues = rv0
                   /\ (if truthy (get outputElem "type")
                       then table_get (get_or outputElem "type" "") paramTypeMapping
                            = Some resultType
                       else resultType = ParamType0))).
  { intros rv0 t H. unfold getJsonMethod_resolve in H.
    apply bind_inv_Ret in H. destruct H as (t1 & [rv rt] & t2 & H1 & H2 & _).
    apply bind_inv_Ret in H2. destruct H2 as (t3 & rp & t4 & _ & H3 & _).
    injection H3 as _ <-.
    exists rt, rv, rp. split; [reflexivity|].
    destruct (is_str (get outputElem "type") "choice").
    - split; [|discriminate]. intros _.
      destruct (resultValues_loop_returns (getchildren outputElem) [])
        as (trv & vs & Hvs).
      rewrite Hvs in H1. rewrite (bind_Ret _ _ _ _ eq_refl) in H1.
      injection H1 as _ <- <-. split; [reflexivity|]. now exists trv, vs.
    - split; [discriminate|]. intros _.
      destruct (truthy (get outputElem "type")).
      + apply bind_inv_Ret in H1. destruct H1 as (t5 & rt' & t6 & Hg & Hr & _).
        injection Hr as _ <- <-. split; [reflexivity|].
        unfold paramTypeMapping_getitem in Hg.
        destruct (table_get _ _); [|discriminate].
        now injection Hg as _ <-.
      + injection H1 as _ <- <-. split; reflexivity. }
  unfold getJsonMethod_output.
  destruct (truthy (get outputElem "value")).
  - intros H. apply Hres in H.
    destruct H as (rt & rv & rp & Hd & Hc & Hn).
    exists rt, rv, rp. split; [exact Hd|]. split; [exact Hc|].
    intros Hch. destruct (Hn Hch) as [Hrv Hrt]. split; [exact Hrv|].
    destruct (truthy (get outputElem "type")); [exact Hrt|now split].
  - destruct (truthy (get outputElem "type")) eqn:Ety; simpl negb; cbv iota.
    + intros H. apply Hres in H.
      destruct H as (rt & rv & rp & Hd & Hc & Hn).
      exists rt, rv, rp. split; [exact Hd|]. split; [exact Hc|].
      intros Hch. destruct (Hn Hch) as [Hrv Hrt]. split; [exact Hrv|].
      exact Hrt.
    + intros H. apply bind_inv_Ret in H.
      destruct H as (? & ? & ? & _ & H & _). discriminate.
Qed.

Lemma getJsonMethod_inv branch fuel hn method authTypes tr d :
  getJsonMethod branch fuel hn method authTypes = (tr, Ret (Some d)) ->
  tag method = "method" /\ truthy (get method "name") = true
  /\ exists inputElem outputElem trp params tro,
      find method "input" = Some inputElem
      /\ find method "output" = Some outputElem
      /\ getParams branch (getJsonParam branch fuel) inputElem = (trp, Ret params)
      /\ getJsonMethod_output branch fuel method outputElem
            (jsonMethod_head hn method authTypes params) = (tro, Ret (Some d))
      /\ tr = trp ++ tro.
Proof.
  unfold getJsonMethod.
  destruct (String.eqb_spec (tag method) "method") as [Htag|]; simpl negb;
    cbv iota; [|discriminate].
  destruct (truthy (get method "name")); simpl negb; cbv iota.
  2:{ intros H. apply bind_inv_Ret in H.
      destruct H as (? & ? & ? & _ & H & _). discriminate. }
  destruct (find method "input") as [inputElem|].
  2:{ intros H. apply bind_inv_Ret in H.
      destruct H as (? & ? & ? & _ & H & _). discriminate. }
  destruct (find method "output") as [outputElem|].
  2:{ intros H. apply bind_inv_Ret in H.
      destruct H as (? & ? & ? & _ & H & _). discriminate. }
  intros H. apply bind_inv_Ret in H.
  destruct H as (trp & params & tro & Hp & Ho & ->).
  split; [exact Htag|]. split; [reflexivity|].
  now exists inputElem, outputElem, trp, params, tro.
Qed.

(** C5, as the code has it.  The result of a converted method holds an
    enumeration and a typed schema that are resolved independently of each
    other.  The [enum] is the list collected from the [<choice>] children
    when [type="choice"], even if a [value] attribute is present; otherwise
    it is the single literal [value], when there is one.  The [schema] is
    there when the [type] attribute is not empty, is not ["choice"] and is
    mapped by the table to a JSON type that is not empty, whether or not
    there is a [value] attribute.  So a [value] together with such a type
    yields both keys. *)
Theorem output_resolution_enum_and_schema :
  forall branch fuel hn method authTypes tr d,
    getJsonMethod branch fuel hn method authTypes = (tr, Ret (Some d)) ->
    exists outputElem result,
      find method "output" = Some outputElem
      /\ Dict.lookup "result" d = Some (PDict result)
      /\ (is_str (get outputElem "type") "choice" = true ->
          (exists trv vs,
              resultValues_loop (getchildren outputElem) [] = (trv, Ret vs)
              /\ Dict.lookup "enum" result = Some (PList vs))
          /\ Dict.lookup "schema" result = None)
      /\ (is_str (get outputElem "type") "choice" = false ->
          Dict.lookup "enum" result
            = (if truthy (get outputElem "value")
               then Some (PList [of_opt (get outputElem "value")]) else None)
          /\ if truthy (get outputElem "type")
             then exists entry,
                 table_get (get_or outputElem "type" "") paramTypeMapping
                   = Some entry
                 /\ if type_bool (type entry)
                    then exists schema,
                        Dict.lookup "schema" result = Some (PDict schema)
                        /\ Dict.lookup "type" schema = Some (of_type (type entry))
                    else Dict.lookup "schema" result = None
             else Dict.lookup "schema" result = None
                  /\ truthy (get outputElem "value") = true).
Proof.
  intros branch fuel hn method authTypes tr d H.
  apply getJsonMethod_inv in H.
  destruct H as (_ & _ & inp & out & trp & params & tro & _ & Hout & _ & Ho & _).
  apply getJsonMethod_output_inv in Ho.
  destruct Ho as (rt & rv & rp & -> & Hc & Hn).
  exists out, (result_object (get_or out "comment" "") rt rv rp).
  split; [exact Hout|]. split; [apply lookup_set_eq|].
  rewrite result_object_enum, result_object_schema. split.
  - intros Hch. destruct (Hc Hch) as (-> & trv & vs & Hvs & ->).
    split; [now exists trv, vs|reflexivity].
  - intros Hch. destruct (Hn Hch) as (-> & Hrt). split.
    + now destruct (truthy (get out "value")).
    + destruct (truthy (get out "type")).
      * exists rt. split; [exact Hrt|].
        destruct (type_bool (type rt)); [|reflexivity].
        eexists. split; [reflexivity|].
        destruct rp; [reflexivity|].
        rewrite lookup_set_neq by reflexivity. reflexivity.
      * destruct Hrt as [-> Hv]. split; [reflexivity|exact Hv].
Qed.


(** ** Choice parameters *)

Lemma getChoiceJsonParam_loop_spec cs :
  Forall choice_ok cs ->
  forall values comments default,
  exists tr,
    getChoiceJsonParam_loop cs values comments default =
      (tr, Ret (Some
         (values ++ map choice_value cs,
          fold_left (fun cm c =>
                       if truthy (get c "comment")
                       then Dict.set (choice_value c) (of_opt (get c "comment")) cm
                       else cm) cs comments,
          fold_left (fun d c =>
                       if truthy (get c "default") then Some (choice_value c)
                       else d) cs default))).
Proof.
  induction 1 as [|c cs (Htag & value & Hv & Hint) _ IH];
    intros values comments default.
  - exists []. simpl. now rewrite app_nil_r.
  - cbn [getChoiceJsonParam_loop]. rewrite Htag, Hv. simpl negb. cbv iota.
    assert (Hval : exists tr,
               (if truthy (get c "type")
                then if is_str (get c "type") "int"
                     then match PyStr.int value with
                          | Some z => ret (KInt z)
                          | None => raise (ValueError value)
                          end
                     else if is_str (get c "type") "str" then ret (KStr value)
                          else print (InvalidChoiceValue c) ;; ret (KStr value)
                else ret (KStr value))
               = (tr, Ret (choice_value c)) :> M pykey).
    { unfold choice_value. rewrite Hv.
      destruct (get c "type") as [ty|] eqn:Ety; [|now exists []].
      cbn [is_str truthy].
      destruct (String.eqb_spec ty "int") as [->|Hni].
      - simpl. specialize (Hint eq_refl).
        destruct (PyStr.int value); [now exists []|congruence].
      - destruct (negb (ty =? "")); [|now exists []].
        destruct (ty =? "str"); [now exists []|].
        now exists [InvalidChoiceValue c]. }
    destruct Hval as [trv Hval]. rewrite (bind_Ret _ _ _ _ Hval).
    destruct (IH (values ++ [choice_value c])
                 (if truthy (get c "comment")
                  then Dict.set (choice_value c) (of_opt (get c "comment")) comments
                  else comments)
                 (if truthy (get c "default") then Some (choice_value c)
                  else default)) as [tr Htr].
    rewrite Htr. exists (trv ++ tr). cbn [events result fst snd map fold_left].
    now rewrite <- app_assoc.
Qed.

Lemma find_app {A} (p : A -> bool) l1 l2 :
  List.find p (l1 ++ l2) =
    match List.find p l1 with
    | Some x => Some x
    | None => List.find p l2
    end.
Proof. induction l1 as [|a l1 IH]; simpl; auto. now destruct (p a). Qed.

Lemma fold_default_marked cs default :
  fold_left (fun d c =>
               if truthy (get c "default") then Some (choice_value c) else d)
            cs default
  = match marked_default cs with
    | Some c => Some (choice_value c)
    | None => default
    end.
Proof.
  unfold marked_default. revert default.
  induction cs as [|c cs IH]; intros default; simpl; auto.
  rewrite IH, find_app. simpl.
  destruct (List.find _ (rev cs)); auto.
  now destruct (truthy (get c "default")).
Qed.

Lemma fold_comments_nil cs comments :
  match fold_left (fun cm c =>
                     if truthy (get c "comment")
                     then Dict.set (choice_value c) (of_opt (get c "comment")) cm
                     else cm) cs comments with
  | [] => false
  | _ => true
  end
  = match comments with [] => false | _ => true end
    || existsb (fun c => truthy (get c "comment")) cs.
Proof.
  revert comments. induction cs as [|c cs IH]; intros comments; simpl.
  - now rewrite orb_false_r.
  - rewrite IH. destruct (truthy (get c "comment")); simpl.
    + pose proof (set_not_nil (choice_value c) (of_opt (get c "comment")) comments).
      destruct (Dict.set _ _ comments); [congruence|].
      simpl. now rewrite orb_true_r.
    + reflexivity.
Qed.

(** The object that [getChoiceJsonParam] builds after its loop. *)
Lemma getChoiceJsonParam_object param :
  Forall choice_ok (getchildren param) ->
  exists tr obj,
    getChoiceJsonParam param = (tr, Ret (Some obj))
    /\ Dict.lookup "enum" obj
       = Some (PList (map (fun c => of_key (choice_value c)) (getchildren param)))
    /\ Dict.lookup "default" obj
       = option_map (fun c => coerce_default (choice_value c))
                    (marked_default (getchildren param))
    /\ Dict.mem "value_comment" obj
       = existsb (fun c => truthy (get c "comment")) (getchildren param).
Proof.
  intros Hok.
  destruct (getChoiceJsonParam_loop_spec _ Hok [] [] None) as [tr Hloop].
  unfold getChoiceJsonParam. rewrite (bind_Ret _ _ _ _ Hloop).
  rewrite fold_default_marked.
  pose proof (fold_comments_nil (getchildren param) []) as Hcm.
  cbn [app orb] in Hcm. cbn [app]. rewrite <- Hcm. clear Hcm Hloop.
  match goal with
  | |- context [fold_left ?f (getchildren param) []] =>
      generalize (fold_left f (getchildren param) [])
  end.
  intros comments.
  assert (Hw : exists trw,
             when (match map choice_value (getchildren param) with
                   | [] => true | _ => false end)
                  (print (ChoiceNoValues param)) = (trw, Ret tt)).
  { unfold when. destruct (map choice_value (getchildren param)); now eexists. }
  destruct Hw as [trw Hw]. rewrite (bind_Ret _ _ _ _ Hw).
  unfold ret. cbn [events result fst snd]. eexists _, _.
  split; [reflexivity|].
  rewrite map_map.
  destruct (truthy (get param "name")), (get param "comment"),
    (marked_default (getchildren param)), comments;
    cbn [option_map]; repeat split;
    unfold Dict.mem;
    repeat (rewrite lookup_set_neq by reflexivity);
    rewrite ?lookup_set_eq; reflexivity.
Qed.

(** C6, as the code has it.  For a [<param type="choice">] whose children
    are all [<choice>] elements with a [value] that, where the child says
    [type="int"], reads as an integer: [getChoiceJsonParam] returns an
    object whose [enum] lists the values of the children in document
    order, one entry per child, read as integers where [type="int"]; its
    [default] is the coerced value of the last child with a non-empty
    [default] attribute, and is absent when there is none; it has a
    [value_comment] key exactly when some child has a non-empty [comment].
    The coercion turns ["true"] and ["false"] into booleans, any other
    string into an integer when [int] accepts it, and keeps it otherwise.
    Values [a], [b] with [a] marked as the default give the enumeration
    [a, b], the default [a] and no [value_comment]. *)
Theorem getChoiceJsonParam_enum_default_comments :
  (forall param,
      Forall choice_ok (getchildren param) ->
      exists tr obj,
        getChoiceJsonParam param = (tr, Ret (Some obj))
        /\ Dict.lookup "enum" obj
           = Some (PList (map (fun c => of_key (choice_value c))
                              (getchildren param)))
        /\ Dict.lookup "default" obj
           = option_map (fun c => coerce_default (choice_value c))
                        (marked_default (getchildren param))
        /\ Dict.mem "value_comment" obj
           = existsb (fun c => truthy (get c "comment")) (getchildren param))
  /\ (forall s,
         coerce_default (KStr s) =
           if s =? "true" then PBool true
           else if s =? "false" then PBool false
           else match PyStr.int s with
                | Some z => PInt z
                | None => PStr s
                end)
  /\ (forall z, coerce_default (KInt z) = PInt z)
  /\ (forall attrs marker,
         marker <> "" ->
         exists tr obj,
           getChoiceJsonParam
             (mkElement "param" attrs
                [mkElement "choice" [("value", "a"); ("default", marker)] [];
                 mkElement "choice" [("value", "b")] []])
             = (tr, Ret (Some obj))
           /\ Dict.lookup "enum" obj = Some (PList [PStr "a"; PStr "b"])
           /\ Dict.lookup "default" obj = Some (PStr "a")
           /\ Dict.mem "value_comment" obj = false).
Proof.
  split; [exact getChoiceJsonParam_object|].
  split.
  { intros s. unfold coerce_default.
    destruct (s =? "true") eqn:Et; [reflexivity|].
    destruct (s =? "false"); reflexivity. }
  split; [reflexivity|].
  intros attrs marker Hm.
  destruct (getChoiceJsonParam_object
              (mkElement "param" attrs
                 [mkElement "choice" [("value", "a"); ("default", marker)] [];
                  mkElement "choice" [("value", "b")] []]))
    as (tr & obj & Hret & Henum & Hdef & Hcm).
  { cbn [getchildren]. constructor; [|constructor; [|constructor]].
    - split; [reflexivity|]. exists "a". split; [reflexivity|discriminate].
    - split; [reflexivity|]. exists "b". split; [reflexivity|discriminate]. }
  exists tr, obj. split; [exact Hret|]. split; [exact Henum|].
  split; [|exact Hcm].
  rewrite Hdef. unfold marked_default. cbn [getchildren rev app List.find].
  replace (truthy (get (mkElement "choice" [("value", "b")] []) "default"))
    with false by reflexivity.
  replace (truthy (get (mkElement "choice" [("value", "a"); ("default", marker)] [])
                       "default")) with true.
  - reflexivity.
  - symmetry. exact (truthy_Some _ Hm).
Qed.

(** ** Names of the emitted parameters *)

Lemma getChoiceJsonParam_name param tr obj n :
  getChoiceJsonParam param = (tr, Ret (Some obj)) ->
  get param "name" = Some n -> n <> "" ->
  Dict.lookup "name" obj = Some (PStr n).
Proof.
  intros H Hn Hne. unfold getChoiceJsonParam in H.
  apply bind_inv_Ret in H. destruct H as (t1 & r & t2 & _ & H & _).
  destruct r as [[[values comments] default]|]; [|discriminate].
  apply bind_inv_Ret in H. destruct H as (t3 & [] & t4 & _ & H & _).
  injection H as _ <-.
  rewrite Hn, (truthy_Some _ Hne).
  destruct (get param "comment"), default, comments; cbn [of_opt];
    repeat (rewrite lookup_set_neq by reflexivity); reflexivity.
Qed.

Lemma getJsonParam_name branch fuel param tr obj n :
  getJsonParam branch fuel param = (tr, Ret (Some obj)) ->
  get param "name" = Some n -> n <> "" ->
  Dict.lookup "name" obj = Some (PStr n).
Proof.
  intros H Hn Hne. destruct fuel as [|fuel]; [discriminate|].
  cbn [getJsonParam] in H. unfold getJsonParam_body in H.
  apply bind_inv_Ret in H. destruct H as (t1 & [] & t2 & _ & H & _).
  destruct (is_str (get param "type") "choice").
  { eapply getChoiceJsonParam_name; eauto. }
  apply bind_inv_Ret in H. destruct H as (t3 & newType & t4 & _ & H & _).
  destruct (truthy (get param "value")).
  - injection H as _ <-.
    rewrite lookup_addParamExtraAttrs by reflexivity. now rewrite Hn.
  - apply bind_inv_Ret in H. destruct H as (t5 & schema & t6 & _ & H & _).
    apply bind_inv_Ret in H. destruct H as (t7 & schema' & t8 & _ & H & _).
    injection H as _ <-.
    rewrite lookup_addParamExtraAttrs by reflexivity.
    rewrite Hn, (truthy_Some _ Hne). reflexivity.
Qed.

Lemma getParams_loop_names branch fuel cs :
  forall params tr ps,
    Forall has_name params ->
    getParams_loop branch (getJsonParam branch fuel) cs params = (tr, Ret ps) ->
    Forall has_name ps.
Proof.
  induction cs as [|c cs IH]; intros params tr ps Hps H; cbn [getParams_loop] in H.
  - now injection H as _ <-.
  - destruct (negb (tag c =? "param")); [eauto|].
    destruct (truthy (get c "name")) eqn:Hn; simpl negb in H; cbv iota in H.
    + apply bind_inv_Ret in H. destruct H as (t1 & j & t2 & Hj & H & _).
      destruct j as [j|]; [|eauto].
      eapply IH; [|exact H].
      apply Forall_app. split; [exact Hps|]. constructor; [|constructor].
      destruct (get c "name") as [n|] eqn:En; [|discriminate].
      exists n. split.
      * intros ->. discriminate.
      * eapply getJsonParam_name; eauto. intros ->. discriminate.
    + apply bind_inv_Ret in H. destruct H as (t1 & [] & t2 & _ & H & _). eauto.
Qed.

Lemma getParams_names branch fuel elem tr ps :
  getParams branch (getJsonParam branch fuel) elem = (tr, Ret ps) ->
  Forall has_name ps.
Proof. intros H. eapply getParams_loop_names; [constructor|exact H]. Qed.

(** The property loop of a dict never fails on named sub-parameters. *)
Lemma setDictParamsSchema_loop_returns subParams :
  Forall has_name subParams ->
  forall properties,
  exists properties',
    setDictParamsSchema_loop subParams properties = ([], Ret properties').
Proof.
  induction 1 as [|d ds (n & Hne & Hn) _ IH]; intros properties.
  - now eexists.
  - cbn [setDictParamsSchema_loop]. unfold pop, Dict.mem.
    rewrite Hn, bind_ret_l. cbv beta iota.
    destruct (Dict.lookup "description" (Dict.remove "name" d));
      rewrite bind_ret_l; cbv beta iota;
      (match goal with
       | |- context [Dict.lookup (KStr "schema") ?d1] =>
           destruct (Dict.lookup (KStr "schema") d1)
       end);
      rewrite ?bind_ret_l; cbv beta iota; rewrite ?bind_ret_l; cbv beta iota;
      cbn [key_of]; rewrite bind_ret_l; apply IH.
Qed.

(** ** Dict parameters with dynamic keys *)

Lemma dict_entry : table_get "dict" paramTypeMapping = Some (mkParamType (One "object") "" "").
Proof. reflexivity. Qed.

Lemma int_entry : table_get "int" paramTypeMapping = Some (mkParamType (One "number") "" "").
Proof. reflexivity. Qed.

(** [getJsonParam] on a [dict] parameter, from what [setDynamicKeys] does
    to the schema. *)
Lemma getJsonParam_dict_dynamic branch fuel param trp params trd schema :
  get param "type" = Some "dict" ->
  get param "dynamic_keys" = Some "true" ->
  get param "value" = None ->
  getParams branch (getJsonParam branch fuel) param = (trp, Ret params) ->
  setDynamicKeys (getJsonParam branch fuel) param [(KStr "type", PStr "object")]
    = (trd, Ret schema) ->
  exists obj properties,
    getJsonParam branch (S fuel) param = (trp ++ trd, Ret (Some obj))
    /\ Dict.lookup "schema" obj
       = Some (PDict (Dict.set "properties" (PDict properties) schema)).
Proof.
  intros Ht Hdk Hv Hps Hdyn.
  rewrite (getJsonParam_typed _ _ _ _ _ Ht dict_entry) by now rewrite Hv.
  cbn [type pattern comment].
  replace (array_in (One "object")) with false by reflexivity.
  replace ("dict" =? "dict") with true by reflexivity.
  replace ("" =? "") with true by reflexivity.
  cbn [negb of_type]. rewrite bind_ret_l.
  unfold setDictParamsSchema.
  rewrite bind_assoc, (bind_Ret _ _ _ _ Hps).
  destruct (setDictParamsSchema_loop_returns params (getParams_names _ _ _ _ _ Hps) [])
    as [properties Hprops].
  rewrite bind_assoc, (bind_Ret _ _ _ _ Hprops).
  rewrite Hdk. cbn [is_str]. replace ("true" =? "true") with true by reflexivity.
  rewrite bind_assoc, (bind_Ret _ _ _ _ Hdyn).
  rewrite !bind_ret_l. cbn [events result fst snd app].
  rewrite app_nil_r.
  eexists _, properties. split; [reflexivity|].
  rewrite lookup_addParamExtraAttrs by reflexivity.
  unfold Dict.update. cbn [fold_left fst snd]. apply lookup_set_eq.
Qed.

(** The object built for a parameter of a scalar type without a pattern. *)
Lemma getJsonParam_int branch fuel param :
  get param "type" = Some "int" ->
  truthy (get param "value") = false ->
  exists obj,
    getJsonParam branch (S fuel) param = ([], Ret (Some obj))
    /\ Dict.lookup "schema" obj = Some (PDict [(KStr "type", PStr "number")]).
Proof.
  intros Ht Hv.
  rewrite (getJsonParam_typed _ _ _ _ _ Ht int_entry Hv).
  cbn [type pattern comment].
  replace (array_in (One "number")) with false by reflexivity.
  replace ("int" =? "dict") with false by reflexivity.
  replace ("" =? "") with true by reflexivity.
  cbn [negb of_type]. rewrite !bind_ret_l.
  eexists. split; [reflexivity|].
  rewrite lookup_addParamExtraAttrs by reflexivity.
  unfold Dict.update. cbn [fold_left fst snd]. apply lookup_set_eq.
Qed.

Lemma setDynamicKeys_key_value self param schema key value trv valueJson :
  find param "key" = Some key -> find param "value" = Some value ->
  self value = (trv, Ret (Some valueJson)) ->
  setDynamicKeys self param schema =
    (trv,
     Ret (Dict.set "__value__" (PDict (flatten_schema valueJson))
            (Dict.set "__key__"
               (PDict [(KStr "type", PStr (get_or key "type" ""));
                       (KStr "title", PStr (get_or key "comment" ""))])
               (Dict.set "dynamic_keys" (PBool true) schema)))).
Proof.
  intros Hk Hv Hself. unfold setDynamicKeys. rewrite Hk, Hv.
  rewrite (bind_Ret _ _ _ _ Hself). unfold ret.
  cbn [events result fst snd]. now rewrite app_nil_r.
Qed.

Lemma setDynamicKeys_key_only self param schema key :
  find param "key" = Some key -> find param "value" = None ->
  setDynamicKeys self param schema =
    ([KeyWithoutValue param], Ret (Dict.set "dynamic_keys" (PBool true) schema)).
Proof. intros Hk Hv. unfold setDynamicKeys. now rewrite Hk, Hv. Qed.

(** C7.  A [<param type="dict" dynamic_keys="true">] (with no [value]
    attribute of its own) whose sub-parameters are converted.  With
    [<key type="str" comment=k/>] and [<value type="int"/>] the emitted
    schema has [dynamic_keys] true, [__key__] equal to
    [{"type": "str", "title": k}] and a [__value__] object whose [type] is
    ["number"], the JSON type the table maps [int] to.  With a [<key>] and
    no [<value>], the diagnostic is printed, the schema has [dynamic_keys]
    true and neither [__key__] nor [__value__], and the parameter is
    converted all the same. *)
Theorem dict_dynamic_keys_schema :
  forall branch fuel param trp params,
    get param "type" = Some "dict" ->
    get param "dynamic_keys" = Some "true" ->
    get param "value" = None ->
    getParams branch (getJsonParam branch (S fuel)) param = (trp, Ret params) ->
    (forall key value k,
        find param "key" = Some key ->
        get key "type" = Some "str" -> get key "comment" = Some k ->
        find param "value" = Some value ->
        get value "type" = Some "int" -> get value "value" = None ->
        exists obj schema valueJson,
          getJsonParam branch (S (S fuel)) param = (trp, Ret (Some obj))
          /\ Dict.lookup "schema" obj = Some (PDict schema)
          /\ Dict.lookup "dynamic_keys" schema = Some (PBool true)
          /\ Dict.lookup "__key__" schema
             = Some (PDict [(KStr "type", PStr "str"); (KStr "title", PStr k)])
          /\ Dict.lookup "__value__" schema = Some (PDict valueJson)
          /\ Dict.lookup "type" valueJson = Some (PStr "number")
          /\ option_map type (table_get "int" paramTypeMapping)
             = Some (One "number"))
    /\
    (forall key,
        find param "key" = Some key -> find param "value" = None ->
        exists obj schema,
          getJsonParam branch (S (S fuel)) param
            = (trp ++ [KeyWithoutValue param], Ret (Some obj))
          /\ Dict.lookup "schema" obj = Some (PDict schema)
          /\ Dict.lookup "dynamic_keys" schema = Some (PBool true)
          /\ Dict.mem "__key__" schema = false
          /\ Dict.mem "__value__" schema = false).
Proof.
  intros branch fuel param trp params Ht Hdk Hv Hps. split.
  - intros key value k Hkey Hkt Hkc Hval Hvt Hvv.
    destruct (getJsonParam_int branch fuel value Hvt) as (objv & Hobjv & Hschv).
    { now rewrite Hvv. }
    pose proof (setDynamicKeys_key_value (getJsonParam branch (S fuel)) param
                  [(KStr "type", PStr "object")] key value [] objv
                  Hkey Hval Hobjv) as Hdyn.
    destruct (getJsonParam_dict_dynamic _ _ _ _ _ _ _ Ht Hdk Hv Hps Hdyn)
      as (obj & properties & Hobj & Hsch).
    rewrite app_nil_r in Hobj.
    eexists obj, _, _. split; [exact Hobj|]. split; [exact Hsch|].
    unfold get_or. rewrite Hkt, Hkc.
    repeat split; repeat (rewrite lookup_set_neq by reflexivity);
      try apply lookup_set_eq; try reflexivity.
    unfold flatten_schema. rewrite Hschv.
    unfold Dict.update, items_of. cbn [fold_left fst snd]. apply lookup_set_eq.
  - intros key Hkey Hval.
    pose proof (setDynamicKeys_key_only (getJsonParam branch (S fuel)) param
                  [(KStr "type", PStr "object")] key Hkey Hval) as Hdyn.
    destruct (getJsonParam_dict_dynamic _ _ _ _ _ _ _ Ht Hdk Hv Hps Hdyn)
      as (obj & properties & Hobj & Hsch).
    eexists obj, _. split; [exact Hobj|]. split; [exact Hsch|].
    repeat split; reflexivity.
Qed.

(** ** List parameters *)

Lemma list_entry : table_get "list" paramTypeMapping = Some (mkParamType (One "array") "" "").
Proof. reflexivity. Qed.

Lemma length_condition elem :
  truthy (get elem "length") && negb (is_str (get elem "length") "-1")
  = match length_entry elem with Some _ => true | None => false end.
Proof.
  unfold length_entry. destruct (get elem "length") as [l|]; [|reflexivity].
  cbn [truthy is_str]. destruct (l =? ""), (l =? "-1"); reflexivity.
Qed.

Lemma length_value elem v :
  length_entry elem = Some v -> of_opt (get elem "length") = v.
Proof.
  unfold length_entry. destruct (get elem "length") as [l|]; [|discriminate].
  destruct ((l =? "") || (l =? "-1")); [discriminate|]. now intros [= <-].
Qed.

Lemma getListSchema_length branch self elem newType tr schema :
  getListSchema branch self elem newType = (tr, Ret schema) ->
  Dict.lookup "length" schema = length_entry elem.
Proof.
  unfold getListSchema. intros H.
  apply bind_inv_Ret in H. destruct H as (t1 & schema1 & t2 & H1 & H2 & _).
  assert (Hs1 : Dict.lookup "length" schema1 = None).
  { destruct (findall elem "item") as [|item0 items].
    - now injection H1 as _ <-.
    - apply bind_inv_Ret in H1. destruct H1 as (t3 & itemSchema & t4 & _ & H1 & _).
      injection H1 as _ <-. now destruct (py_bool itemSchema). }
  rewrite length_condition in H2. injection H2 as _ <-.
  destruct (length_entry elem) as [v|] eqn:E; [|exact Hs1].
  rewrite (length_value _ _ E). apply lookup_set_eq.
Qed.

Lemma getListItemSchema_plain branch self item T :
  get item "type" = Some T -> T <> "" -> T <> "choice" -> T <> "dict" ->
  getListItemSchema branch self item =
    ret (Some [(KStr "title", PStr (get_or item "comment" ""));
               (KStr "type", PStr T)]).
Proof.
  intros Ht Hne Hnc Hnd. unfold getListItemSchema.
  now rewrite Ht, (truthy_Some _ Hne), (is_str_Some_neq _ _ Hnc),
    (is_str_Some_neq _ _ Hnd).
Qed.

Lemma getListSchema_single_plain branch self elem newType item T :
  findall elem "item" = [item] ->
  get item "type" = Some T -> T <> "" -> T <> "choice" -> T <> "dict" ->
  getListSchema branch self elem newType =
    ([], Ret ([(KStr "type", newType);
               (KStr "items",
                 PDict [(KStr "title", PStr (get_or item "comment" ""));
                        (KStr "type", PStr T)])]
              ++ match length_entry elem with
                 | Some v => [(KStr "length", v)]
                 | None => []
                 end)).
Proof.
  intros Hitems Ht Hne Hnc Hnd. unfold getListSchema.
  rewrite Hitems. cbn [List.length Nat.ltb Nat.leb].
  rewrite (getListItemSchema_plain _ _ _ _ Ht Hne Hnc Hnd).
  rewrite !bind_ret_l. cbn [py_bool].
  rewrite length_condition.
  destruct (length_entry elem) as [v|] eqn:E; [|reflexivity].
  now rewrite (length_value _ _ E).
Qed.

Lemma getJsonParam_list_single_plain branch fuel param item T :
  get param "type" = Some "list" -> get param "value" = None ->
  findall param "item" = [item] ->
  get item "type" = Some T -> T <> "" -> T <> "choice" -> T <> "dict" ->
  exists obj,
    getJsonParam branch (S fuel) param = ([], Ret (Some obj))
    /\ Dict.lookup "schema" obj
       = Some (PDict ([(KStr "type", PStr "array");
                       (KStr "items",
                         PDict [(KStr "title", PStr (get_or item "comment" ""));
                                (KStr "type", PStr T)])]
                      ++ match length_entry param with
                         | Some v => [(KStr "length", v)]
                         | None => []
                         end)).
Proof.
  intros Ht Hv Hitems Hit Hne Hnc Hnd.
  rewrite (getJsonParam_typed _ _ _ _ _ Ht list_entry) by now rewrite Hv.
  cbn [type pattern comment].
  replace (array_in (One "array")) with true by reflexivity.
  replace ("list" =? "dict") with false by reflexivity.
  replace ("" =? "") with true by reflexivity.
  cbn [negb of_type].
  rewrite (getListSchema_single_plain _ _ _ _ _ _ Hitems Hit Hne Hnc Hnd).
  rewrite (bind_Ret _ _ _ _ eq_refl), bind_ret_l.
  cbn [events result fst snd app].
  eexists. split; [reflexivity|].
  rewrite lookup_addParamExtraAttrs by reflexivity.
  unfold Dict.update. cbn [fold_left fst snd]. apply lookup_set_eq.
Qed.

(** C8, as the code has it.  A [<param type="list">] (with no [value]
    attribute of its own) that has exactly one [<item>] child, of a type
    [T] that is not empty and is neither ["choice"] nor ["dict"], and no
    [length] attribute, is given the schema
    [{"type": "array", "items": {"title": comment or "", "type": T}}]: the
    type of the item is copied as it is written and there is no [length]
    key.  With a [length] attribute that is not empty, [length] is added
    to that schema as the string it is, unless it is ["-1"], in which case
    it is left out; this is so for every schema that [getListSchema]
    returns. *)
Theorem list_schema_items_and_length :
  (forall branch fuel param item T,
      get param "type" = Some "list" -> get param "value" = None ->
      findall param "item" = [item] ->
      get item "type" = Some T -> T <> "" -> T <> "choice" -> T <> "dict" ->
      get param "length" = None ->
      exists obj,
        getJsonParam branch (S fuel) param = ([], Ret (Some obj))
        /\ Dict.lookup "schema" obj
           = Some (PDict [(KStr "type", PStr "array");
                          (KStr "items",
                            PDict [(KStr "title", PStr (get_or item "comment" ""));
                                   (KStr "type", PStr T)])]))
  /\
  (forall branch fuel param item T l,
      get param "type" = Some "list" -> get param "value" = None ->
      findall param "item" = [item] ->
      get item "type" = Some T -> T <> "" -> T <> "choice" -> T <> "dict" ->
      get param "length" = Some l -> l <> "" ->
      exists obj,
        getJsonParam branch (S fuel) param = ([], Ret (Some obj))
        /\ Dict.lookup "schema" obj
           = Some (PDict ([(KStr "type", PStr "array");
                           (KStr "items",
                             PDict [(KStr "title", PStr (get_or item "comment" ""));
                                    (KStr "type", PStr T)])]
                          ++ if l =? "-1" then [] else [(KStr "length", PStr l)])))
  /\
  (forall branch self elem newType tr schema l,
      getListSchema branch self elem newType = (tr, Ret schema) ->
      get elem "length" = Some l -> l <> "" ->
      Dict.lookup "length" schema = if l =? "-1" then None else Some (PStr l)).
Proof.
  split; [|split].
  - intros branch fuel param item T Ht Hv Hitems Hit Hne Hnc Hnd Hlen.
    destruct (getJsonParam_list_single_plain branch fuel param item T
                Ht Hv Hitems Hit Hne Hnc Hnd) as (obj & Hobj & Hsch).
    exists obj. split; [exact Hobj|]. rewrite Hsch.
    unfold length_entry. now rewrite Hlen.
  - intros branch fuel param item T l Ht Hv Hitems Hit Hne Hnc Hnd Hlen Hl.
    destruct (getJsonParam_list_single_plain branch fuel param item T
                Ht Hv Hitems Hit Hne Hnc Hnd) as (obj & Hobj & Hsch).
    exists obj. split; [exact Hobj|]. rewrite Hsch.
    unfold length_entry. rewrite Hlen.
    destruct (String.eqb_spec l "") as [|_]; [contradiction|].
    cbn [orb]. now destruct (l =? "-1").
  - intros branch self elem newType tr schema l H Hlen Hl.
    rewrite (getListSchema_length _ _ _ _ _ _ H).
    unfold length_entry. rewrite Hlen.
    destruct (String.eqb_spec l "") as [|_]; [contradiction|]. reflexivity.
Qed.

(** ** The branch directory *)

Lemma fs_makedirs_In path fs : In path (dirs (fs_makedirs path fs)).
Proof.
  unfold fs_makedirs.
  destruct (existsb (fun d => d =? path) (dirs fs)) eqn:E.
  - apply existsb_exists in E. destruct E as (d & Hd & Heq).
    apply String.eqb_eq in Heq. now subst.
  - now left.
Qed.

Lemma fs_makedirs_exists path fs :
  In path (dirs fs) -> fs_makedirs path fs = fs.
Proof.
  intros Hin. unfold fs_makedirs.
  replace (existsb (fun d => d =? path) (dirs fs)) with true; [reflexivity|].
  symmetry. apply existsb_exists. exists path. split; [exact Hin|].
  apply String.eqb_refl.
Qed.

Lemma fs_run_dirs_Print ds fs : fs_run (map Stdout ds) fs = fs.
Proof. induction ds; simpl; auto. Qed.

Lemma fs_run_cons ev evs fs :
  fs_run (ev :: evs) fs = fs_run evs (fs_step fs ev).
Proof. reflexivity. Qed.

Lemma fs_run_app evs1 evs2 fs :
  fs_run (evs1 ++ evs2) fs = fs_run evs2 (fs_run evs1 fs).
Proof. apply fold_left_app. Qed.

(** C10.  For a handler with a non-empty [name], [convertSubsystem] first
    creates the directory [<outDir>/<branch>]: afterwards the directory is
    there, and nothing changes, and nothing is raised, if it was there
    before.  This is so too when a method without [auth_type] then makes
    the handler return without writing its file.  For a handler whose
    [name] is missing or empty there is the diagnostic and no file system
    effect. *)
Theorem convertSubsystem_branch_directory :
  forall fuel h branch outDir,
    (truthy (get h "name") = true ->
     (exists tr,
         events (convertSubsystem fuel h branch outDir)
           = Makedirs (PyStr.join outDir branch) :: tr
         /\ forall path, ~ In (Makedirs path) tr)
     /\ (forall fs,
            dirs (fs_run (events (convertSubsystem fuel h branch outDir)) fs)
              = dirs (fs_makedirs (PyStr.join outDir branch) fs)
            /\ In (PyStr.join outDir branch)
                  (dirs (fs_run (events (convertSubsystem fuel h branch outDir)) fs))
            /\ (In (PyStr.join outDir branch) (dirs fs) ->
                dirs (fs_run (events (convertSubsystem fuel h branch outDir)) fs)
                  = dirs fs))
     /\ (forall ms0 m ms1,
            getchildren h = ms0 ++ m :: ms1 ->
            tag m = "method" -> get m "auth_type" = None ->
            filter is_fs_event (events (convertSubsystem fuel h branch outDir))
              = [Makedirs (PyStr.join outDir branch)]))
    /\
    (truthy (get h "name") = false ->
     convertSubsystem fuel h branch outDir = ([Stdout HandlerNoName], Ret tt)
     /\ filter is_fs_event (events (convertSubsystem fuel h branch outDir)) = []).
Proof.
  intros fuel h branch outDir. split.
  - intros Hn.
    destruct (convertSubsystem_loop fuel branch (get_or h "name" "")
                (getchildren h) []) as [tr r] eqn:E.
    rewrite (convertSubsystem_named _ _ _ _ _ _ Hn E).
    cbn [events fst].
    assert (Hdirs : forall fs,
               dirs (fs_run
                       (Makedirs (PyStr.join outDir branch)
                          :: map Stdout tr
                          ++ match r with
                             | Ret (Some methods) =>
                                 [WriteFile
                                    (PyStr.join (PyStr.join outDir branch)
                                       (get_or h "name" "" ++ ".json")%string)
                                    (document branch (get_or h "name" "") methods)]
                             | _ => []
                             end) fs)
               = dirs (fs_makedirs (PyStr.join outDir branch) fs)).
    { intros fs. rewrite fs_run_cons, fs_run_app, fs_run_dirs_Print.
      cbn [fs_step].
      destruct r as [[methods|]|e|]; reflexivity. }
    split; [|split].
    + eexists. split; [reflexivity|].
      intros path Hin. apply in_app_or in Hin. destruct Hin as [Hin|Hin].
      * apply in_map_iff in Hin. destruct Hin as (d & Hd & _). discriminate.
      * destruct r as [[methods|]|e|]; simpl in Hin;
          try contradiction. destruct Hin as [Hin|[]]. discriminate.
    + intros fs. rewrite Hdirs. split; [reflexivity|]. split.
      * apply fs_makedirs_In.
      * intros Hin. now rewrite fs_makedirs_exists.
    + intros ms0 m ms1 Hch Htag Ha.
      cbn [filter is_fs_event]. f_equal.
      rewrite filter_app.
      assert (Hp : filter is_fs_event (map Stdout tr) = []).
      { clear. induction tr; simpl; auto. }
      rewrite Hp. cbn [app].
      destruct r as [[methods|]|e|]; try reflexivity.
      exfalso.
      apply (convertSubsystem_loop_aborted fuel branch (get_or h "name" "")
               ms0 m ms1 [] Htag Ha methods).
      rewrite <- Hch, E. reflexivity.
  - intros Hn. rewrite (convertSubsystem_unnamed _ _ _ _ Hn). split; reflexivity.
Qed.

(** ** Fuel *)

Lemma depth_children e c : In c (getchildren e) -> depth c < depth e.
Proof.
  destruct e as [t a cs]. cbn [getchildren depth].
  induction cs as [|c' cs IH]; intros Hin; [contradiction|].
  destruct Hin as [->|Hin].
  - lia.
  - specialize (IH Hin). lia.
Qed.

Lemma find_children e t c : find e t = Some c -> In c (getchildren e).
Proof. unfold find. intros H. now apply find_some in H. Qed.

Lemma findall_children e t c : In c (findall e t) -> In c (getchildren e).
Proof. unfold findall. intros H. now apply filter_In in H. Qed.

Section Extensionality.

Variable branch : string.
Variables self1 self2 : Element -> M (option dict).

Lemma getParams_loop_ext cs :
  (forall c, In c cs -> self1 c = self2 c) ->
  forall params,
    getParams_loop branch self1 cs params = getParams_loop branch self2 cs params.
Proof.
  induction cs as [|c cs IH]; intros H params; [reflexivity|].
  cbn [getParams_loop]. rewrite (H c) by now left.
  destruct (negb (tag c =? "param")); [apply IH; intros; apply H; now right|].
  destruct (negb (truthy (get c "name"))).
  - apply bind_ext. intros _. apply IH. intros; apply H; now right.
  - apply bind_ext. intros [j|]; apply IH; intros; apply H; now right.
Qed.

Lemma getParams_ext elem :
  (forall c, In c (getchildren elem) -> self1 c = self2 c) ->
  getParams branch self1 elem = getParams branch self2 elem.
Proof. intros H. unfold getParams. now apply getParams_loop_ext. Qed.

Lemma getListItemSchema_ext item :
  (forall c, In c (getchildren item) -> self1 c = self2 c) ->
  getListItemSchema branch self1 item = getListItemSchema branch self2 item.
Proof.
  intros H. unfold getListItemSchema. now rewrite (getParams_ext item H).
Qed.

Lemma getMultiTypeListItemSchema_loop_ext items :
  (forall item c, In item items -> In c (getchildren item) -> self1 c = self2 c) ->
  forall index result,
    getMultiTypeListItemSchema_loop branch self1 items index result
    = getMultiTypeListItemSchema_loop branch self2 items index result.
Proof.
  induction items as [|item items IH]; intros H index result; [reflexivity|].
  cbn [getMultiTypeListItemSchema_loop].
  rewrite (getListItemSchema_ext item) by (intros; eapply H; [now left|eauto]).
  apply bind_ext. intros [s|]; apply IH; intros; eapply H; eauto; now right.
Qed.

Lemma getListSchema_ext elem newType :
  (forall item c, In item (getchildren elem) -> In c (getchildren item) ->
                  self1 c = self2 c) ->
  getListSchema branch self1 elem newType = getListSchema branch self2 elem newType.
Proof.
  intros H. unfold getListSchema.
  assert (H' : forall item c, In item (findall elem "item") ->
                              In c (getchildren item) -> self1 c = self2 c).
  { intros item c Hi Hc. eapply H; eauto. eapply findall_children; eauto. }
  destruct (findall elem "item") as [|item0 items] eqn:E; [reflexivity|].
  unfold getMultiTypeListItemSchema.
  rewrite (getMultiTypeListItemSchema_loop_ext _ H').
  rewrite (getListItemSchema_ext item0) by (intros; eapply H'; [now left|eauto]).
  reflexivity.
Qed.

Lemma setDynamicKeys_ext param schema :
  (forall c, In c (getchildren param) -> self1 c = self2 c) ->
  setDynamicKeys self1 param schema = setDynamicKeys self2 param schema.
Proof.
  intros H. unfold setDynamicKeys.
  destruct (find param "key"); [|reflexivity].
  destruct (find param "value") as [value|] eqn:E; [|reflexivity].
  now rewrite (H value (find_children _ _ _ E)).
Qed.

Lemma setDictParamsSchema_ext param schema :
  (forall c, In c (getchildren param) -> self1 c = self2 c) ->
  setDictParamsSchema branch self1 param schema
  = setDictParamsSchema branch self2 param schema.
Proof.
  intros H. unfold setDictParamsSchema.
  rewrite (getParams_ext param H). apply bind_ext. intros subParams.
  apply bind_ext. intros properties.
  now rewrite (setDynamicKeys_ext param schema H).
Qed.

Lemma getJsonParam_body_ext param :
  (forall c, depth c < depth param -> self1 c = self2 c) ->
  getJsonParam_body branch self1 param = getJsonParam_body branch self2 param.
Proof.
  intros H. unfold getJsonParam_body.
  assert (H1 : forall c, In c (getchildren param) -> self1 c = self2 c).
  { intros c Hc. apply H. now apply depth_children. }
  assert (H2 : forall item c, In item (getchildren param) ->
                              In c (getchildren item) -> self1 c = self2 c).
  { intros item c Hi Hc. apply H.
    apply depth_children in Hi. apply depth_children in Hc. lia. }
  apply bind_ext. intros _.
  destruct (is_str (get param "type") "choice"); [reflexivity|].
  apply bind_ext. intros newType.
  destruct (truthy (get param "value")); [reflexivity|].
  rewrite (getListSchema_ext param _ H2).
  apply bind_ext. intros schema.
  now rewrite (setDictParamsSchema_ext param schema H1).
Qed.

End Extensionality.

(** More fuel than the depth of the element changes nothing. *)
Lemma getJsonParam_fuel_enough branch n :
  forall param m,
    depth param <= n -> n <= m ->
    getJsonParam branch m param = getJsonParam branch n param.
Proof.
  induction n as [|n IH]; intros param m Hd Hm.
  - destruct param. cbn [depth] in Hd. lia.
  - destruct m as [|m]; [lia|]. cbn [getJsonParam].
    apply getJsonParam_body_ext. intros c Hc. apply IH; lia.
Qed.

Lemma terminates_ret {E A} (a : A) : terminates (ret a : W E A).
Proof. discriminate. Qed.

Lemma terminates_raise {E A} (e : exn) : terminates (raise e : W E A).
Proof. discriminate. Qed.

Lemma terminates_print d : terminates (print d).
Proof. discriminate. Qed.

Lemma terminates_bind {E A B} (m : W E A) (f : A -> W E B) :
  terminates m -> (forall a, terminates (f a)) -> terminates (bind m f).
Proof.
  unfold terminates, bind, result. intros Hm Hf.
  destruct m as [t [a|e|]]; simpl in *; try congruence.
  specialize (Hf a). destruct (f a). exact Hf.
Qed.

Ltac term :=
  repeat match goal with
    | |- terminates (ret _) => apply terminates_ret
    | |- terminates (raise _) => apply terminates_raise
    | |- terminates (print _) => apply terminates_print
    | |- terminates (bind _ _) => apply terminates_bind; [|intros]
    | |- terminates (when _ _) => unfold when
    | |- terminates (pop _ _) => unfold pop
    | |- terminates (key_of _) => unfold key_of
    | |- terminates (paramTypeMapping_getitem _) =>
        unfold paramTypeMapping_getitem
    | |- terminates (if ?b then _ else _) => destruct b
    | |- terminates (match ?x with _ => _ end) => destruct x
    | H : _ |- terminates _ => solve [apply H; auto with datatypes]
    end.

Lemma getChoiceJsonParam_loop_terminates cs :
  forall values comments default,
    terminates (getChoiceJsonParam_loop cs values comments default).
Proof.
  induction cs as [|c cs IH]; intros; cbn [getChoiceJsonParam_loop]; term.
Qed.

Lemma getChoiceJsonParam_terminates param : terminates (getChoiceJsonParam param).
Proof.
  unfold getChoiceJsonParam.
  pose proof getChoiceJsonParam_loop_terminates. term.
Qed.

Section Termination.

Variable branch : string.
Variable self : Element -> M (option dict).

Lemma getParams_loop_terminates cs :
  (forall c, In c cs -> terminates (self c)) ->
  forall params, terminates (getParams_loop branch self cs params).
Proof.
  induction cs as [|c cs IH]; intros H params; cbn [getParams_loop].
  - term.
  - assert (IH' := IH (fun c' Hc' => H c' (or_intror Hc'))).
    assert (Hc := H c (or_introl eq_refl)). term.
Qed.

Lemma getParams_terminates elem :
  (forall c, In c (getchildren elem) -> terminates (self c)) ->
  terminates (getParams branch self elem).
Proof. intros H. now apply getParams_loop_terminates. Qed.

Lemma getListItemSchema_terminates item :
  (forall c, In c (getchildren item) -> terminates (self c)) ->
  terminates (getListItemSchema branch self item).
Proof.
  intros H. unfold getListItemSchema.
  pose proof (getParams_terminates item H).
  pose proof (getChoiceJsonParam_terminates item). term.
Qed.

Lemma getMultiTypeListItemSchema_loop_terminates items :
  (forall item c, In item items -> In c (getchildren item) -> terminates (self c)) ->
  forall index result,
    terminates (getMultiTypeListItemSchema_loop branch self items index result).
Proof.
  induction items as [|item items IH]; intros H index result;
    cbn [getMultiTypeListItemSchema_loop].
  - term.
  - assert (IH' := IH (fun i c Hi Hc => H i c (or_intror Hi) Hc)).
    assert (Hi := getListItemSchema_terminates item
                    (fun c Hc => H item c (or_introl eq_refl) Hc)).
    term.
Qed.

Lemma getListSchema_terminates elem newType :
  (forall item c, In item (getchildren elem) -> In c (getchildren item) ->
                  terminates (self c)) ->
  terminates (getListSchema branch self elem newType).
Proof.
  intros H. unfold getListSchema.
  assert (H' : forall item c, In item (findall elem "item") ->
                              In c (getchildren item) -> terminates (self c)).
  { intros item c Hi Hc. eapply H; eauto. eapply findall_children; eauto. }
  destruct (findall elem "item") as [|item0 items] eqn:E.
  - term.
  - assert (Hm := getMultiTypeListItemSchema_loop_terminates _ H' 0 []).
    assert (H0 := getListItemSchema_terminates item0
                    (fun c Hc => H' item0 c (or_introl eq_refl) Hc)).
    unfold getMultiTypeListItemSchema. term.
Qed.

Lemma setDynamicKeys_terminates param schema :
  (forall c, In c (getchildren param) -> terminates (self c)) ->
  terminates (setDynamicKeys self param schema).
Proof.
  intros H. unfold setDynamicKeys.
  destruct (find param "key"); [|term].
  destruct (find param "value") as [value|] eqn:E; [|term].
  assert (Hv := H value (find_children _ _ _ E)). term.
Qed.

Lemma setDictParamsSchema_loop_terminates subParams :
  forall properties, terminates (setDictParamsSchema_loop subParams properties).
Proof.
  induction subParams as [|d ds IH]; intros; cbn [setDictParamsSchema_loop];
    term.
Qed.

Lemma setDictParamsSchema_terminates param schema :
  (forall c, In c (getchildren param) -> terminates (self c)) ->
  terminates (setDictParamsSchema branch self param schema).
Proof.
  intros H. unfold setDictParamsSchema.
  pose proof (getParams_terminates param H).
  pose proof setDictParamsSchema_loop_terminates.
  pose proof (fun s => setDynamicKeys_terminates param s H). term.
Qed.

Lemma getJsonParam_body_terminates param :
  (forall c, depth c < depth param -> terminates (self c)) ->
  terminates (getJsonParam_body branch self param).
Proof.
  intros H. unfold getJsonParam_body.
  assert (H1 : forall c, In c (getchildren param) -> terminates (self c)).
  { intros c Hc. apply H. now apply depth_children. }
  assert (H2 : forall item c, In item (getchildren param) ->
                              In c (getchildren item) -> terminates (self c)).
  { intros item c Hi Hc. apply H.
    apply depth_children in Hi. apply depth_children in Hc. lia. }
  pose proof (getChoiceJsonParam_terminates param).
  pose proof (fun t => getListSchema_terminates param t H2).
  pose proof (fun s => setDictParamsSchema_terminates param s H1).
  clear H H1 H2. term.
Qed.

End Termination.

(** With fuel for its depth, [getJsonParam] runs to its end. *)
Lemma getJsonParam_terminates branch n :
  forall param, depth param <= n -> terminates (getJsonParam branch n param).
Proof.
  induction n as [|n IH]; intros param Hd.
  - destruct param. cbn [depth] in Hd. lia.
  - cbn [getJsonParam]. apply getJsonParam_body_terminates.
    intros c Hc. apply IH. lia.
Qed.

Lemma resultValues_loop_terminates cs acc : terminates (resultValues_loop cs acc).
Proof.
  destruct (resultValues_loop_returns cs acc) as (tr & vs & ->). discriminate.
Qed.

Lemma authTypes_of_terminates a : terminates (authTypes_of a).
Proof. destruct (authTypes_of_returns a) as (tr & l & ->). discriminate. Qed.

Lemma terminates_lift {A} (m : M A) : terminates m -> terminates (lift m).
Proof. now destruct m. Qed.

Section MethodFuel.

Variable branch : string.

Lemma resultParams_loop_terminates fuel cs :
  (forall c, In c cs -> terminates (getJsonParam branch fuel c)) ->
  forall acc, terminates (resultParams_loop branch fuel cs acc).
Proof.
  induction cs as [|c cs IH]; intros H acc; cbn [resultParams_loop].
  - term.
  - assert (IH' := IH (fun c' Hc' => H c' (or_intror Hc'))).
    assert (Hc := H c (or_introl eq_refl)). term.
Qed.

Lemma resultParams_loop_ext fuel1 fuel2 cs :
  (forall c, In c cs -> getJsonParam branch fuel1 c = getJsonParam branch fuel2 c) ->
  forall acc,
    resultParams_loop branch fuel1 cs acc = resultParams_loop branch fuel2 cs acc.
Proof.
  induction cs as [|c cs IH]; intros H acc; [reflexivity|].
  cbn [resultParams_loop]. rewrite (H c) by now left.
  assert (IH' := IH (fun c' Hc' => H c' (or_intror Hc'))).
  destruct (negb (tag c =? "param")); [apply IH'|].
  destruct (negb (truthy (get c "name"))).
  - apply bind_ext. intros _. apply IH'.
  - apply bind_ext. intros [j|]; [|apply IH'].
    apply bind_ext. intros [? ?]. apply bind_ext. intros [? ?].
    apply bind_ext. intros [? ?]. apply IH'.
Qed.

Lemma getJsonMethod_terminates fuel hn method authTypes :
  (forall c, depth c + 1 < depth method ->
             terminates (getJsonParam branch fuel c)) ->
  terminates (getJsonMethod branch fuel hn method authTypes).
Proof.
  intros H. unfold getJsonMethod.
  destruct (negb (tag method =? "method")); [term|].
  destruct (negb (truthy (get method "name"))); [term|].
  destruct (find method "input") as [inputElem|] eqn:Ei; [|term].
  destruct (find method "output") as [outputElem|] eqn:Eo; [|term].
  apply find_children, depth_children in Ei, Eo.
  apply terminates_bind.
  - apply getParams_terminates. intros c Hc.
    apply depth_children in Hc. apply H. lia.
  - intros params. unfold getJsonMethod_output, getJsonMethod_resolve.
    pose proof resultValues_loop_terminates.
    assert (Hrp : forall acc,
               terminates (resultParams_loop branch fuel
                             (getchildren outputElem) acc)).
    { apply resultParams_loop_terminates. intros c Hc.
      apply depth_children in Hc. apply H. lia. }
    clear H. term.
Qed.

Lemma getJsonMethod_ext fuel1 fuel2 hn method authTypes :
  (forall c, depth c + 1 < depth method ->
             getJsonParam branch fuel1 c = getJsonParam branch fuel2 c) ->
  getJsonMethod branch fuel1 hn method authTypes
  = getJsonMethod branch fuel2 hn method authTypes.
Proof.
  intros H. unfold getJsonMethod.
  destruct (negb (tag method =? "method")); [reflexivity|].
  destruct (negb (truthy (get method "name"))); [reflexivity|].
  destruct (find method "input") as [inputElem|] eqn:Ei; [|reflexivity].
  destruct (find method "output") as [outputElem|] eqn:Eo; [|reflexivity].
  apply find_children, depth_children in Ei, Eo.
  rewrite (getParams_ext branch (getJsonParam branch fuel1)
             (getJsonParam branch fuel2) inputElem).
  2:{ intros c Hc. apply depth_children in Hc. apply H. lia. }
  apply bind_ext. intros params.
  unfold getJsonMethod_output, getJsonMethod_resolve.
  assert (Hrp : forall acc,
             resultParams_loop branch fuel1 (getchildren outputElem) acc
             = resultParams_loop branch fuel2 (getchildren outputElem) acc).
  { apply resultParams_loop_ext. intros c Hc.
    apply depth_children in Hc. apply H. lia. }
  destruct (truthy (get outputElem "value"));
    [|destruct (negb (truthy (get outputElem "type"))); [reflexivity|]];
    (apply bind_ext; intros [rv rt]; now rewrite Hrp).
Qed.

Lemma convertSubsystem_loop_terminates fuel hn cs :
  (forall m c, In m cs -> depth c + 1 < depth m ->
               terminates (getJsonParam branch fuel c)) ->
  forall methods, terminates (convertSubsystem_loop fuel branch hn cs methods).
Proof.
  induction cs as [|m cs IH]; intros H methods; cbn [convertSubsystem_loop].
  - term.
  - assert (IH' := IH (fun m' c Hm => H m' c (or_intror Hm))).
    assert (Hm := fun a => getJsonMethod_terminates fuel hn m a
                             (fun c => H m c (or_introl eq_refl))).
    pose proof authTypes_of_terminates. clear H IH. term.
Qed.

Lemma convertSubsystem_loop_ext fuel1 fuel2 hn cs :
  (forall m c, In m cs -> depth c + 1 < depth m ->
               getJsonParam branch fuel1 c = getJsonParam branch fuel2 c) ->
  forall methods,
    convertSubsystem_loop fuel1 branch hn cs methods
    = convertSubsystem_loop fuel2 branch hn cs methods.
Proof.
  induction cs as [|m cs IH]; intros H methods; [reflexivity|].
  cbn [convertSubsystem_loop].
  assert (IH' := IH (fun m' c Hm => H m' c (or_intror Hm))).
  destruct (negb (tag m =? "method")); [apply IH'|].
  destruct (get m "auth_type") as [a|]; [|reflexivity].
  apply bind_ext. intros authTypes.
  rewrite (getJsonMethod_ext fuel1 fuel2 hn m authTypes
             (fun c => H m c (or_introl eq_refl))).
  apply bind_ext. intros [j|]; apply IH'.
Qed.

End MethodFuel.

Lemma convertSubsystem_terminates fuel h branch outDir :
  (forall c, depth c + 2 < depth h -> terminates (getJsonParam branch fuel c)) ->
  terminates (convertSubsystem fuel h branch outDir).
Proof.
  intros H. unfold convertSubsystem.
  destruct (negb (truthy (get h "name"))); [discriminate|].
  apply terminates_bind; [discriminate|]. intros _.
  apply terminates_bind.
  - apply terminates_lift, convertSubsystem_loop_terminates.
    intros m c Hm Hc. apply depth_children in Hm. apply H. lia.
  - intros [methods|]; discriminate.
Qed.

Lemma convertSubsystem_ext fuel1 fuel2 h branch outDir :
  (forall c, depth c + 2 < depth h ->
             getJsonParam branch fuel1 c = getJsonParam branch fuel2 c) ->
  convertSubsystem fuel1 h branch outDir = convertSubsystem fuel2 h branch outDir.
Proof.
  intros H. unfold convertSubsystem.
  rewrite (convertSubsystem_loop_ext branch fuel1 fuel2); [reflexivity|].
  intros m c Hm Hc. apply depth_children in Hm. apply H. lia.
Qed.

Lemma convert_loop_terminates fuel cs branch outDir :
  (forall h c, In h cs -> depth c + 2 < depth h ->
               terminates (getJsonParam branch fuel c)) ->
  terminates (convert_loop fuel cs branch outDir).
Proof.
  induction cs as [|h cs IH]; intros H; cbn [convert_loop]; [discriminate|].
  assert (IH' := IH (fun h' c Hh => H h' c (or_intror Hh))).
  destruct (negb (tag h =? "handler")); [exact IH'|].
  apply terminates_bind; [|intros _; exact IH'].
  apply convertSubsystem_terminates. intros c. apply H. now left.
Qed.

Lemma convert_loop_ext fuel1 fuel2 cs branch outDir :
  (forall h c, In h cs -> depth c + 2 < depth h ->
               getJsonParam branch fuel1 c = getJsonParam branch fuel2 c) ->
  convert_loop fuel1 cs branch outDir = convert_loop fuel2 cs branch outDir.
Proof.
  induction cs as [|h cs IH]; intros H; cbn [convert_loop]; [reflexivity|].
  assert (IH' := IH (fun h' c Hh => H h' c (or_intror Hh))).
  destruct (negb (tag h =? "handler")); [exact IH'|].
  rewrite (convertSubsystem_ext fuel1 fuel2 h) by (intros c; apply H; now left).
  apply bind_ext. intros _. exact IH'.
Qed.

(** [convert] never stops for want of fuel, and more fuel than [fuel_of]
    gives the same run. *)
Lemma convert_terminates doc branch outDir :
  terminates (convert doc branch outDir).
Proof.
  unfold convert. apply convert_loop_terminates.
  intros h c Hh Hc. apply depth_children in Hh.
  apply getJsonParam_terminates. unfold fuel_of. lia.
Qed.

Lemma convert_fuel_enough doc branch outDir fuel :
  fuel_of doc <= fuel ->
  convert_loop fuel (getchildren doc) branch outDir = convert doc branch outDir.
Proof.
  intros Hf. unfold convert. apply convert_loop_ext.
  intros h c Hh Hc. apply depth_children in Hh. unfold fuel_of in *.
  rewrite (getJsonParam_fuel_enough branch (depth c) c fuel) by lia.
  rewrite (getJsonParam_fuel_enough branch (depth c) c (S (depth doc))) by lia.
  reflexivity.
Qed.

(** ** Names in the emitted document *)

(** What holds of the names: the descriptor of a converted method is named
    [<handler>.<method>] after a method name that is not empty, and every
    entry of its [params] carries a non-empty [name]. *)
Lemma getJsonMethod_names branch fuel hn method authTypes tr d :
  getJsonMethod branch fuel hn method authTypes = (tr, Ret (Some d)) ->
  exists n params,
    get method "name" = Some n /\ n <> ""
    /\ Dict.lookup "name" d = Some (PStr (hn ++ "." ++ n)%string)
    /\ Dict.lookup "params" d = Some (PList (map PDict params))
    /\ Forall has_name params.
Proof.
  intros H. apply getJsonMethod_inv in H.
  destruct H as (_ & Hn & inp & out & trp & params & tro & _ & _ & Hps & Ho & _).
  apply getJsonMethod_output_inv in Ho.
  destruct Ho as (rt & rv & rp & -> & _).
  destruct (get method "name") as [n|] eqn:En; [|discriminate].
  exists n, params. split; [reflexivity|]. split.
  { intros ->. discriminate. }
  unfold jsonMethod_head, get_or. rewrite En.
  split; [|split].
  - destruct (truthy (get method "requires_perm"));
      repeat (rewrite lookup_set_neq by reflexivity); reflexivity.
  - rewrite lookup_set_neq by reflexivity. apply lookup_set_eq.
  - eapply getParams_names; eauto.
Qed.

(** C9, where the code departs from it.  A [<value>] element that carries
    a literal [value] is converted by the branch of [getJsonParam] that
    stores [name] without looking at it, so the [__value__] fragment of
    the written document carries a [name] key that is [None]. *)
Theorem value_literal_emits_null_name :
  events (convert Sample.doc_value_literal "main" "out") =
    [Makedirs "out/main";
     WriteFile "out/main/user.json"
       (document "main" "user"
          [[(KStr "name", PStr "user.search");
            (KStr "description", PStr "");
            (KStr "auth_type",
              PList [PStr "ADMIN"; PStr "NORMAL_USER"; PStr "VOIP_USER"]);
            (KStr "params",
              PList
                [PDict
                   [(KStr "name", PStr "conds");
                    (KStr "description", PStr "");
                    (KStr "schema",
                      PDict
                        [(KStr "type", PStr "object");
                         (KStr "dynamic_keys", PBool true);
                         (KStr "__key__",
                           PDict [(KStr "type", PStr "str");
                                  (KStr "title", PStr "")]);
                         (KStr "__value__",
                           PDict [(KStr "name", PNone);
                                  (KStr "description", PStr "");
                                  (KStr "enum", PList [PStr "x"])]);
                         (KStr "properties", PDict [])])]]);
            (KStr "result",
              PDict [(KStr "name", PStr "Response (number)");
                     (KStr "comment", PStr "");
                     (KStr "schema",
                       PDict [(KStr "title", PStr "");
                              (KStr "type", PStr "number")])])]])]
  /\ getJsonParam "main" 1 Sample.value_literal
     = ([], Ret (Some [(KStr "name", PNone);
                       (KStr "description", PStr "");
                       (KStr "enum", PList [PStr "x"])])).
Proof. split; vm_compute; reflexivity. Qed.

(** ** The properties at sample elements *)

Lemma unknown_type_raises_KeyError_witness :
  getJsonParam "main" 1 Sample.param_bogus = ([], Raise (KeyError "bogus"))
  /\ getJsonMethod "main" 1 "user" Sample.method_bogus_output ["ADMIN"]
     = ([], Raise (KeyError "bogus"))
  /\ getJsonMethod "main" 1 "user" Sample.method_bogus_param ["ADMIN"]
     = ([], Raise (KeyError "bogus"))
  /\ convert_loop 1 ([] ++ Sample.handler_bogus :: [Sample.handler_ok]) "main" "out"
     = ([] ++ Makedirs (PyStr.join "out" "main") :: map Stdout ([] ++ [] ++ []),
        Raise (KeyError "bogus")).
Proof.
  assert (H0 : "bogus" <> "") by discriminate.
  assert (H1 : "bogus" <> "choice") by discriminate.
  assert (H2 : table_get "bogus" paramTypeMapping = None) by reflexivity.
  destruct (unknown_type_raises_KeyError "main" 0 "bogus" H0 H1 H2)
    as (Hp & _ & Hi & _).
  destruct (unknown_type_raises_KeyError "main" 1 "bogus" H0 H1 H2)
    as (_ & Ho & _ & Hr).
  split; [|split; [|split]].
  - apply Hp. reflexivity.
  - apply (Ho "user" Sample.method_bogus_output ["ADMIN"]
              Sample.input_empty Sample.output_bogus [] []); reflexivity.
  - apply (Hi "user" Sample.method_bogus_param ["ADMIN"]
              Sample.input_bogus Sample.output_int
              [] Sample.param_bogus [] [] []); reflexivity.
  - apply (Hr "out" [] Sample.handler_bogus [Sample.handler_ok]
              [] Sample.method_bogus_output [] "ADMIN" [] [] [] [] ["ADMIN"] []);
      reflexivity.
Defined.

Lemma missing_auth_type_aborts_handler_witness :
  writes (events (convertSubsystem 1 Sample.handler_no_auth "main" "out")) = []
  /\ result (convertSubsystem 1 Sample.handler_no_auth "main" "out") = Ret tt
  /\ writes (events (convert_loop 1 ([] ++ Sample.handler_no_auth
                                        :: [Sample.handler_ok]) "main" "out"))
     = writes (events (convert_loop 1 ([] ++ [Sample.handler_ok]) "main" "out")).
Proof.
  destruct (missing_auth_type_aborts_handler 1 "main" "out"
              Sample.handler_no_auth [Sample.method_int] Sample.method_no_auth []
              eq_refl eq_refl eq_refl) as [Hw Hr].
  split; [exact Hw|].
  edestruct Hr as [Hret Hdoc]; [reflexivity|].
  split; [exact Hret|]. apply Hdoc.
Defined.

(** C4 as it is written fails: the method that follows one whose output
    has neither [type] nor [value] is converted, and its descriptor is in
    the file of the handler. *)
Lemma untyped_output_keeps_following_methods :
  getchildren Sample.handler_untyped
    = [] ++ Sample.method_untyped :: [Sample.method_int]
  /\ find Sample.method_untyped "output" = Some Sample.output_untyped
  /\ get Sample.output_untyped "type" = None
  /\ get Sample.output_untyped "value" = None
  /\ get Sample.method_int "name" = Some "count"
  /\ map descriptor_name
         (methods_written
            (events (convertSubsystem 1 Sample.handler_untyped "main" "out")))
     = [Some (PStr "user.count")].
Proof. repeat split; vm_compute; reflexivity. Qed.

Lemma untyped_output_skips_only_its_method_witness :
  convertSubsystem_loop 1 "main" "user"
    (Sample.method_untyped :: [Sample.method_int]) []
  = ([] ++ [NoOutputTypeNorValue "main" Sample.method_untyped]
        ++ events (convertSubsystem_loop 1 "main" "user" [Sample.method_int] []),
     result (convertSubsystem_loop 1 "main" "user" [Sample.method_int] []))
  /\ writes (events (convertSubsystem 1 Sample.handler_untyped "main" "out"))
     = writes (events (convertSubsystem 1 Sample.handler_typed "main" "out")).
Proof.
  destruct (untyped_output_skips_only_its_method 1 "main" "user"
              Sample.method_untyped Sample.output_untyped ""
              [] ["ADMIN"; "NORMAL_USER"; "VOIP_USER"]
              [NoOutputTypeNorValue "main" Sample.method_untyped] None
              eq_refl eq_refl eq_refl eq_refl eq_refl eq_refl eq_refl)
    as (_ & _ & Hloop & Hdoc).
  split.
  - apply Hloop.
  - apply (Hdoc "out" Sample.handler_untyped Sample.handler_typed
                [] [Sample.method_int]); reflexivity.
Defined.

(** C5 as it is written fails: an output with a [value] and the type
    [int] yields an [enum] and a [schema] at once, and with a [value] and
    the type [choice] the enumeration is the collected one, not the
    literal value. *)
Lemma value_and_type_give_enum_and_schema :
  method_result (getJsonMethod "main" 1 "user" Sample.method_value_and_type
                               ["ADMIN"])
  = Some (PDict [(KStr "name", PStr "Response (one of following values)");
                 (KStr "comment", PStr "");
                 (KStr "schema",
                   PDict [(KStr "title", PStr ""); (KStr "type", PStr "number")]);
                 (KStr "enum", PList [PStr "ok"])])
  /\ method_result (getJsonMethod "main" 1 "user" Sample.method_value_and_choice
                                  ["ADMIN"])
     = Some (PDict [(KStr "name", PStr "Response (one of following values)");
                    (KStr "comment", PStr "");
                    (KStr "enum", PList [PStr "a"; PStr "b"])]).
Proof. split; vm_compute; reflexivity. Qed.

Lemma output_resolution_enum_and_schema_witness :
  exists outputElem result,
    find Sample.method_value_and_type "output" = Some outputElem
    /\ Dict.lookup "enum" result = Some (PList [PStr "ok"])
    /\ exists schema,
        Dict.lookup "schema" result = Some (PDict schema)
        /\ Dict.lookup "type" schema = Some (PStr "number").
Proof.
  destruct (output_resolution_enum_and_schema "main" 1 "user"
              Sample.method_value_and_type ["ADMIN"] []
              _ eq_refl) as (out & res & Hout & _ & _ & Hn).
  injection Hout as <-.
  destruct (Hn eq_refl) as (Henum & entry & Hentry & Hsch).
  injection Hentry as <-.
  exists (mkElement "output" [("type", "int"); ("value", "ok")] []), res.
  split; [reflexivity|]. split; [exact Henum|exact Hsch].
Defined.

(** C6 as it is written fails: a [<choice type="int">] whose [value] is
    no integer makes [getChoiceJsonParam] raise [ValueError]; no object is
    returned. *)
Lemma choice_int_value_not_integer_raises :
  Forall (fun c => tag c = "choice" /\ get c "value" <> None)
         (getchildren Sample.choice_not_int)
  /\ getChoiceJsonParam Sample.choice_not_int = ([], Raise (ValueError "abc")).
Proof.
  split; [|reflexivity].
  repeat constructor. discriminate.
Qed.

Lemma getChoiceJsonParam_enum_default_comments_witness :
  exists tr obj,
    getChoiceJsonParam Sample.choice_ab = (tr, Ret (Some obj))
    /\ Dict.lookup "enum" obj = Some (PList [PStr "a"; PStr "b"])
    /\ Dict.lookup "default" obj = Some (PStr "a")
    /\ Dict.mem "value_comment" obj = false.
Proof.
  destruct getChoiceJsonParam_enum_default_comments as (_ & _ & _ & H).
  apply (H [("name", "kind"); ("type", "choice")] "true"). discriminate.
Defined.

Lemma dict_dynamic_keys_schema_witness :
  (exists obj schema valueJson,
      getJsonParam "main" 2 Sample.dict_dynamic = ([], Ret (Some obj))
      /\ Dict.lookup "schema" obj = Some (PDict schema)
      /\ Dict.lookup "dynamic_keys" schema = Some (PBool true)
      /\ Dict.lookup "__key__" schema
         = Some (PDict [(KStr "type", PStr "str"); (KStr "title", PStr "k")])
      /\ Dict.lookup "__value__" schema = Some (PDict valueJson)
      /\ Dict.lookup "type" valueJson = Some (PStr "number")
      /\ option_map type (table_get "int" paramTypeMapping) = Some (One "number"))
  /\
  (exists obj schema,
      getJsonParam "main" 2 Sample.dict_key_only
        = ([] ++ [KeyWithoutValue Sample.dict_key_only], Ret (Some obj))
      /\ Dict.lookup "schema" obj = Some (PDict schema)
      /\ Dict.lookup "dynamic_keys" schema = Some (PBool true)
      /\ Dict.mem "__key__" schema = false
      /\ Dict.mem "__value__" schema = false).
Proof.
  split.
  - destruct (dict_dynamic_keys_schema "main" 0 Sample.dict_dynamic [] []
                eq_refl eq_refl eq_refl eq_refl) as [H _].
    apply (H Sample.key_str Sample.value_int "k"); reflexivity.
  - destruct (dict_dynamic_keys_schema "main" 0 Sample.dict_key_only [] []
                eq_refl eq_refl eq_refl eq_refl) as [_ H].
    apply (H Sample.key_str); reflexivity.
Defined.

(** C8 as it is written fails: a [length] attribute that is empty is not
    the sentinel, and yet it is left out of the schema. *)
Lemma empty_length_is_omitted :
  get Sample.list_empty_length "length" = Some ""
  /\ "" <> "-1"
  /\ getJsonParam "main" 1 Sample.list_empty_length
     = ([], Ret (Some [(KStr "name", PStr "ids");
                       (KStr "description", PStr "");
                       (KStr "schema", PDict [(KStr "type", PStr "array")])])).
Proof. repeat split; try reflexivity. discriminate. Qed.

Lemma list_schema_items_and_length_witness :
  (exists obj,
      getJsonParam "main" 1 Sample.list_int = ([], Ret (Some obj))
      /\ Dict.lookup "schema" obj
         = Some (PDict [(KStr "type", PStr "array");
                        (KStr "items",
                          PDict [(KStr "title", PStr (get_or Sample.item_int "comment" ""));
                                 (KStr "type", PStr "int")])]))
  /\
  (exists obj,
      getJsonParam "main" 1 Sample.list_int_length = ([], Ret (Some obj))
      /\ Dict.lookup "schema" obj
         = Some (PDict ([(KStr "type", PStr "array");
                         (KStr "items",
                           PDict [(KStr "title", PStr (get_or Sample.item_int "comment" ""));
                                  (KStr "type", PStr "int")])]
                        ++ if "3" =? "-1" then [] else [(KStr "length", PStr "3")]))).
Proof.
  destruct list_schema_items_and_length as (H1 & H2 & _).
  split.
  - apply (H1 "main" 0 Sample.list_int Sample.item_int "int");
      try reflexivity; discriminate.
  - apply (H2 "main" 0 Sample.list_int_length Sample.item_int "int" "3");
      try reflexivity; discriminate.
Defined.

Lemma convertSubsystem_branch_directory_witness :
  (exists tr,
      events (convertSubsystem 1 Sample.handler_no_auth "main" "out")
        = Makedirs (PyStr.join "out" "main") :: tr
      /\ forall path, ~ In (Makedirs path) tr)
  /\ filter is_fs_event (events (convertSubsystem 1 Sample.handler_no_auth "main" "out"))
     = [Makedirs (PyStr.join "out" "main")]
  /\ convertSubsystem 1 (mkElement "handler" [("name", "")] [Sample.method_int])
                      "main" "out"
     = ([Stdout HandlerNoName], Ret tt).
Proof.
  destruct (convertSubsystem_branch_directory 1 Sample.handler_no_auth "main" "out")
    as [Hnamed _].
  destruct (Hnamed eq_refl) as (Hfirst & _ & Habort).
  destruct (convertSubsystem_branch_directory 1
              (mkElement "handler" [("name", "")] [Sample.method_int])
              "main" "out") as [_ Hunnamed].
  split; [exact Hfirst|]. split.
  - apply (Habort [Sample.method_int] Sample.method_no_auth []); reflexivity.
  - exact (proj1 (Hunnamed eq_refl)).
Defined.

(** * Further properties *)

(** ** Parameters with a literal value, and parameters without a type *)

(** [getJsonParam] before it looks at [value]: the diagnostic for a missing
    type and the table lookup. *)
Lemma getJsonParam_not_choice branch fuel param :
  is_str (get param "type") "choice" = false ->
  getJsonParam branch (S fuel) param =
    (when (negb (truthy (get param "type")))
          (print (ParamTypeEmpty branch param)) ;;
     newType <- (if truthy (get param "type")
                 then paramTypeMapping_getitem (get_or param "type" "")
                 else ret ParamType0) ;;
     if truthy (get param "value") then
       ret (Some (addParamExtraAttrs param
                    [(KStr "name", of_opt (get param "name"));
                     (KStr "description", PStr (get_or param "comment" ""));
                     (KStr "enum", PList [of_opt (get param "value")])]))
     else
       schema <- (if array_in (type newType)
                  then getListSchema branch (getJsonParam branch fuel) param
                                     (of_type (type newType))
                  else ret [(KStr "type", of_type (type newType))]) ;;
       schema <- (if negb (pattern newType =? "")
                  then ret (Dict.set "pattern" (PStr (pattern newType)) schema)
                  else if is_str (get param "type") "dict"
                       then setDictParamsSchema branch (getJsonParam branch fuel)
                                                param schema
                       else ret schema) ;;
       ret (Some (addParamExtraAttrs param
                    (Dict.update
                       (if truthy (get param "name")
                        then [(KStr "name", of_opt (get param "name"))] else [])
                       [(KStr "description",
                          PStr (if negb (comment newType =? "")
                                then (comment newType ++ ", "
                                        ++ get_or param "comment" "")%string
                                else get_or param "comment" ""));
                        (KStr "schema", PDict schema)])))).
Proof.
  intros Hc. cbn [getJsonParam]. unfold getJsonParam_body. rewrite Hc.
  reflexivity.
Qed.

(** X1.  A parameter that is not a choice and carries a non-empty [value]
    is converted to [name], [description] and the one-element [enum], with
    the extra attributes and without a [schema], whatever its children are
    and whatever its type is mapped to; the type, when there is one, must
    still be a key of the table. *)
Theorem getJsonParam_literal_value :
  forall branch fuel param v,
    get param "value" = Some v -> v <> "" ->
    is_str (get param "type") "choice" = false ->
    (truthy (get param "type") = true ->
     table_get (get_or param "type" "") paramTypeMapping <> None) ->
    exists obj,
      getJsonParam branch (S fuel) param =
        (if truthy (get param "type") then [] else [ParamTypeEmpty branch param],
         Ret (Some obj))
      /\ obj = addParamExtraAttrs param
                 [(KStr "name", of_opt (get param "name"));
                  (KStr "description", PStr (get_or param "comment" ""));
                  (KStr "enum", PList [PStr v])]
      /\ Dict.lookup "enum" obj = Some (PList [PStr v])
      /\ Dict.mem "schema" obj = false.
Proof.
  intros branch fuel param v Hv Hne Hc Htab.
  rewrite (getJsonParam_not_choice _ _ _ Hc).
  rewrite Hv, (truthy_Some _ Hne). cbn [of_opt].
  eexists. split; [|split; [reflexivity|]].
  - destruct (truthy (get param "type")); cbn [negb when].
    + unfold paramTypeMapping_getitem.
      destruct (table_get (get_or param "type" "") paramTypeMapping);
        [|now destruct Htab].
      now rewrite !bind_ret_l.
    + rewrite bind_ret_l. unfold print, bind, ret. reflexivity.
  - unfold Dict.mem.
    rewrite !lookup_addParamExtraAttrs by reflexivity. split; reflexivity.
Qed.

Lemma getJsonParam_literal_value_witness :
  exists obj,
    getJsonParam "main" 1
      (mkElement "param" [("name", "kind"); ("type", "dict"); ("value", "x")]
                 [Sample.param_bogus])
      = (if truthy (Some "dict") then []
         else [ParamTypeEmpty "main"
                 (mkElement "param" [("name", "kind"); ("type", "dict"); ("value", "x")]
                            [Sample.param_bogus])],
         Ret (Some obj))
    /\ Dict.lookup "enum" obj = Some (PList [PStr "x"])
    /\ Dict.mem "schema" obj = false.
Proof.
  destruct (getJsonParam_literal_value "main" 0
              (mkElement "param" [("name", "kind"); ("type", "dict"); ("value", "x")]
                         [Sample.param_bogus]) "x")
    as (obj & Hret & _ & Henum & Hsch);
    try reflexivity; try discriminate.
  exists obj. split; [exact Hret|]. split; assumption.
Defined.

(** X2.  The [required] key of a parameter object is never true.  For a
    parameter that is not a choice it is [false] exactly when the element
    has a [default] attribute (even an empty one) or a non-empty
    [optional] attribute, and [default] is the attribute as it is written;
    for a choice parameter the two attributes of the element are not
    looked at and there is no [required] key. *)
Theorem getJsonParam_required_default :
  forall branch fuel param tr obj,
    getJsonParam branch fuel param = (tr, Ret (Some obj)) ->
    if is_str (get param "type") "choice"
    then Dict.mem "required" obj = false
    else Dict.lookup "required" obj
         = (match get param "default" with
            | Some _ => Some (PBool false)
            | None => if truthy (get param "optional")
                      then Some (PBool false) else None
            end)
         /\ Dict.lookup "default" obj = option_map PStr (get param "default").
Proof.
  intros branch fuel param tr obj H.
  destruct fuel as [|fuel]; [discriminate|].
  destruct (is_str (get param "type") "choice") eqn:Hc.
  - cbn [getJsonParam] in H. unfold getJsonParam_body in H. rewrite Hc in H.
    apply bind_inv_Ret in H. destruct H as (t1 & [] & t2 & _ & H & _).
    unfold getChoiceJsonParam in H.
    apply bind_inv_Ret in H. destruct H as (t3 & r & t4 & _ & H & _).
    destruct r as [[[values comments] default]|]; [|discriminate].
    apply bind_inv_Ret in H. destruct H as (t5 & [] & t6 & _ & H & _).
    injection H as _ <-. unfold Dict.mem.
    destruct (truthy (get param "name")), (get param "comment"), default, comments;
      repeat (rewrite lookup_set_neq by reflexivity); reflexivity.
  - rewrite (getJsonParam_not_choice _ _ _ Hc) in H.
    apply bind_inv_Ret in H. destruct H as (t1 & [] & t2 & _ & H & _).
    apply bind_inv_Ret in H. destruct H as (t3 & newType & t4 & _ & H & _).
    assert (Hx : forall base,
               Dict.lookup "required" base = None ->
               Dict.lookup "default" base = None ->
               Dict.lookup "required" (addParamExtraAttrs param base)
               = (match get param "default" with
                  | Some _ => Some (PBool false)
                  | None => if truthy (get param "optional")
                            then Some (PBool false) else None
                  end)
               /\ Dict.lookup "default" (addParamExtraAttrs param base)
                  = option_map PStr (get param "default")).
    { intros base Hr Hd. unfold addParamExtraAttrs.
      destruct (get param "default") as [d|]; cbn [option_map].
      - rewrite lookup_set_neq by reflexivity. now rewrite !lookup_set_eq.
      - destruct (truthy (get param "optional")).
        + rewrite lookup_set_eq, lookup_set_neq by reflexivity. auto.
        + auto. }
    destruct (truthy (get param "value")).
    + injection H as _ <-. apply Hx; reflexivity.
    + apply bind_inv_Ret in H. destruct H as (t5 & schema & t6 & _ & H & _).
      apply bind_inv_Ret in H. destruct H as (t7 & schema' & t8 & _ & H & _).
      injection H as _ <-.
      apply Hx; destruct (truthy (get param "name")); reflexivity.
Qed.

Lemma getJsonParam_required_default_witness :
  Dict.lookup "required"
    (addParamExtraAttrs
       (mkElement "param" [("name", "n"); ("type", "int"); ("default", "")] [])
       [(KStr "name", PStr "n"); (KStr "description", PStr "");
        (KStr "schema", PDict [(KStr "type", PStr "number")])])
  = Some (PBool false)
  /\ Dict.lookup "default"
       (addParamExtraAttrs
          (mkElement "param" [("name", "n"); ("type", "int"); ("default", "")] [])
          [(KStr "name", PStr "n"); (KStr "description", PStr "");
           (KStr "schema", PDict [(KStr "type", PStr "number")])])
     = option_map PStr (Some "").
Proof.
  exact (getJsonParam_required_default "main" 1
           (mkElement "param" [("name", "n"); ("type", "int"); ("default", "")] [])
           [] _ eq_refl).
Defined.

(** X3.  A parameter whose [type] attribute is missing or empty (and that
    carries no [value]) is reported and converted all the same: its schema
    is [{"type": ""}] and its description is its comment. *)
Theorem getJsonParam_without_type :
  forall branch fuel param,
    truthy (get param "type") = false ->
    truthy (get param "value") = false ->
    getJsonParam branch (S fuel) param =
      ([ParamTypeEmpty branch param],
       Ret (Some (addParamExtraAttrs param
                    (Dict.update
                       (if truthy (get param "name")
                        then [(KStr "name", of_opt (get param "name"))] else [])
                       [(KStr "description", PStr (get_or param "comment" ""));
                        (KStr "schema", PDict [(KStr "type", PStr "")])])))).
Proof.
  intros branch fuel param Ht Hv.
  assert (Hc : is_str (get param "type") "choice" = false).
  { destruct (get param "type") as [t|]; [|reflexivity].
    cbn [truthy is_str] in *. destruct (String.eqb_spec t ""); [now subst|].
    discriminate. }
  rewrite (getJsonParam_not_choice _ _ _ Hc), Ht, Hv.
  assert (Hd : is_str (get param "type") "dict" = false).
  { destruct (get param "type") as [t|]; [|reflexivity].
    cbn [truthy is_str] in *. destruct (String.eqb_spec t ""); [now subst|].
    discriminate. }
  rewrite Hd. cbn [negb when]. rewrite bind_ret_l.
  cbn [type pattern comment ParamType0].
  replace (array_in (One "")) with false by reflexivity.
  replace ("" =? "") with true by reflexivity. cbn [negb of_type].
  rewrite !bind_ret_l. unfold print, bind, ret. reflexivity.
Qed.

Lemma getJsonParam_without_type_witness :
  getJsonParam "main" 1 (mkElement "param" [("name", "n"); ("comment", "c")] []) =
    ([ParamTypeEmpty "main" (mkElement "param" [("name", "n"); ("comment", "c")] [])],
     Ret (Some (addParamExtraAttrs
                  (mkElement "param" [("name", "n"); ("comment", "c")] [])
                  (Dict.update
                     (if truthy (get (mkElement "param" [("name", "n"); ("comment", "c")] [])
                                     "name")
                      then [(KStr "name",
                              of_opt (get (mkElement "param"
                                             [("name", "n"); ("comment", "c")] [])
                                          "name"))]
                      else [])
                     [(KStr "description",
                        PStr (get_or (mkElement "param"
                                        [("name", "n"); ("comment", "c")] [])
                                     "comment" ""));
                      (KStr "schema", PDict [(KStr "type", PStr "")])])))).
Proof.
  apply (getJsonParam_without_type "main" 0
           (mkElement "param" [("name", "n"); ("comment", "c")] []));
    reflexivity.
Defined.

(** ** The schema of a typed parameter *)

Lemma getListSchema_lookup branch self elem newType tr schema k :
  getListSchema branch self elem newType = (tr, Ret schema) ->
  key_eqb "items" k = false -> key_eqb "length" k = false ->
  Dict.lookup k schema = Dict.lookup k [(KStr "type", newType)].
Proof.
  unfold getListSchema. intros H Hi Hl.
  apply bind_inv_Ret in H. destruct H as (t1 & schema1 & t2 & H1 & H2 & _).
  assert (Hs1 : Dict.lookup k schema1 = Dict.lookup k [(KStr "type", newType)]).
  { destruct (findall elem "item") as [|item0 items].
    - now injection H1 as _ <-.
    - apply bind_inv_Ret in H1. destruct H1 as (t3 & itemSchema & t4 & _ & H1 & _).
      injection H1 as _ <-. destruct (py_bool itemSchema); [|reflexivity].
      change [(KStr "type", newType); (KStr "items", itemSchema)]
        with (Dict.set "items" itemSchema [(KStr "type", newType)]).
      now rewrite lookup_set_neq. }
  injection H2 as _ <-.
  destruct (truthy (get elem "length") && negb (is_str (get elem "length") "-1"));
    [|exact Hs1].
  now rewrite lookup_set_neq.
Qed.

Lemma setDynamicKeys_lookup self param schema tr schema' k :
  setDynamicKeys self param schema = (tr, Ret schema') ->
  key_eqb "dynamic_keys" k = false -> key_eqb "__key__" k = false ->
  key_eqb "__value__" k = false ->
  Dict.lookup k schema' = Dict.lookup k schema.
Proof.
  unfold setDynamicKeys. intros H Hd Hk Hv.
  destruct (find param "key").
  2:{ injection H as _ <-. now rewrite lookup_set_neq. }
  destruct (find param "value").
  2:{ apply bind_inv_Ret in H. destruct H as (? & ? & ? & _ & H & _).
      injection H as _ <-. now rewrite lookup_set_neq. }
  apply bind_inv_Ret in H. destruct H as (t1 & valueJson & t2 & _ & H & _).
  destruct valueJson; [|discriminate]. injection H as _ <-.
  now rewrite !lookup_set_neq.
Qed.

Lemma setDictParamsSchema_lookup branch self param schema tr schema' k :
  setDictParamsSchema branch self param schema = (tr, Ret schema') ->
  key_eqb "dynamic_keys" k = false -> key_eqb "__key__" k = false ->
  key_eqb "__value__" k = false -> key_eqb "properties" k = false ->
  Dict.lookup k schema' = Dict.lookup k schema.
Proof.
  unfold setDictParamsSchema. intros H Hd Hk Hv Hp.
  apply bind_inv_Ret in H. destruct H as (t1 & subParams & t2 & _ & H & _).
  apply bind_inv_Ret in H. destruct H as (t3 & properties & t4 & _ & H & _).
  apply bind_inv_Ret in H. destruct H as (t5 & schema1 & t6 & H1 & H & _).
  injection H as _ <-. rewrite lookup_set_neq by exact Hp.
  destruct (is_str (get param "dynamic_keys") "true").
  - eapply setDynamicKeys_lookup; eauto.
  - apply bind_inv_Ret in H1. destruct H1 as (? & ? & ? & _ & H1 & _).
    now injection H1 as _ <-.
Qed.

(** X4.  For a parameter whose type is a key of the table and that has no
    [value], whatever the type is (scalar, list, dict or a disjunction):
    the object that [getJsonParam] returns is the envelope [name] (when
    not empty), [description], [schema] and the extra attributes; the
    [type] of the schema is the mapped type, a tuple for a disjunction;
    the schema has a [pattern] exactly when the entry declares one; and
    the description is the comment of the element, after the comment of
    the entry and [", "] when the entry has one. *)
Theorem getJsonParam_envelope :
  forall branch fuel param t entry tr obj,
    get param "type" = Some t ->
    table_get t paramTypeMapping = Some entry ->
    truthy (get param "value") = false ->
    getJsonParam branch (S fuel) param = (tr, Ret (Some obj)) ->
    exists schema,
      obj = addParamExtraAttrs param
              (Dict.update
                 (if truthy (get param "name")
                  then [(KStr "name", of_opt (get param "name"))] else [])
                 [(KStr "description",
                    PStr (if comment entry =? "" then get_or param "comment" ""
                          else (comment entry ++ ", "
                                  ++ get_or param "comment" "")%string));
                  (KStr "schema", PDict schema)])
      /\ Dict.lookup "schema" obj = Some (PDict schema)
      /\ Dict.lookup "type" schema = Some (of_type (type entry))
      /\ Dict.lookup "pattern" schema
         = (if pattern entry =? "" then None else Some (PStr (pattern entry))).
Proof.
  intros branch fuel param t entry tr obj Ht Htab Hv H.
  rewrite (getJsonParam_typed _ _ _ _ _ Ht Htab Hv) in H.
  apply bind_inv_Ret in H. destruct H as (t1 & schema1 & t2 & H1 & H & _).
  apply bind_inv_Ret in H. destruct H as (t3 & schema & t4 & H2 & H & _).
  injection H as _ <-.
  assert (Hty1 : Dict.lookup "type" schema1 = Some (of_type (type entry))
                 /\ Dict.lookup "pattern" schema1 = None).
  { destruct (array_in (type entry)).
    - split; rewrite (getListSchema_lookup _ _ _ _ _ _ _ H1) by reflexivity;
        reflexivity.
    - injection H1 as _ <-. split; reflexivity. }
  destruct Hty1 as [Hty1 Hpat1].
  exists schema. split.
  { destruct (comment entry =? ""); reflexivity. }
  split.
  { rewrite lookup_addParamExtraAttrs by reflexivity.
    unfold Dict.update. cbn [fold_left fst snd]. apply lookup_set_eq. }
  destruct (pattern entry =? ""); cbn [negb] in H2.
  - destruct (t =? "dict").
    + split; rewrite (setDictParamsSchema_lookup _ _ _ _ _ _ _ H2) by reflexivity;
        assumption.
    + injection H2 as _ <-. auto.
  - injection H2 as _ <-. split.
    + now rewrite lookup_set_neq.
    + apply lookup_set_eq.
Qed.

Lemma getJsonParam_envelope_witness :
  exists schema,
    Dict.lookup "type" schema = Some (PTuple [PStr "string"; PStr "null"])
    /\ Dict.lookup "pattern" schema
       = (if datetimePattern =? "" then None else Some (PStr datetimePattern)).
Proof.
  destruct (getJsonParam_envelope "main" 0
              (mkElement "param" [("name", "until"); ("type", "datetime, null")] [])
              "datetime, null"
              (mkParamType (Several ["string"; "null"]) "datetime or null"
                           datetimePattern)
              [] _ eq_refl eq_refl eq_refl eq_refl)
    as (schema & _ & _ & Hty & Hpat).
  exists schema. split; assumption.
Defined.

(** ** The loops as ordered collections *)

(** X5.  [getParams] returns, in document order, what [getJsonParam]
    returned for the [<param>] children that have a non-empty name; other
    children, and parameters that are converted to [None], leave no
    entry. *)
Theorem getParams_collects :
  forall branch self cs params tr ps,
    getParams_loop branch self cs params = (tr, Ret ps) ->
    ps = params ++ flat_map (fun c => returned (self c)) (filter named_param cs)
    /\ forall c, In c (filter named_param cs) ->
                 exists trc r, self c = (trc, Ret r).
Proof.
  intros branch self cs. induction cs as [|c cs IH]; intros params tr ps H.
  - injection H as _ <-. split; [now rewrite app_nil_r|]. intros c [].
  - cbn [getParams_loop] in H. cbn [filter].
    destruct (tag c =? "param") eqn:Et; cbn [negb] in H.
    2:{ replace (named_param c) with false
          by (unfold named_param; now rewrite Et).
        eauto. }
    destruct (truthy (get c "name")) eqn:En; cbn [negb] in H.
    2:{ replace (named_param c) with false
          by (unfold named_param; now rewrite Et, En).
        apply bind_inv_Ret in H. destruct H as (t1 & [] & t2 & _ & H & _).
        eauto. }
    replace (named_param c) with true
      by (unfold named_param; now rewrite Et, En).
    apply bind_inv_Ret in H. destruct H as (t1 & j & t2 & Hj & H & _).
    cbn [flat_map]. unfold returned at 1. rewrite Hj. cbn [result snd].
    destruct j as [j|]; cbv iota; apply IH in H; destruct H as [-> Hall].
    + split; [symmetry; apply app_assoc|].
      intros c' [<-|Hin]; [eauto|auto].
    + split; [reflexivity|].
      intros c' [<-|Hin]; [eauto|auto].
Qed.

Lemma getParams_collects_witness :
  [[(KStr "name", PStr "kind"); (KStr "enum", PList [PStr "a"; PStr "b"]);
    (KStr "default", PStr "a")]]
  = [] ++ flat_map (fun c => returned (getJsonParam "main" 1 c))
                   (filter named_param
                      [mkElement "note" [] []; Sample.choice_ab;
                       mkElement "param" [("type", "int")] []]).
Proof.
  exact (proj1 (getParams_collects "main" (getJsonParam "main" 1)
                  [mkElement "note" [] []; Sample.choice_ab;
                   mkElement "param" [("type", "int")] []]
                  [] _ _ eq_refl)).
Defined.

(** X6.  The method loop of [convertSubsystem], when it runs to its end,
    has collected in document order the descriptors of the [<method>]
    children that [getJsonMethod] converted, and every [<method>] child
    has an [auth_type]. *)
Theorem convertSubsystem_loop_collects :
  forall fuel branch hn cs methods tr ms,
    convertSubsystem_loop fuel branch hn cs methods = (tr, Ret (Some ms)) ->
    ms = methods ++ flat_map (method_descriptor fuel branch hn) (filter is_method cs)
    /\ forall m, In m (filter is_method cs) -> get m "auth_type" <> None.
Proof.
  intros fuel branch hn cs. induction cs as [|c cs IH]; intros methods tr ms H.
  - injection H as _ <-. split; [now rewrite app_nil_r|]. intros m [].
  - cbn [convertSubsystem_loop] in H. cbn [filter].
    destruct (tag c =? "method") eqn:Et; cbn [negb] in H.
    2:{ replace (is_method c) with false by (unfold is_method; now rewrite Et).
        eauto. }
    replace (is_method c) with true by (unfold is_method; now rewrite Et).
    destruct (get c "auth_type") as [a|] eqn:Ea.
    2:{ apply bind_inv_Ret in H. destruct H as (? & ? & ? & _ & H & _).
        discriminate. }
    apply bind_inv_Ret in H. destruct H as (t1 & auth & t2 & Hauth & H & _).
    apply bind_inv_Ret in H. destruct H as (t3 & j & t4 & Hj & H & _).
    cbn [flat_map]. unfold method_descriptor at 1, returned.
    rewrite Ea, Hauth. cbn [result snd]. rewrite Hj. cbn [snd].
    destruct j as [j|]; cbv iota; apply IH in H; destruct H as [-> Hall].
    + split; [symmetry; apply app_assoc|].
      intros m [<-|Hin]; [congruence|auto].
    + split; [reflexivity|].
      intros m [<-|Hin]; [congruence|auto].
Qed.

Lemma convertSubsystem_loop_collects_witness :
  exists ms,
    convertSubsystem_loop 1 "main" "user"
      [Sample.method_untyped; mkElement "note" [] []; Sample.method_int] []
      = ([NoOutputTypeNorValue "main" Sample.method_untyped], Ret (Some ms))
    /\ ms = [] ++ flat_map (method_descriptor 1 "main" "user")
                     (filter is_method
                        [Sample.method_untyped; mkElement "note" [] [];
                         Sample.method_int]).
Proof.
  eexists. split; [reflexivity|].
  exact (proj1 (convertSubsystem_loop_collects 1 "main" "user"
                  [Sample.method_untyped; mkElement "note" [] []; Sample.method_int]
                  [] _ _ eq_refl)).
Defined.

(** X7.  Children with another tag are not looked at: [getParams] skips
    what is not a [<param>], the method loop what is not a [<method>], and
    [convert] what is not a [<handler>], without any event. *)
Theorem other_children_are_skipped :
  (forall branch self cs params,
      getParams_loop branch self cs params
      = getParams_loop branch self (filter (fun c => tag c =? "param") cs) params)
  /\ (forall fuel branch hn cs methods,
         convertSubsystem_loop fuel branch hn cs methods
         = convertSubsystem_loop fuel branch hn (filter is_method cs) methods)
  /\ (forall fuel cs branch outDir,
         convert_loop fuel cs branch outDir
         = convert_loop fuel (filter is_handler cs) branch outDir).
Proof.
  split; [|split].
  - intros branch self cs. induction cs as [|c cs IH]; intros params;
      [reflexivity|].
    cbn [filter getParams_loop].
    destruct (tag c =? "param") eqn:E; cbn [negb]; [|apply IH].
    cbn [getParams_loop]. rewrite E. cbn [negb].
    destruct (negb (truthy (get c "name"))).
    + apply bind_ext. intros _. apply IH.
    + apply bind_ext. intros [j|]; apply IH.
  - intros fuel branch hn cs. induction cs as [|c cs IH]; intros methods;
      [reflexivity|].
    cbn [filter convertSubsystem_loop]. unfold is_method at 1.
    destruct (tag c =? "method") eqn:E; cbn [negb]; [|apply IH].
    cbn [convertSubsystem_loop]. rewrite E. cbn [negb].
    destruct (get c "auth_type"); [|reflexivity].
    apply bind_ext. intros auth. apply bind_ext. intros [j|]; apply IH.
  - intros fuel cs branch outDir. induction cs as [|c cs IH]; [reflexivity|].
    cbn [filter convert_loop]. unfold is_handler at 1.
    destruct (tag c =? "handler") eqn:E; cbn [negb]; [|apply IH].
    cbn [convert_loop]. rewrite E. cbn [negb].
    apply bind_ext. intros _. apply IH.
Qed.

(** ** List schemas *)

Lemma lookup_update_none k d other :
  Dict.lookup k other = None -> Dict.lookup k (Dict.update d other) = Dict.lookup k d.
Proof.
  unfold Dict.update. revert d.
  induction other as [|[k' v'] other IH]; intros d H; [reflexivity|].
  cbn [Dict.lookup] in H. destruct (key_eqb k' k) eqn:E; [discriminate|].
  cbn [fold_left fst snd]. rewrite IH by exact H. now apply lookup_set_neq.
Qed.

(** The keys that [getChoiceJsonParam] can emit. *)
Lemma getChoiceJsonParam_lookup_other param tr obj k :
  getChoiceJsonParam param = (tr, Ret (Some obj)) ->
  key_eqb "name" k = false -> key_eqb "description" k = false ->
  key_eqb "enum" k = false -> key_eqb "default" k = false ->
  key_eqb "value_comment" k = false ->
  Dict.lookup k obj = None.
Proof.
  intros H Hn Hd He Hf Hc. unfold getChoiceJsonParam in H.
  apply bind_inv_Ret in H. destruct H as (t1 & r & t2 & _ & H & _).
  destruct r as [[[values comments] default]|]; [|discriminate].
  apply bind_inv_Ret in H. destruct H as (t3 & [] & t4 & _ & H & _).
  injection H as _ <-.
  destruct (truthy (get param "name")), (get param "comment"), default, comments;
    repeat (rewrite lookup_set_neq by assumption);
    cbn [Dict.lookup]; rewrite ?Hn, ?Hd, ?He, ?Hf, ?Hc; reflexivity.
Qed.

Lemma getListItemSchema_no_index branch self item tr s :
  getListItemSchema branch self item = (tr, Ret (Some s)) ->
  Dict.lookup "index" s = None.
Proof.
  unfold getListItemSchema. intros H.
  destruct (negb (truthy (get item "type"))).
  { apply bind_inv_Ret in H. destruct H as (? & ? & ? & _ & H & _). discriminate. }
  destruct (is_str (get item "type") "choice").
  { apply bind_inv_Ret in H. destruct H as (t1 & tmp & t2 & Htmp & H & _).
    destruct tmp as [tmp|]; [|discriminate]. injection H as _ <-.
    assert (Hu : Dict.lookup "index"
                   (Dict.update [(KStr "title", PStr (get_or item "comment" ""))] tmp)
                 = None).
    { rewrite lookup_update_none; [reflexivity|].
      eapply getChoiceJsonParam_lookup_other; eauto. }
    destruct (Dict.mem "description" _); [|exact Hu].
    now rewrite lookup_remove_neq. }
  destruct (is_str (get item "type") "dict").
  { apply bind_inv_Ret in H. destruct H as (t1 & params & t2 & _ & H & _).
    injection H as _ <-.
    destruct (is_str (get item "dynamic_keys") "true"); reflexivity. }
  now injection H as _ <-.
Qed.

(** X8.  In the schema list of a list with several [<item>] children each
    entry carries as [index] the position of its [<item>] among them,
    counted from 0; an item that is dropped leaves a gap in the indices. *)
Theorem getMultiTypeListItemSchema_indices :
  forall branch self items index acc tr l,
    getMultiTypeListItemSchema_loop branch self items index acc = (tr, Ret l) ->
    map (Dict.lookup "index") l
    = map (Dict.lookup "index") acc
      ++ flat_map (fun p =>
                     match returned (getListItemSchema branch self (snd p)) with
                     | [] => []
                     | _ => [Some (PInt (Z.of_nat (fst p)))]
                     end)
                  (combine (seq index (List.length items)) items).
Proof.
  intros branch self items.
  induction items as [|item items IH]; intros index acc tr l H.
  - injection H as _ <-. cbn. now rewrite app_nil_r.
  - cbn [getMultiTypeListItemSchema_loop] in H.
    apply bind_inv_Ret in H. destruct H as (t1 & s & t2 & Hs & H & _).
    cbn [List.length seq combine flat_map fst snd].
    unfold returned at 1. rewrite Hs. cbn [result snd].
    destruct s as [s|]; cbv iota; apply IH in H; rewrite H; [|reflexivity].
    rewrite map_app, <- app_assoc. f_equal. cbn [map app]. f_equal.
    rewrite lookup_update_none; [reflexivity|].
    eapply getListItemSchema_no_index; eauto.
Qed.

Lemma getMultiTypeListItemSchema_indices_witness :
  exists tr l,
    getMultiTypeListItemSchema "main" (getJsonParam "main" 0)
      [Sample.item_int; mkElement "item" [] []; mkElement "item" [("type", "str")] []]
    = (tr, Ret l)
    /\ map (Dict.lookup "index") l = [Some (PInt 0); Some (PInt 2)].
Proof.
  eexists _, _. split; [reflexivity|].
  exact (getMultiTypeListItemSchema_indices "main" (getJsonParam "main" 0)
           [Sample.item_int; mkElement "item" [] []; mkElement "item" [("type", "str")] []]
           0 [] _ _ eq_refl).
Defined.



(** X10.  An [<item type="choice">] is converted like a choice parameter,
    with the comment as [title] instead of [description]: the fragment
    has the comment of the item (or the empty string) as [title], no
    [description] key, and the enumeration and default of
    [getChoiceJsonParam]; when that returns [None], so does
    [getListItemSchema]. *)
Theorem getListItemSchema_choice :
  forall branch self item tr r,
    is_str (get item "type") "choice" = true ->
    getListItemSchema branch self item = (tr, Ret r) ->
    match r with
    | Some j =>
        exists obj,
          getChoiceJsonParam item = (tr, Ret (Some obj))
          /\ Dict.lookup "title" j = Some (PStr (get_or item "comment" ""))
          /\ Dict.mem "description" j = false
          /\ Dict.lookup "enum" j = Dict.lookup "enum" obj
          /\ Dict.lookup "default" j = Dict.lookup "default" obj
    | None => getChoiceJsonParam item = (tr, Ret None)
    end.
Proof.
  intros branch self item tr r Hc H. unfold getListItemSchema in H.
  assert (Ht : truthy (get item "type") = true).
  { destruct (get item "type") as [t|]; [|discriminate].
    cbn [is_str] in Hc. apply String.eqb_eq in Hc. now subst. }
  rewrite Ht, Hc in H. cbn [negb] in H.
  apply bind_inv_Ret in H. destruct H as (t1 & tmp & t2 & Htmp & H & ->).
  destruct tmp as [obj|].
  2:{ injection H as <- <-. now rewrite app_nil_r. }
  injection H as <- <-. rewrite app_nil_r. exists obj. split; [exact Htmp|].
  clear Ht Hc. unfold getChoiceJsonParam in Htmp.
  apply bind_inv_Ret in Htmp. destruct Htmp as (t3 & l & t4 & _ & Htmp & _).
  destruct l as [[[values comments] default]|]; [|discriminate].
  apply bind_inv_Ret in Htmp. destruct Htmp as (t5 & [] & t6 & _ & Htmp & _).
  injection Htmp as _ <-.
  destruct (truthy (get item "name")), (get item "comment"), default, comments;
    repeat split; reflexivity.
Qed.

Lemma getListItemSchema_choice_witness :
  exists obj,
    getChoiceJsonParam
      (mkElement "item" [("type", "choice"); ("comment", "kind")]
                 [mkElement "choice" [("value", "a")] []])
      = ([], Ret (Some obj))
    /\ Dict.lookup "title"
         [(KStr "title", PStr "kind"); (KStr "enum", PList [PStr "a"])]
       = Some (PStr (get_or (mkElement "item" [("type", "choice"); ("comment", "kind")]
                                       [mkElement "choice" [("value", "a")] []])
                            "comment" ""))
    /\ Dict.mem "description"
         [(KStr "title", PStr "kind"); (KStr "enum", PList [PStr "a"])] = false
    /\ Dict.lookup "enum"
         [(KStr "title", PStr "kind"); (KStr "enum", PList [PStr "a"])]
       = Dict.lookup "enum" obj
    /\ Dict.lookup "default"
         [(KStr "title", PStr "kind"); (KStr "enum", PList [PStr "a"])]
       = Dict.lookup "default" obj.
Proof.
  exact (getListItemSchema_choice "main" (getJsonParam "main" 0)
           (mkElement "item" [("type", "choice"); ("comment", "kind")]
                      [mkElement "choice" [("value", "a")] []])
           [] (Some [(KStr "title", PStr "kind"); (KStr "enum", PList [PStr "a"])])
           eq_refl eq_refl).
Defined.

(** ** Dict parameters *)

(** [getJsonParam] on a [dict] parameter whose sub-parameters are
    converted: what is left is the part on dynamic keys. *)
Lemma getJsonParam_dict branch fuel param trp params :
  get param "type" = Some "dict" ->
  get param "value" = None ->
  getParams branch (getJsonParam branch fuel) param = (trp, Ret params) ->
  exists properties,
    setDictParamsSchema_loop params [] = ([], Ret properties)
    /\ getJsonParam branch (S fuel) param =
         (schema <-
            ((trp, Ret tt) ;;
             if is_str (get param "dynamic_keys") "true"
             then setDynamicKeys (getJsonParam branch fuel) param
                                 [(KStr "type", PStr "object")]
             else when (match find param "key" with
                        | Some _ => true
                        | None => false
                        end) (print ForgotDynamicKeys) ;;
                  ret [(KStr "type", PStr "object")]) ;;
          ret (Some (addParamExtraAttrs param
                       (Dict.update
                          (if truthy (get param "name")
                           then [(KStr "name", of_opt (get param "name"))] else [])
                          [(KStr "description", PStr (get_or param "comment" ""));
                           (KStr "schema",
                             PDict (Dict.set "properties" (PDict properties)
                                             schema))])))).
Proof.
  intros Ht Hv Hps.
  destruct (setDictParamsSchema_loop_returns params (getParams_names _ _ _ _ _ Hps) [])
    as [properties Hprops].
  exists properties. split; [exact Hprops|].
  rewrite (getJsonParam_typed _ _ _ _ _ Ht dict_entry) by now rewrite Hv.
  cbn [type pattern comment].
  replace (array_in (One "object")) with false by reflexivity.
  replace ("dict" =? "dict") with true by reflexivity.
  replace ("" =? "") with true by reflexivity.
  cbn [negb of_type]. rewrite bind_ret_l.
  unfold setDictParamsSchema.
  rewrite (bind_assoc (trp, Ret tt)), (bind_Ret (trp, Ret tt) _ trp tt eq_refl).
  rewrite bind_assoc, (bind_Ret _ _ _ _ Hps).
  rewrite bind_assoc, (bind_Ret _ _ _ _ Hprops).
  cbn [events result fst snd app].
  rewrite bind_assoc.
  match goal with
  | |- (_ ++ events ?x, result ?x) = (_ ++ events ?y, result ?y) =>
      assert (Hxy : x = y); [|now rewrite Hxy]
  end.
  apply bind_ext. intros schema. now rewrite bind_ret_l.
Qed.

(** X11.  A [dict] parameter (with no [value] of its own) whose
    sub-parameters are converted.  Unless [dynamic_keys] is exactly
    ["true"], its schema is the type and the properties, and a [<key>]
    child only earns the diagnostic on the forgotten attribute.  With
    [dynamic_keys="true"] and no [<key>] child the schema has
    [dynamic_keys] true and the properties, nothing is printed, and a
    [<value>] child is not looked at. *)
Theorem dict_schema_without_key :
  forall branch fuel param trp params,
    get param "type" = Some "dict" ->
    get param "value" = None ->
    getParams branch (getJsonParam branch fuel) param = (trp, Ret params) ->
    exists properties obj,
      setDictParamsSchema_loop params [] = ([], Ret properties)
      /\ (is_str (get param "dynamic_keys") "true" = false ->
          getJsonParam branch (S fuel) param
            = (trp ++ match find param "key" with
                      | Some _ => [ForgotDynamicKeys]
                      | None => []
                      end,
               Ret (Some obj))
          /\ Dict.lookup "schema" obj
             = Some (PDict [(KStr "type", PStr "object");
                            (KStr "properties", PDict properties)]))
      /\ (is_str (get param "dynamic_keys") "true" = true ->
          find param "key" = None ->
          getJsonParam branch (S fuel) param = (trp, Ret (Some obj))
          /\ Dict.lookup "schema" obj
             = Some (PDict [(KStr "type", PStr "object");
                            (KStr "dynamic_keys", PBool true);
                            (KStr "properties", PDict properties)])).
Proof.
  intros branch fuel param trp params Ht Hv Hps.
  destruct (getJsonParam_dict _ _ _ _ _ Ht Hv Hps) as (properties & Hprops & Hobj).
  exists properties. rewrite Hobj. clear Hobj.
  destruct (is_str (get param "dynamic_keys") "true").
  - unfold setDynamicKeys. destruct (find param "key") as [key|].
    + exists []. split; [exact Hprops|]. split; [discriminate|].
      intros _ Hk. discriminate.
    + eexists. split; [exact Hprops|]. split; [discriminate|]. intros _ _.
      cbv beta iota delta [bind ret]. rewrite !app_nil_r.
      split; [reflexivity|].
      rewrite lookup_addParamExtraAttrs by reflexivity.
      unfold Dict.update. cbn [fold_left fst snd]. apply lookup_set_eq.
  - eexists. split; [exact Hprops|]. split; [|discriminate]. intros _.
    assert (Hw : (when (match find param "key" with
                        | Some _ => true
                        | None => false
                        end) (print ForgotDynamicKeys) ;;
                  ret [(KStr "type", PStr "object")])
                 = (match find param "key" with
                    | Some _ => [ForgotDynamicKeys]
                    | None => []
                    end, Ret [(KStr "type", PStr "object")]) :> M dict).
    { destruct (find param "key"); reflexivity. }
    rewrite Hw. cbv beta iota delta [bind ret]. rewrite !app_nil_r.
    split; [reflexivity|].
    rewrite lookup_addParamExtraAttrs by reflexivity.
    unfold Dict.update. cbn [fold_left fst snd]. apply lookup_set_eq.
Qed.

Lemma dict_schema_without_key_witness :
  exists properties obj,
    setDictParamsSchema_loop
      [[(KStr "name", PStr "x"); (KStr "description", PStr "");
        (KStr "schema", PDict [(KStr "type", PStr "number")])]] []
      = ([], Ret properties)
    /\ getJsonParam "main" 2
         (mkElement "param" [("name", "d"); ("type", "dict"); ("dynamic_keys", "True")]
                    [Sample.key_str; mkElement "param" [("name", "x"); ("type", "int")] []])
       = ([] ++ match find (mkElement "param"
                              [("name", "d"); ("type", "dict"); ("dynamic_keys", "True")]
                              [Sample.key_str;
                               mkElement "param" [("name", "x"); ("type", "int")] []])
                           "key" with
                | Some _ => [ForgotDynamicKeys]
                | None => []
                end,
          Ret (Some obj))
    /\ Dict.lookup "schema" obj
       = Some (PDict [(KStr "type", PStr "object");
                      (KStr "properties", PDict properties)]).
Proof.
  destruct (dict_schema_without_key "main" 1
              (mkElement "param" [("name", "d"); ("type", "dict"); ("dynamic_keys", "True")]
                         [Sample.key_str;
                          mkElement "param" [("name", "x"); ("type", "int")] []])
              [] _ eq_refl eq_refl eq_refl)
    as (properties & obj & Hp & Hn & _).
  destruct (Hn eq_refl) as [Hret Hsch].
  exists properties, obj. split; [exact Hp|]. split; assumption.
Defined.

(** X12.  In a [dict] parameter with [dynamic_keys="true"] and a [<key>],
    a [<value>] child that [getJsonParam] converts to [None] (a choice
    whose children are not all [<choice>] elements with a value) makes
    [setDynamicKeys] test ["schema" in None]: the conversion ends with an
    uncaught [TypeError]. *)
Theorem dict_value_none_raises_TypeError :
  forall branch fuel param trp params key value trv,
    get param "type" = Some "dict" ->
    get param "dynamic_keys" = Some "true" ->
    get param "value" = None ->
    getParams branch (getJsonParam branch fuel) param = (trp, Ret params) ->
    find param "key" = Some key ->
    find param "value" = Some value ->
    getJsonParam branch fuel value = (trv, Ret None) ->
    getJsonParam branch (S fuel) param = (trp ++ trv, Raise TypeError).
Proof.
  intros branch fuel param trp params key value trv Ht Hdk Hv Hps Hk Hval Hnone.
  destruct (getJsonParam_dict _ _ _ _ _ Ht Hv Hps) as (properties & _ & ->).
  rewrite Hdk. cbn [is_str]. replace ("true" =? "true") with true by reflexivity.
  unfold setDynamicKeys. rewrite Hk, Hval, Hnone.
  cbv beta iota delta [bind ret raise]. now rewrite !app_nil_r.
Qed.

Lemma dict_value_none_raises_TypeError_witness :
  getJsonParam "main" 2
    (mkElement "param" [("name", "d"); ("type", "dict"); ("dynamic_keys", "true")]
               [Sample.key_str;
                mkElement "value" [("type", "choice")] [mkElement "note" [] []]])
  = ([] ++ [], Raise TypeError).
Proof.
  apply (dict_value_none_raises_TypeError "main" 1
           (mkElement "param" [("name", "d"); ("type", "dict"); ("dynamic_keys", "true")]
                      [Sample.key_str;
                       mkElement "value" [("type", "choice")] [mkElement "note" [] []]])
           [] [] Sample.key_str
           (mkElement "value" [("type", "choice")] [mkElement "note" [] []]) []);
    reflexivity.
Defined.

(** ** Choice parameters that are dropped, or empty *)

Lemma getChoiceJsonParam_loop_app pre rest :
  forall values comments default,
    getChoiceJsonParam_loop (pre ++ rest) values comments default
    = (r <- getChoiceJsonParam_loop pre values comments default ;;
       match r with
       | Some (values', comments', default') =>
           getChoiceJsonParam_loop rest values' comments' default'
       | None => ret None
       end).
Proof.
  induction pre as [|c pre IH]; intros values comments default.
  - cbn [app getChoiceJsonParam_loop]. now rewrite bind_ret_l.
  - cbn [app getChoiceJsonParam_loop].
    destruct (negb (tag c =? "choice")); [now rewrite bind_ret_l|].
    destruct (get c "value") as [value|].
    + rewrite bind_assoc. apply bind_ext. intros kv. apply IH.
    + rewrite bind_assoc. apply bind_ext. intros _. now rewrite bind_ret_l.
Qed.

Lemma getChoiceJsonParam_loop_diags cs :
  Forall choice_ok cs ->
  forall values comments default,
    Forall (fun d => exists c, d = InvalidChoiceValue c)
           (events (getChoiceJsonParam_loop cs values comments default)).
Proof.
  induction 1 as [|c cs (Htag & value & Hv & Hint) _ IH];
    intros values comments default.
  - constructor.
  - cbn [getChoiceJsonParam_loop]. rewrite Htag, Hv.
    replace ("choice" =? "choice") with true by reflexivity. cbn [negb].
    match goal with
    | |- Forall _ (events (bind ?m ?k)) =>
        assert (Hm : exists tv kv, m = (tv, Ret kv)
                                   /\ Forall (fun d => exists c, d = InvalidChoiceValue c) tv)
    end.
    { destruct (truthy (get c "type")); [|now exists [], (KStr value)].
      destruct (is_str (get c "type") "int") eqn:Ei.
      - destruct (get c "type") as [ty|]; [|discriminate].
        cbn [is_str] in Ei. apply String.eqb_eq in Ei. subst ty.
        specialize (Hint eq_refl).
        destruct (PyStr.int value) as [z|]; [|congruence].
        now exists [], (KInt z).
      - destruct (is_str (get c "type") "str"); [now exists [], (KStr value)|].
        exists [InvalidChoiceValue c], (KStr value). split; [reflexivity|].
        constructor; [now exists c|constructor]. }
    destruct Hm as (tv & kv & -> & Htv).
    rewrite (bind_Ret _ _ _ _ eq_refl). cbn [events fst].
    apply Forall_app. split; [exact Htv|apply IH].
Qed.

Lemma getJsonParam_choice branch fuel param :
  get param "type" = Some "choice" ->
  getJsonParam branch (S fuel) param = getChoiceJsonParam param.
Proof.
  intros Ht. cbn [getJsonParam]. unfold getJsonParam_body. rewrite Ht.
  cbn [truthy is_str]. replace ("choice" =? "") with false by reflexivity.
  replace ("choice" =? "choice") with true by reflexivity.
  cbn [negb when]. now rewrite bind_ret_l.
Qed.

(** X13.  A choice parameter is given up at the first child that is not a
    [<choice>] element, silently, and at the first [<choice>] without a
    [value], with a diagnostic: [getJsonParam] returns [None], whatever
    follows that child, and [getParams] leaves the parameter out.  A
    choice parameter without children is reported and converted, with an
    empty enumeration. *)
Theorem choice_param_dropped_or_empty :
  forall branch fuel param,
    get param "type" = Some "choice" ->
    (forall pre c post,
        getchildren param = pre ++ c :: post ->
        Forall choice_ok pre ->
        (tag c <> "choice" ->
         exists tr, getJsonParam branch (S fuel) param = (tr, Ret None)
                    /\ forall x, ~ In (ChoiceNoValue x) tr)
        /\ (tag c = "choice" -> get c "value" = None ->
            exists tr, getJsonParam branch (S fuel) param
                       = (tr ++ [ChoiceNoValue c], Ret None)))
    /\ (forall tr,
           getJsonParam branch (S fuel) param = (tr, Ret None) ->
           tag param = "param" -> truthy (get param "name") = true ->
           forall cs params,
             getParams_loop branch (getJsonParam branch (S fuel)) (param :: cs) params
             = (tr ++ events (getParams_loop branch (getJsonParam branch (S fuel))
                                             cs params),
                result (getParams_loop branch (getJsonParam branch (S fuel))
                                       cs params)))
    /\ (getchildren param = [] ->
        exists obj,
          getJsonParam branch (S fuel) param = ([ChoiceNoValues param], Ret (Some obj))
          /\ Dict.lookup "enum" obj = Some (PList [])
          /\ Dict.mem "default" obj = false).
Proof.
  intros branch fuel param Ht. rewrite (getJsonParam_choice _ _ _ Ht).
  split; [|split].
  - intros pre c post Hch Hpre.
    destruct (getChoiceJsonParam_loop_spec pre Hpre [] [] None) as [tr Hloop].
    assert (Htr : forall x, ~ In (ChoiceNoValue x) tr).
    { intros x Hin.
      pose proof (getChoiceJsonParam_loop_diags pre Hpre [] [] None) as Hd.
      rewrite Hloop in Hd. cbn [events fst] in Hd.
      rewrite Forall_forall in Hd. destruct (Hd _ Hin) as [c' Hc']. discriminate. }
    unfold getChoiceJsonParam. rewrite Hch, getChoiceJsonParam_loop_app.
    rewrite (bind_Ret _ _ _ _ Hloop). cbn [getChoiceJsonParam_loop].
    split.
    + intros Htag. destruct (String.eqb_spec (tag c) "choice"); [contradiction|].
      cbn [negb]. exists tr. split; [|exact Htr].
      cbv beta iota delta [bind ret events result fst snd]. now rewrite !app_nil_r.
    + intros Htag Hv. rewrite Htag, Hv.
      replace ("choice" =? "choice") with true by reflexivity. cbn [negb].
      exists tr.
      cbv beta iota delta [bind ret print events result fst snd].
      now rewrite !app_nil_r.
  - intros tr Hnone Htag Hname cs params. cbn [getParams_loop].
    rewrite Htag, Hname. replace ("param" =? "param") with true by reflexivity.
    cbn [negb]. rewrite (getJsonParam_choice _ _ _ Ht).
    now rewrite (bind_Ret _ _ _ _ Hnone).
  - intros Hch. unfold getChoiceJsonParam. rewrite Hch.
    cbn [getChoiceJsonParam_loop]. rewrite bind_ret_l.
    cbn [when]. eexists. split.
    + cbv beta iota delta [bind ret print events result fst snd when].
      reflexivity.
    + unfold Dict.mem.
      destruct (truthy (get param "name")), (get param "comment");
        split; reflexivity.
Qed.

Lemma choice_param_dropped_or_empty_witness :
  (exists tr,
      getJsonParam "main" 1
        (mkElement "param" [("name", "kind"); ("type", "choice")]
           [mkElement "choice" [("value", "a")] []; mkElement "note" [] [];
            mkElement "choice" [("value", "b")] []])
      = (tr, Ret None)
      /\ forall x, ~ In (ChoiceNoValue x) tr)
  /\ (exists obj,
         getJsonParam "main" 1 (mkElement "param" [("type", "choice")] [])
         = ([ChoiceNoValues (mkElement "param" [("type", "choice")] [])],
            Ret (Some obj))
         /\ Dict.lookup "enum" obj = Some (PList [])
         /\ Dict.mem "default" obj = false).
Proof.
  split.
  - destruct (choice_param_dropped_or_empty "main" 0
                (mkElement "param" [("name", "kind"); ("type", "choice")]
                   [mkElement "choice" [("value", "a")] []; mkElement "note" [] [];
                    mkElement "choice" [("value", "b")] []]) eq_refl) as (H & _ & _).
    destruct (H [mkElement "choice" [("value", "a")] []] (mkElement "note" [] [])
                [mkElement "choice" [("value", "b")] []] eq_refl) as [Hdrop _].
    + constructor; [|constructor]. split; [reflexivity|].
      exists "a". split; [reflexivity|discriminate].
    + apply Hdrop. discriminate.
  - destruct (choice_param_dropped_or_empty "main" 0
                (mkElement "param" [("type", "choice")] []) eq_refl) as (_ & _ & H).
    apply H. reflexivity.
Defined.

(** ** Python strings *)

(** [chars] cuts a string into its characters and loses no byte. *)
Lemma chars_encoding s : String.concat "" (map snd (PyStr.chars s)) = s.
Proof.
  assert (H : forall n s, (String.length s <= n)%nat ->
                          String.concat "" (map snd (PyStr.chars s)) = s).
  { clear s. induction n as [|n IH]; intros s Hs.
    - destruct s; [reflexivity|cbn in Hs; lia].
    - destruct s as [|c1 s1]; [reflexivity|].
      cbn [String.length] in Hs.
      assert (Hcat : forall e l, String.concat "" (e :: l)
                                 = (e ++ String.concat "" l)%string).
      { intros e l. destruct l as [|e' l]; cbn [String.concat].
        - clear. induction e; cbn; congruence.
        - reflexivity. }
      assert (H1 : String.concat ""
                     (map snd ((PyStr.invalid, String c1 EmptyString)
                                 :: PyStr.chars s1)) = String c1 s1).
      { cbn [map snd]. rewrite Hcat, IH by lia. reflexivity. }
      cbn [PyStr.chars].
      destruct (PyStr.width c1) as [|[|[|[|[|w]]]]]; try exact H1.
      + destruct s1 as [|c2 s2]; [exact H1|].
        destruct (PyStr.continuation c2); [|exact H1].
        cbn [map snd]. cbn [String.length] in Hs.
        rewrite Hcat, IH by lia. reflexivity.
      + destruct s1 as [|c2 [|c3 s3]]; try exact H1.
        destruct (PyStr.continuation c2 && PyStr.continuation c3); [|exact H1].
        cbn [map snd]. cbn [String.length] in Hs.
        rewrite Hcat, IH by lia. reflexivity.
      + destruct s1 as [|c2 [|c3 [|c4 s4]]]; try exact H1.
        destruct (PyStr.continuation c2 && PyStr.continuation c3
                  && PyStr.continuation c4); [|exact H1].
        cbn [map snd]. cbn [String.length] in Hs.
        rewrite Hcat, IH by lia. reflexivity. }
  apply (H (String.length s)). lia.
Qed.

(** [str.split]: the fields hold no comma, there is one more of them
    than there are commas, and the commas put back give the string. *)
Lemma split_comma_length s :
  List.length (PyStr.split_comma s) = S (commas s).
Proof.
  induction s as [|c s IH]; [reflexivity|].
  cbn [PyStr.split_comma commas].
  destruct (Ascii.eqb c ","); cbn [List.length].
  - now rewrite IH.
  - destruct (PyStr.split_comma s) as [|h t]; [discriminate|exact IH].
Qed.

Lemma split_comma_concat s : String.concat "," (PyStr.split_comma s) = s.
Proof.
  induction s as [|c s IH]; [reflexivity|].
  cbn [PyStr.split_comma].
  destruct (Ascii.eqb_spec c ",") as [->|Hc].
  - pose proof (split_comma_length s) as Hl.
    destruct (PyStr.split_comma s) as [|h t]; [discriminate|].
    cbn [String.concat]. cbn [String.concat] in IH. now rewrite IH.
  - pose proof (split_comma_length s) as Hl.
    destruct (PyStr.split_comma s) as [|h t]; [discriminate|].
    cbn [String.concat] in IH |- *.
    destruct t; cbn [append]; now rewrite <- IH.
Qed.

Lemma split_comma_fields s f :
  In f (PyStr.split_comma s) -> commas f = 0%nat.
Proof.
  revert f. induction s as [|c s IH]; intros f; cbn [PyStr.split_comma].
  - intros [<-|[]]. reflexivity.
  - destruct (Ascii.eqb c ",") eqn:Ec.
    + intros [<-|Hin]; [reflexivity|now apply IH].
    + destruct (PyStr.split_comma s) as [|h t].
      * intros [<-|[]]. cbn [commas]. now rewrite Ec.
      * intros [<-|Hin].
        -- cbn [commas]. rewrite Ec. apply IH. now left.
        -- apply IH. now right.
Qed.

(** What [int] and [str.strip] make of some strings. *)
Lemma int_examples :
  PyStr.int " 12 " = Some 12%Z
  /\ PyStr.int "-7" = Some (-7)%Z
  /\ PyStr.int "1_000" = Some 1000%Z
  /\ PyStr.int "1__0" = None
  /\ PyStr.int "+ 1" = None
  /\ PyStr.int "١٢" = Some 12%Z
  /\ PyStr.int " １２　" = Some 12%Z
  /\ PyStr.int "²" = None
  /\ PyStr.int "" = None.
Proof. repeat split; vm_compute; reflexivity. Qed.

Lemma strip_examples :
  PyStr.strip "  ADMIN  " = "ADMIN"
  /\ PyStr.strip " ADMIN　" = "ADMIN"
  /\ PyStr.strip "NORMAL USER" = "NORMAL USER"
  /\ PyStr.strip " " = "".
Proof. repeat split; vm_compute; reflexivity. Qed.

(** A choice whose values are written with digits of another script and
    with blanks around them. *)
Lemma choice_examples :
  getChoiceJsonParam
    (mkElement "param" [("name", "k"); ("type", "choice")]
       [mkElement "choice" [("value", "١٢"); ("default", "1")] [];
        mkElement "choice" [("value", " 7 "); ("type", "int")] [];
        mkElement "choice" [("value", "x"); ("type", "enum"); ("comment", "c")] []])
  = ([InvalidChoiceValue
        (mkElement "choice" [("value", "x"); ("type", "enum"); ("comment", "c")] [])],
     Ret (Some [(KStr "name", PStr "k");
                (KStr "enum", PList [PStr "١٢"; PInt 7; PStr "x"]);
                (KStr "default", PInt 12);
                (KStr "value_comment", PDict [(KStr "x", PStr "c")])])).
Proof. vm_compute. reflexivity. Qed.

(** ** Access levels and the result descriptor *)

Lemma check_auth_types_diags authTypes authTypesStr :
  check_auth_types authTypes authTypesStr
  = (map (fun t => BadAuthType t authTypesStr)
         (filter (fun t => negb (known_auth_type t)) authTypes),
     Ret tt).
Proof.
  induction authTypes as [|t l IH]; [reflexivity|].
  cbn [check_auth_types filter]. rewrite IH.
  destruct (negb (known_auth_type t)); reflexivity.
Qed.

(** X14.  The access levels of a method whose [auth_type] attribute is
    present.  An empty attribute stands for [ADMIN], [NORMAL_USER] and
    [VOIP_USER].  Otherwise the attribute is cut at its commas, into one
    more field than it has commas, and each field without the white space
    around it is a level, also when it is empty or unknown.  The method
    loop reports every level that is none of the four known ones, in
    order, and goes on as for known levels: the method is converted with
    all of them, and its descriptor lists them all. *)
Theorem auth_type_levels :
  forall fuel branch hn method a,
    tag method = "method" -> get method "auth_type" = Some a ->
    exists levels,
      result (authTypes_of a) = Ret levels
      /\ (a = "" -> levels = ["ADMIN"; "NORMAL_USER"; "VOIP_USER"])
      /\ (a <> "" ->
          exists fields,
            String.concat "," fields = a
            /\ Forall (fun f => commas f = 0%nat) fields
            /\ List.length levels = S (commas a)
            /\ levels = map PyStr.strip fields)
      /\ (forall cs methods,
             convertSubsystem_loop fuel branch hn (method :: cs) methods
             = ((map (fun t => BadAuthType t a)
                     (filter (fun t => negb (known_auth_type t)) levels),
                 Ret tt) ;;
                jsonMethod <- getJsonMethod branch fuel hn method levels ;;
                convertSubsystem_loop fuel branch hn cs
                  (methods ++ match jsonMethod with
                              | Some d => [d]
                              | None => []
                              end)))
      /\ (forall tr d,
             getJsonMethod branch fuel hn method levels = (tr, Ret (Some d)) ->
             Dict.lookup "auth_type" d = Some (PList (map PStr levels))).
Proof.
  intros fuel branch hn method a Htag Ha.
  assert (Hauth : exists levels,
             authTypes_of a
             = (map (fun t => BadAuthType t a)
                    (filter (fun t => negb (known_auth_type t)) levels),
                Ret levels)
             /\ (a = "" -> levels = ["ADMIN"; "NORMAL_USER"; "VOIP_USER"])
             /\ (a <> "" -> levels = map PyStr.strip (PyStr.split_comma a))).
  { unfold authTypes_of. destruct (String.eqb_spec a "") as [->|Hne]; cbn [negb].
    - exists ["ADMIN"; "NORMAL_USER"; "VOIP_USER"].
      split; [reflexivity|]. split; [reflexivity|]. intros H. now contradiction H.
    - eexists. rewrite check_auth_types_diags.
      split; [|split; [intros H; contradiction|reflexivity]].
      cbv beta iota delta [bind ret]. now rewrite app_nil_r. }
  destruct Hauth as (levels & Hlv & Hempty & Hsplit).
  exists levels. split; [now rewrite Hlv|]. split; [exact Hempty|].
  split; [|split].
  - intros Hne. exists (PyStr.split_comma a).
    split; [apply split_comma_concat|].
    split; [apply Forall_forall; intros f; apply split_comma_fields|].
    rewrite (Hsplit Hne). split; [|reflexivity].
    now rewrite length_map, split_comma_length.
  - intros cs methods.
    rewrite (convertSubsystem_loop_method _ _ _ _ _ _ _ Htag Ha), Hlv.
    rewrite (bind_Ret _ _ _ _ eq_refl), (bind_Ret _ _ _ _ eq_refl).
    match goal with
    | |- (_ ++ events ?x, result ?x) = (_ ++ events ?y, result ?y) =>
        assert (Hxy : x = y); [|now rewrite Hxy]
    end.
    apply bind_ext. intros [d|]; [reflexivity|now rewrite app_nil_r].
  - intros tr d H.
    apply getJsonMethod_inv in H.
    destruct H as (_ & _ & inp & out & trp & params & tro & _ & _ & _ & Ho & _).
    apply getJsonMethod_output_inv in Ho.
    destruct Ho as (rt & rv & rp & -> & _).
    unfold jsonMethod_head.
    destruct (truthy (get method "requires_perm"));
      repeat (rewrite lookup_set_neq by reflexivity); reflexivity.
Qed.

Lemma auth_type_levels_witness :
  exists levels,
    result (authTypes_of "ADMIN, guest ,") = Ret levels
    /\ List.length levels = 3%nat
    /\ convertSubsystem_loop 1 "main" "user"
         [mkElement "method" [("name", "count"); ("auth_type", "ADMIN, guest ,")]
            [Sample.input_empty; Sample.output_int]] []
       = ((map (fun t => BadAuthType t "ADMIN, guest ,")
               (filter (fun t => negb (known_auth_type t)) levels),
           Ret tt) ;;
          jsonMethod <- getJsonMethod "main" 1 "user"
                          (mkElement "method"
                             [("name", "count"); ("auth_type", "ADMIN, guest ,")]
                             [Sample.input_empty; Sample.output_int])
                          levels ;;
          convertSubsystem_loop 1 "main" "user" []
            ([] ++ match jsonMethod with
                   | Some d => [d]
                   | None => []
                   end)).
Proof.
  destruct (auth_type_levels 1 "main" "user"
              (mkElement "method" [("name", "count"); ("auth_type", "ADMIN, guest ,")]
                 [Sample.input_empty; Sample.output_int])
              "ADMIN, guest ,"
              eq_refl eq_refl)
    as (levels & H1 & _ & H3 & H4 & _).
  exists levels. split; [exact H1|]. split; [|exact (H4 [] [])].
  destruct H3 as (fields & _ & _ & Hl & _); [discriminate|exact Hl].
Defined.

(** X15.  The name of the result of a converted method.  It is
    ["Response (one of following values)"] when the output is a choice or
    has a non-empty [value].  Otherwise the output has a type of the
    table: the name is ["Response (T)"] for its mapped type [T], and when
    [T] is empty (the types [any] and [dynamic]) the result is just an
    empty name and the comment, with no schema, so the [<param>] children
    of the output are lost. *)
Theorem result_name :
  forall branch fuel hn method authTypes tr d,
    getJsonMethod branch fuel hn method authTypes = (tr, Ret (Some d)) ->
    exists outputElem result,
      find method "output" = Some outputElem
      /\ Dict.lookup "result" d = Some (PDict result)
      /\ Dict.lookup "comment" result = Some (PStr (get_or outputElem "comment" ""))
      /\ if is_str (get outputElem "type") "choice"
            || truthy (get outputElem "value")
         then Dict.lookup "name" result
              = Some (PStr "Response (one of following values)")
         else exists entry,
             table_get (get_or outputElem "type" "") paramTypeMapping = Some entry
             /\ if type_bool (type entry)
                then Dict.lookup "name" result
                     = Some (PStr ("Response (" ++ type_str (type entry) ++ ")")%string)
                else result = [(KStr "name", PStr "");
                               (KStr "comment", PStr (get_or outputElem "comment" ""))].
Proof.
  intros branch fuel hn method authTypes tr d H.
  apply getJsonMethod_inv in H.
  destruct H as (_ & _ & inp & out & trp & params & tro & _ & Hout & _ & Ho & _).
  apply getJsonMethod_output_inv in Ho.
  destruct Ho as (rt & rv & rp & -> & Hc & Hn).
  exists out, (result_object (get_or out "comment" "") rt rv rp).
  split; [exact Hout|]. split; [apply lookup_set_eq|].
  assert (Hcomment : Dict.lookup "comment"
                       (result_object (get_or out "comment" "") rt rv rp)
                     = Some (PStr (get_or out "comment" ""))).
  { unfold result_object.
    destruct rv, (type_bool (type rt));
      repeat (rewrite lookup_set_neq by reflexivity); reflexivity. }
  split; [exact Hcomment|].
  destruct (is_str (get out "type") "choice") eqn:Ech.
  - destruct (Hc eq_refl) as (_ & trv & vs & _ & ->). cbn [orb].
    unfold result_object. destruct (type_bool (type rt));
      repeat (rewrite lookup_set_neq by reflexivity); reflexivity.
  - destruct (Hn eq_refl) as (-> & Hrt). cbn [orb].
    destruct (truthy (get out "value")).
    + unfold result_object. destruct (type_bool (type rt));
        repeat (rewrite lookup_set_neq by reflexivity); reflexivity.
    + destruct (truthy (get out "type")); [|now destruct Hrt].
      exists rt. split; [exact Hrt|]. unfold result_object.
      destruct (type_bool (type rt)); [|reflexivity].
      rewrite lookup_set_neq by reflexivity. reflexivity.
Qed.

Lemma result_name_witness :
  exists outputElem result,
    find (mkElement "method" [("name", "get"); ("auth_type", "")]
            [Sample.input_empty;
             mkElement "output" [("type", "any"); ("comment", "c")]
                       [mkElement "param" [("name", "x"); ("type", "int")] []]])
         "output" = Some outputElem
    /\ result = [(KStr "name", PStr "");
                 (KStr "comment", PStr (get_or outputElem "comment" ""))].
Proof.
  destruct (result_name "main" 1 "user"
              (mkElement "method" [("name", "get"); ("auth_type", "")]
                 [Sample.input_empty;
                  mkElement "output" [("type", "any"); ("comment", "c")]
                            [mkElement "param" [("name", "x"); ("type", "int")] []]])
              ["ADMIN"] [] _ eq_refl)
    as (out & res & Hout & _ & _ & H).
  injection Hout as <-. cbn [is_str get assoc attrib String.eqb orb truthy] in H.
  destruct H as (entry & Hentry & H). injection Hentry as <-.
  eexists _, res. split; [reflexivity|]. exact H.
Defined.

(** ** What a run does to the file system *)

Lemma In_events_bind {E A B} (m : W E A) (f : A -> W E B) ev :
  In ev (events (bind m f)) ->
  In ev (events m) \/ exists a, result m = Ret a /\ In ev (events (f a)).
Proof.
  unfold bind. destruct m as [t [a|e|]]; cbn [events result fst snd]; auto.
  destruct (f a) as [t' r] eqn:Ef. cbn [fst]. intros Hin.
  apply in_app_or in Hin. destruct Hin as [Hin|Hin]; [now left|].
  right. exists a. rewrite Ef. auto.
Qed.

(** X16.  The only directory a run creates is [<outDir>/<branch>], and
    every file it writes is the document of a [<handler>] child with a
    non-empty name, at [join(<outDir>/<branch>, <name>.json)], holding the
    methods that the method loop of that handler collected; a run writes
    at most one file for each [<handler>] child. *)
Theorem convert_file_system_effects :
  forall fuel cs branch outDir,
    (forall ev,
        In ev (events (convert_loop fuel cs branch outDir)) ->
        match ev with
        | Stdout _ => True
        | Makedirs path => path = PyStr.join outDir branch
        | WriteFile path data =>
            exists h tr methods,
              In h cs /\ tag h = "handler" /\ truthy (get h "name") = true
              /\ path = PyStr.join (PyStr.join outDir branch)
                                   (get_or h "name" "" ++ ".json")%string
              /\ convertSubsystem_loop fuel branch (get_or h "name" "")
                                       (getchildren h) []
                 = (tr, Ret (Some methods))
              /\ data = document branch (get_or h "name" "") methods
        end)
    /\ List.length (writes (events (convert_loop fuel cs branch outDir)))
       <= List.length (filter is_handler cs).
Proof.
  intros fuel cs branch outDir.
  assert (Hone : forall h,
             (forall ev,
                 In ev (events (convertSubsystem fuel h branch outDir)) ->
                 match ev with
                 | Stdout _ => True
                 | Makedirs path => path = PyStr.join outDir branch
                 | WriteFile path data =>
                     exists tr methods,
                       truthy (get h "name") = true
                       /\ path = PyStr.join (PyStr.join outDir branch)
                                            (get_or h "name" "" ++ ".json")%string
                       /\ convertSubsystem_loop fuel branch (get_or h "name" "")
                                                (getchildren h) []
                          = (tr, Ret (Some methods))
                       /\ data = document branch (get_or h "name" "") methods
                 end)
             /\ List.length (writes (events (convertSubsystem fuel h branch outDir)))
                <= 1).
  { intros h. destruct (truthy (get h "name")) eqn:Hn.
    - destruct (convertSubsystem_loop fuel branch (get_or h "name" "")
                  (getchildren h) []) as [tr r] eqn:E.
      rewrite (convertSubsystem_named _ _ _ _ _ _ Hn E). cbn [events fst]. split.
      + intros ev [<-|Hin]; [reflexivity|].
        apply in_app_or in Hin. destruct Hin as [Hin|Hin].
        * apply in_map_iff in Hin. destruct Hin as (d & <- & _). exact I.
        * destruct r as [[methods|]|e|]; try contradiction.
          destruct Hin as [<-|[]]. now exists tr, methods.
      + cbn [writes filter is_write]. rewrite filter_app.
        fold (writes (map Stdout tr)). rewrite writes_Print.
        destruct r as [[methods|]|e|]; cbn; lia.
    - rewrite (convertSubsystem_unnamed _ _ _ _ Hn). split.
      + intros ev [<-|[]]. exact I.
      + cbn. lia. }
  induction cs as [|h cs [IHev IHlen]].
  - split; [intros ev []|cbn; lia].
  - cbn [convert_loop filter]. unfold is_handler at 1.
    destruct (tag h =? "handler") eqn:Eh; cbn [negb].
    2:{ split; [|exact IHlen].
        intros ev Hin. specialize (IHev ev Hin).
        destruct ev; auto.
        destruct IHev as (h' & tr & ms & Hin' & Hrest).
        exists h', tr, ms. split; [now right|exact Hrest]. }
    destruct (Hone h) as [Hev Hlen]. split.
    + intros ev Hin. apply In_events_bind in Hin.
      destruct Hin as [Hin|(a & _ & Hin)].
      * specialize (Hev ev Hin). destruct ev; auto.
        destruct Hev as (tr & ms & Hn & Hrest).
        exists h, tr, ms. split; [now left|]. split; [|split; [exact Hn|exact Hrest]].
        now apply String.eqb_eq.
      * specialize (IHev ev Hin). destruct ev; auto.
        destruct IHev as (h' & tr & ms & Hin' & Hrest).
        exists h', tr, ms. split; [now right|exact Hrest].
    + cbn [List.length].
      destruct (convertSubsystem fuel h branch outDir) as [th [[]|e|]];
        cbn [events fst] in Hlen; unfold bind.
      * destruct (convert_loop fuel cs branch outDir) as [tc rc].
        cbn [events fst] in *. rewrite writes_app, length_app. lia.
      * cbn [events fst]. lia.
      * cbn [events fst]. lia.
Qed.

Lemma convert_file_system_effects_witness :
  exists h tr methods,
    In h [mkElement "note" [] []; Sample.handler_ok]
    /\ tag h = "handler" /\ truthy (get h "name") = true
    /\ "out/main/group.json"
       = PyStr.join (PyStr.join "out" "main") (get_or h "name" "" ++ ".json")%string
    /\ convertSubsystem_loop 1 "main" (get_or h "name" "") (getchildren h) []
       = (tr, Ret (Some methods))
    /\ match nth 1 (events (convert_loop 1 [mkElement "note" [] []; Sample.handler_ok]
                                         "main" "out")) (Makedirs "") with
       | WriteFile _ data => data
       | _ => PNone
       end = document "main" (get_or h "name" "") methods.
Proof.
  exact (proj1 (convert_file_system_effects 1
                  [mkElement "note" [] []; Sample.handler_ok] "main" "out")
               (WriteFile "out/main/group.json"
                  match nth 1 (events (convert_loop 1
                                         [mkElement "note" [] []; Sample.handler_ok]
                                         "main" "out")) (Makedirs "") with
                  | WriteFile _ data => data
                  | _ => PNone
                  end)
               (or_intror (or_introl eq_refl))).
Defined.

(** ** Method descriptors *)

(** X18.  The descriptor of a converted method.  Its keys are, in this
    order, [name], [description], [auth_type], [requires_perm] when the
    attribute is not empty, [params] and [result].  The name is
    [<handler>.<method>], the description is the comment of the method
    (the empty string when it has none), and [params] is what [getParams]
    returned for the [<input>] element. *)
Theorem getJsonMethod_descriptor :
  forall branch fuel hn method authTypes tr d,
    getJsonMethod branch fuel hn method authTypes = (tr, Ret (Some d)) ->
    exists name inputElem trp params,
      get method "name" = Some name /\ name <> ""
      /\ find method "input" = Some inputElem
      /\ getParams branch (getJsonParam branch fuel) inputElem = (trp, Ret params)
      /\ map fst d
         = [KStr "name"; KStr "description"; KStr "auth_type"]
           ++ (if truthy (get method "requires_perm")
               then [KStr "requires_perm"] else [])
           ++ [KStr "params"; KStr "result"]
      /\ Dict.lookup "name" d = Some (PStr (hn ++ "." ++ name)%string)
      /\ Dict.lookup "description" d = Some (PStr (get_or method "comment" ""))
      /\ Dict.lookup "requires_perm" d
         = (if truthy (get method "requires_perm")
            then option_map PStr (get method "requires_perm") else None)
      /\ Dict.lookup "params" d = Some (PList (map PDict params)).
Proof.
  intros branch fuel hn method authTypes tr d H.
  apply getJsonMethod_inv in H.
  destruct H as (_ & Hname & inp & out & trp & params & tro & Hin & _ & Hp & Ho & _).
  apply getJsonMethod_output_inv in Ho.
  destruct Ho as (rt & rv & rp & -> & _).
  destruct (get method "name") as [name|] eqn:Hn; [|discriminate].
  exists name, inp, trp, params.
  split; [reflexivity|]. split.
  { intros ->. discriminate. }
  split; [exact Hin|]. split; [exact Hp|].
  unfold jsonMethod_head, get_or. rewrite Hn.
  destruct (get method "requires_perm") as [rq|]; cbn [truthy].
  - destruct (negb (rq =? "")); repeat split; reflexivity.
  - repeat split; reflexivity.
Qed.

Lemma getJsonMethod_descriptor_witness :
  exists name inputElem trp params,
    get Sample.method_int "name" = Some name /\ name <> ""
    /\ find Sample.method_int "input" = Some inputElem
    /\ getParams "main" (getJsonParam "main" 1) inputElem = (trp, Ret params)
    /\ Dict.lookup "name"
         (jsonMethod_head "user" Sample.method_int ["ADMIN"] []
          ++ [(KStr "result",
                PDict [(KStr "name", PStr "Response (number)");
                       (KStr "comment", PStr "");
                       (KStr "schema",
                         PDict [(KStr "title", PStr "");
                                (KStr "type", PStr "number")])])])
       = Some (PStr ("user" ++ "." ++ name)%string).
Proof.
  destruct (getJsonMethod_descriptor "main" 1 "user" Sample.method_int
              ["ADMIN"] [] _ eq_refl)
    as (name & inp & trp & params & H1 & H2 & H3 & H4 & _ & H5 & _).
  exists name, inp, trp, params. auto.
Defined.

Lemma getJsonMethod_resolve_Some branch fuel outputElem jsonMethod rv tr r :
  getJsonMethod_resolve branch fuel outputElem jsonMethod rv = (tr, Ret r) ->
  r <> None.
Proof.
  unfold getJsonMethod_resolve. intros H.
  apply bind_inv_Ret in H. destruct H as (t1 & [rv' rt] & t2 & _ & H & _).
  apply bind_inv_Ret in H. destruct H as (t3 & rp & t4 & _ & H & _).
  injection H as _ <-. discriminate.
Qed.

(** X19.  When [getJsonMethod] gives a method up.  An element that is
    not a [<method>] is dropped silently; then, in this order, a missing
    or empty name, a missing [<input>] and a missing [<output>] each end
    the conversion with one diagnostic, before any parameter is
    converted.  When [getJsonMethod] returns at all, it returns [None]
    exactly in these cases and when the output has neither a type nor a
    value. *)
Theorem getJsonMethod_gives_up :
  forall branch fuel hn method authTypes,
    (tag method <> "method" ->
     getJsonMethod branch fuel hn method authTypes = ([], Ret None))
    /\ (tag method = "method" -> truthy (get method "name") = false ->
        getJsonMethod branch fuel hn method authTypes
        = ([MethodNoName method], Ret None))
    /\ (tag method = "method" -> truthy (get method "name") = true ->
        find method "input" = None ->
        getJsonMethod branch fuel hn method authTypes
        = ([NoInput method], Ret None))
    /\ (tag method = "method" -> truthy (get method "name") = true ->
        find method "input" <> None -> find method "output" = None ->
        getJsonMethod branch fuel hn method authTypes
        = ([NoOutput branch method], Ret None))
    /\ (forall tr r,
           getJsonMethod branch fuel hn method authTypes = (tr, Ret r) ->
           (r = None <->
            tag method <> "method"
            \/ truthy (get method "name") = false
            \/ find method "input" = None
            \/ match find method "output" with
               | None => True
               | Some outputElem =>
                   truthy (get outputElem "type") = false
                   /\ truthy (get outputElem "value") = false
               end)).
Proof.
  intros branch fuel hn method authTypes.
  unfold getJsonMethod.
  destruct (String.eqb_spec (tag method) "method") as [Htag|Htag];
    cbn [negb]; cbv iota.
  2:{ split; [reflexivity|]. do 3 (split; [intros; contradiction|]).
      intros tr r [= _ <-]. split; [now left|reflexivity]. }
  split; [intros; contradiction|].
  destruct (truthy (get method "name")) eqn:Hn; cbn [negb]; cbv iota.
  2:{ split; [reflexivity|]. do 2 (split; [intros; discriminate|]).
      intros tr r H. apply bind_inv_Ret in H.
      destruct H as (? & ? & ? & _ & [= _ <-] & _).
      split; [now right; left|reflexivity]. }
  split; [intros; discriminate|].
  destruct (find method "input") as [inputElem|] eqn:Hi.
  2:{ split; [reflexivity|]. split; [intros; contradiction|].
      intros tr r H. apply bind_inv_Ret in H.
      destruct H as (? & ? & ? & _ & [= _ <-] & _).
      split; [now right; right; left|reflexivity]. }
  split; [intros; discriminate|].
  destruct (find method "output") as [outputElem|] eqn:Ho.
  2:{ split; [reflexivity|].
      intros tr r H. apply bind_inv_Ret in H.
      destruct H as (? & ? & ? & _ & [= _ <-] & _).
      split; [now right; right; right|reflexivity]. }
  split; [intros; discriminate|].
  intros tr r H.
  apply bind_inv_Ret in H. destruct H as (t1 & params & t2 & _ & H & _).
  split.
  - intros ->. right. right. right.
    unfold getJsonMethod_output in H.
    destruct (truthy (get outputElem "value")).
    { now apply getJsonMethod_resolve_Some in H. }
    destruct (truthy (get outputElem "type")); cbn [negb] in H.
    { now apply getJsonMethod_resolve_Some in H. }
    auto.
  - intros [Hc|[Hc|[Hc|[Ht Hv]]]]; try contradiction; try discriminate.
    rewrite getJsonMethod_output_untyped in H by assumption.
    now injection H as _ <-.
Qed.

Lemma getJsonMethod_gives_up_witness :
  getJsonMethod "main" 1 "user"
    (mkElement "method" [("name", "count")] [Sample.input_empty]) ["ADMIN"]
  = ([NoOutput "main"
        (mkElement "method" [("name", "count")] [Sample.input_empty])],
     Ret None)
  /\ (@None dict = None <->
      tag Sample.method_untyped <> "method"
      \/ truthy (get Sample.method_untyped "name") = false
      \/ find Sample.method_untyped "input" = None
      \/ match find Sample.method_untyped "output" with
         | None => True
         | Some outputElem =>
             truthy (get outputElem "type") = false
             /\ truthy (get outputElem "value") = false
         end).
Proof.
  split.
  - apply (getJsonMethod_gives_up "main" 1 "user"
             (mkElement "method" [("name", "count")] [Sample.input_empty])
             ["ADMIN"]); [reflexivity|reflexivity|discriminate|reflexivity].
  - apply (getJsonMethod_gives_up "main" 1 "user" Sample.method_untyped
             ["ADMIN"]) with (tr := [NoOutputTypeNorValue "main" Sample.method_untyped]).
    reflexivity.
Defined.

(** ** Dicts with each key once *)

Lemma key_eqb_neq k k' : k <> k' -> key_eqb k k' = false.
Proof.
  intros H. destruct (key_eqb k k') eqn:E; [|reflexivity].
  apply key_eqb_eq in E. contradiction.
Qed.

Lemma key_eqb_false k k' : key_eqb k k' = false -> k <> k'.
Proof. intros H ->. now rewrite key_eqb_refl in H. Qed.

Lemma lookup_notin k d : ~ In k (keys d) -> Dict.lookup k d = None.
Proof.
  induction d as [|[k' v'] d IH]; cbn [keys map fst Dict.lookup In]; [reflexivity|].
  intros H. destruct (key_eqb k' k) eqn:E.
  - apply key_eqb_eq in E. tauto.
  - apply IH. tauto.
Qed.

Lemma lookup_Some_in k d v : Dict.lookup k d = Some v -> In k (keys d).
Proof.
  induction d as [|[k' v'] d IH]; cbn [keys map fst Dict.lookup In]; [discriminate|].
  destruct (key_eqb k' k) eqn:E.
  - apply key_eqb_eq in E. now left.
  - intros H. right. now apply IH.
Qed.

Lemma keys_set_in k' k v d :
  In k' (keys (Dict.set k v d)) -> k' = k \/ In k' (keys d).
Proof.
  induction d as [|[k0 v0] d IH]; cbn [Dict.set keys map fst In].
  - intros [H|[]]. now left.
  - destruct (key_eqb k0 k); cbn [map fst In].
    + tauto.
    + intros [H|H]; [tauto|]. apply IH in H. tauto.
Qed.

Lemma wf_set k v d : wf d -> wf (Dict.set k v d).
Proof.
  unfold wf. induction d as [|[k0 v0] d IH]; cbn [Dict.set keys map fst].
  - intros _. constructor; [intros []|constructor].
  - intros H. inversion H as [|? ? Hn Hd]; subst.
    destruct (key_eqb k0 k) eqn:E; cbn [map fst].
    + now constructor.
    + constructor; [|now apply IH].
      intros Hin. apply keys_set_in in Hin. destruct Hin as [->|Hin].
      * now rewrite key_eqb_refl in E.
      * contradiction.
Qed.

Lemma keys_remove_in k' k d : In k' (keys (Dict.remove k d)) -> In k' (keys d).
Proof.
  induction d as [|[k0 v0] d IH]; cbn [Dict.remove keys map fst In]; [tauto|].
  destruct (key_eqb k0 k); cbn [map fst In]; [tauto|].
  intros [H|H]; [tauto|]. right. now apply IH.
Qed.

Lemma wf_remove k d : wf d -> wf (Dict.remove k d).
Proof.
  unfold wf. induction d as [|[k0 v0] d IH]; cbn [Dict.remove keys map fst].
  - intros _. constructor.
  - intros H. inversion H as [|? ? Hn Hd]; subst.
    destruct (key_eqb k0 k); cbn [map fst]; [exact Hd|].
    constructor; [|now apply IH].
    intros Hin. now apply keys_remove_in in Hin.
Qed.

Lemma lookup_remove_eq k d : wf d -> Dict.lookup k (Dict.remove k d) = None.
Proof.
  unfold wf. induction d as [|[k0 v0] d IH]; cbn [Dict.remove keys map fst]; [reflexivity|].
  intros H. inversion H as [|? ? Hn Hd]; subst.
  destruct (key_eqb k0 k) eqn:E.
  - apply key_eqb_eq in E. subst k0. now apply lookup_notin.
  - cbn [Dict.lookup]. rewrite E. now apply IH.
Qed.

Lemma remove_absent k d : Dict.lookup k d = None -> Dict.remove k d = d.
Proof.
  induction d as [|[k0 v0] d IH]; cbn [Dict.remove Dict.lookup]; [reflexivity|].
  destruct (key_eqb k0 k); [discriminate|]. intros H. now rewrite IH.
Qed.

Lemma keys_update_in k d other :
  In k (keys (Dict.update d other)) -> In k (keys d) \/ In k (keys other).
Proof.
  unfold Dict.update. revert d.
  induction other as [|[k' v'] other IH]; intros d; cbn [fold_left fst snd].
  - tauto.
  - intros H. apply IH in H. cbn [keys map fst In].
    destruct H as [H|H]; [|tauto].
    apply keys_set_in in H. destruct H as [->|H]; tauto.
Qed.

Lemma wf_update d other : wf d -> wf (Dict.update d other).
Proof.
  unfold Dict.update. revert d.
  induction other as [|[k' v'] other IH]; intros d H; cbn [fold_left fst snd].
  - exact H.
  - apply IH. now apply wf_set.
Qed.

Lemma lookup_update k d other :
  wf other ->
  Dict.lookup k (Dict.update d other)
  = match Dict.lookup k other with
    | Some v => Some v
    | None => Dict.lookup k d
    end.
Proof.
  unfold Dict.update, wf. revert d.
  induction other as [|[k' v'] other IH]; intros d H; cbn [fold_left fst snd].
  - reflexivity.
  - cbn [keys map fst] in H. inversion H as [|? ? Hn Hd]; subst.
    rewrite IH by exact Hd. cbn [Dict.lookup].
    destruct (key_eqb k' k) eqn:E.
    + apply key_eqb_eq in E. subst k'.
      rewrite (lookup_notin _ _ Hn). apply lookup_set_eq.
    + destruct (Dict.lookup k other); [reflexivity|].
      now apply lookup_set_neq.
Qed.

Lemma keys_within_set ks k v d :
  In k ks -> keys_within ks d -> keys_within ks (Dict.set (KStr k) v d).
Proof.
  intros Hk Hd k' Hin. apply keys_set_in in Hin. destruct Hin as [->|Hin].
  - now apply in_map.
  - now apply Hd.
Qed.

Lemma keys_within_remove ks k d :
  keys_within ks d -> keys_within ks (Dict.remove k d).
Proof. intros Hd k' Hin. apply Hd. now apply keys_remove_in in Hin. Qed.

Lemma keys_within_nil ks : keys_within ks [].
Proof. intros k []. Qed.

Lemma wf_nil : wf [].
Proof. constructor. Qed.

Lemma keys_within_lookup ks d k :
  keys_within ks d -> ~ In k (map KStr ks) -> Dict.lookup k d = None.
Proof. intros Hd Hk. apply lookup_notin. intros Hin. apply Hk. now apply Hd. Qed.

(** ** The shape of the emitted objects *)

Ltac lit_wf :=
  unfold wf; cbn [keys map fst];
  repeat (constructor; [cbn [In]; intuition discriminate|]); constructor.

Ltac lit_kw :=
  let k := fresh "k" in
  let H := fresh "H" in
  intros k H; cbn [keys map fst In] in H;
  unfold param_keys, schema_keys; cbn [map In]; intuition.

Ltac shape_step :=
  first [ apply wf_set | apply wf_remove | apply wf_update | apply wf_nil
        | apply keys_within_nil
        | apply keys_within_remove
        | apply keys_within_set;
          [unfold param_keys, schema_keys; cbn [In]; tauto|]
        | solve [lit_wf] | solve [lit_kw] ].

Lemma wf_addParamExtraAttrs param d : wf d -> wf (addParamExtraAttrs param d).
Proof.
  intros H. unfold addParamExtraAttrs.
  destruct (get param "default"); [|destruct (truthy _)];
    repeat shape_step; exact H.
Qed.

Lemma keys_within_addParamExtraAttrs param d :
  keys_within param_keys d -> keys_within param_keys (addParamExtraAttrs param d).
Proof.
  intros H. unfold addParamExtraAttrs.
  destruct (get param "default"); [|destruct (truthy _)];
    repeat shape_step; exact H.
Qed.

Lemma getChoiceJsonParam_shape param tr obj :
  getChoiceJsonParam param = (tr, Ret (Some obj)) -> shape obj.
Proof.
  intros H. assert (Hs : Dict.lookup "schema" obj = None).
  { eapply getChoiceJsonParam_lookup_other; eauto. }
  unfold getChoiceJsonParam in H.
  apply bind_inv_Ret in H. destruct H as (t1 & r & t2 & _ & H & _).
  destruct r as [[[values comments] default]|]; [|discriminate].
  apply bind_inv_Ret in H. destruct H as (t3 & [] & t4 & _ & H & _).
  injection H as _ <-.
  split; [|split].
  - destruct (truthy (get param "name")), (get param "comment"), default, comments;
      repeat shape_step.
  - destruct (truthy (get param "name")), (get param "comment"), default, comments;
      repeat shape_step.
  - intros v Hv. rewrite Hs in Hv. discriminate.
Qed.

Lemma getListSchema_shape branch self elem newType tr schema :
  getListSchema branch self elem newType = (tr, Ret schema) ->
  wf schema /\ keys_within schema_keys schema.
Proof.
  unfold getListSchema. intros H.
  apply bind_inv_Ret in H. destruct H as (t1 & s & t2 & Hs & H & _).
  assert (Hsh : wf s /\ keys_within schema_keys s).
  { destruct (findall elem "item") as [|item0 items].
    - injection Hs as _ <-. split; [lit_wf|lit_kw].
    - apply bind_inv_Ret in Hs. destruct Hs as (t3 & v & t4 & _ & Hs & _).
      injection Hs as _ <-.
      destruct (py_bool v).
      + split.
        * change [(KStr "type", newType)] with (Dict.set "type" newType []).
          repeat shape_step.
        * change [(KStr "type", newType)] with (Dict.set "type" newType []).
          repeat shape_step.
      + split; [lit_wf|lit_kw]. }
  injection H as _ <-. destruct Hsh as [Hw Hk].
  destruct (truthy (get elem "length") && negb (is_str (get elem "length") "-1")).
  - split; repeat shape_step; assumption.
  - now split.
Qed.

Lemma setDynamicKeys_shape self param schema tr schema' :
  wf schema -> keys_within schema_keys schema ->
  setDynamicKeys self param schema = (tr, Ret schema') ->
  wf schema' /\ keys_within schema_keys schema'.
Proof.
  intros Hw Hk. unfold setDynamicKeys.
  destruct (find param "key") as [key|].
  2:{ intros [= _ <-]. split; repeat shape_step; assumption. }
  destruct (find param "value") as [value|].
  2:{ intros [= _ <-]. split; repeat shape_step; assumption. }
  intros H. apply bind_inv_Ret in H. destruct H as (t1 & vj & t2 & _ & H & _).
  destruct vj as [vj|]; [|discriminate].
  injection H as _ <-. split; repeat shape_step; assumption.
Qed.

Lemma setDictParamsSchema_shape branch self param schema tr schema' :
  wf schema -> keys_within schema_keys schema ->
  setDictParamsSchema branch self param schema = (tr, Ret schema') ->
  wf schema' /\ keys_within schema_keys schema'.
Proof.
  intros Hw Hk. unfold setDictParamsSchema. intros H.
  apply bind_inv_Ret in H. destruct H as (t1 & ps & t2 & _ & H & _).
  apply bind_inv_Ret in H. destruct H as (t3 & props & t4 & _ & H & _).
  apply bind_inv_Ret in H. destruct H as (t5 & s & t6 & Hs & H & _).
  injection H as _ <-.
  assert (Hsh : wf s /\ keys_within schema_keys s).
  { destruct (is_str (get param "dynamic_keys") "true").
    - eapply setDynamicKeys_shape; eauto.
    - apply bind_inv_Ret in Hs. destruct Hs as (? & ? & ? & _ & Hs & _).
      injection Hs as _ <-. now split. }
  destruct Hsh. split; repeat shape_step; assumption.
Qed.

Lemma getJsonParam_shape branch fuel param tr obj :
  getJsonParam branch fuel param = (tr, Ret (Some obj)) -> shape obj.
Proof.
  intros H. destruct fuel as [|fuel]; [discriminate|].
  cbn [getJsonParam] in H. unfold getJsonParam_body in H.
  apply bind_inv_Ret in H. destruct H as (t1 & [] & t2 & _ & H & _).
  destruct (is_str (get param "type") "choice").
  { eapply getChoiceJsonParam_shape; eauto. }
  apply bind_inv_Ret in H. destruct H as (t3 & newType & t4 & _ & H & _).
  destruct (truthy (get param "value")).
  - injection H as _ <-. split; [|split].
    + apply wf_addParamExtraAttrs. lit_wf.
    + apply keys_within_addParamExtraAttrs. lit_kw.
    + intros v Hv. rewrite lookup_addParamExtraAttrs in Hv by reflexivity.
      discriminate.
  - apply bind_inv_Ret in H. destruct H as (t5 & schema & t6 & Hs & H & _).
    apply bind_inv_Ret in H. destruct H as (t7 & schema' & t8 & Hs' & H & _).
    injection H as _ <-.
    assert (Hsh : wf schema /\ keys_within schema_keys schema).
    { destruct (array_in (type newType)).
      - eapply getListSchema_shape; eauto.
      - injection Hs as _ <-. split; [lit_wf|lit_kw]. }
    destruct Hsh as [Hw Hk].
    assert (Hsh' : wf schema' /\ keys_within schema_keys schema').
    { destruct (negb (pattern newType =? "")).
      - injection Hs' as _ <-. split; repeat shape_step; assumption.
      - destruct (is_str (get param "type") "dict").
        + eapply setDictParamsSchema_shape; eauto.
        + injection Hs' as _ <-. now split. }
    destruct Hsh' as [Hw' Hk'].
    split; [|split].
    + apply wf_addParamExtraAttrs.
      destruct (truthy (get param "name")); repeat shape_step.
    + apply keys_within_addParamExtraAttrs.
      destruct (truthy (get param "name")); repeat shape_step.
    + intros v Hv. rewrite lookup_addParamExtraAttrs in Hv by reflexivity.
      unfold Dict.update in Hv. cbn [fold_left fst snd] in Hv.
      rewrite lookup_set_eq in Hv. injection Hv as <-. eauto.
Qed.

Lemma getParams_loop_shape branch fuel cs :
  forall params tr ps,
    Forall shape params ->
    getParams_loop branch (getJsonParam branch fuel) cs params = (tr, Ret ps) ->
    Forall shape ps.
Proof.
  induction cs as [|c cs IH]; intros params tr ps Hps H; cbn [getParams_loop] in H.
  - now injection H as _ <-.
  - destruct (negb (tag c =? "param")); [eauto|].
    destruct (negb (truthy (get c "name"))).
    + apply bind_inv_Ret in H. destruct H as (t1 & [] & t2 & _ & H & _). eauto.
    + apply bind_inv_Ret in H. destruct H as (t1 & j & t2 & Hj & H & _).
      destruct j as [j|]; [|eauto].
      eapply IH; [|exact H].
      apply Forall_app. split; [exact Hps|]. constructor; [|constructor].
      eapply getJsonParam_shape; eauto.
Qed.

Lemma getParams_shape branch fuel elem tr ps :
  getParams branch (getJsonParam branch fuel) elem = (tr, Ret ps) ->
  Forall shape ps.
Proof. intros H. eapply getParams_loop_shape; [constructor|exact H]. Qed.

Lemma schema_of_shape p :
  shape p -> wf (schema_of p) /\ keys_within schema_keys (schema_of p).
Proof.
  intros (_ & _ & Hs). unfold schema_of.
  destruct (Dict.lookup "schema" p) as [v|].
  - destruct (Hs v eq_refl) as (s & -> & Hw & Hk). now split.
  - split; [apply wf_nil|apply keys_within_nil].
Qed.

Lemma not_param_key k :
  key_eqb "name" k = false -> key_eqb "description" k = false ->
  key_eqb "schema" k = false ->
  ~ In k (map KStr ["name"; "description"; "schema"]).
Proof.
  intros H1 H2 H3 [<-|[<-|[<-|[]]]]; discriminate.
Qed.

(** The three keys that a property loses, among those of a parameter
    object or of a schema. *)
Lemma lookup_rest k p :
  wf p ->
  Dict.lookup k (Dict.remove "schema" (Dict.remove "description" (Dict.remove "name" p)))
  = if key_eqb "name" k || key_eqb "description" k || key_eqb "schema" k
    then None else Dict.lookup k p.
Proof.
  intros Hw.
  destruct (key_eqb "schema" k) eqn:E3.
  { apply key_eqb_eq in E3. subst k. rewrite !orb_true_r.
    apply lookup_remove_eq. now repeat apply wf_remove. }
  rewrite lookup_remove_neq by exact E3.
  destruct (key_eqb "description" k) eqn:E2.
  { apply key_eqb_eq in E2. subst k. rewrite orb_true_r. cbn [orb].
    apply lookup_remove_eq. now apply wf_remove. }
  rewrite lookup_remove_neq by exact E2.
  destruct (key_eqb "name" k) eqn:E1.
  { apply key_eqb_eq in E1. subst k. cbn [orb]. now apply lookup_remove_eq. }
  cbn [orb]. now apply lookup_remove_neq.
Qed.

Lemma property_of_is_property p : shape p -> is_property p (property_of p).
Proof.
  intros Hsh. destruct (schema_of_shape p Hsh) as [Hws Hks].
  destruct Hsh as (Hw & Hk & _).
  assert (Hrest : wf (Dict.remove "schema"
                        (Dict.remove "description" (Dict.remove "name" p))))
    by now repeat apply wf_remove.
  split.
  - unfold property_of. rewrite lookup_update by exact Hrest.
    rewrite lookup_rest by exact Hw. cbn [key_eqb String.eqb Ascii.eqb Bool.eqb orb].
    rewrite (keys_within_lookup _ _ "title" Hk).
    2:{ cbn. intros H. repeat (destruct H as [H|H]; [discriminate|]). exact H. }
    rewrite lookup_update by exact Hws.
    rewrite (keys_within_lookup _ _ "title" Hks).
    2:{ cbn. intros H. repeat (destruct H as [H|H]; [discriminate|]). exact H. }
    reflexivity.
  - intros k Ht. unfold property_of. rewrite lookup_update by exact Hrest.
    rewrite lookup_rest by exact Hw.
    rewrite lookup_update by exact Hws. cbn [Dict.lookup]. rewrite Ht.
    destruct (key_eqb "name" k || key_eqb "description" k || key_eqb "schema" k)
      eqn:E.
    + rewrite (keys_within_lookup _ _ k Hks); [reflexivity|].
      intros Hin. cbn in Hin.
      repeat (destruct Hin as [<-|Hin]; [discriminate|]). exact Hin.
    + destruct (Dict.lookup k p); [reflexivity|].
      now destruct (Dict.lookup k (schema_of p)).
Qed.

(** One round of the property loop. *)
Lemma pop_description (d : dict) :
  (if Dict.mem "description" d then pop "description" d else ret (PStr "", d))
  = ret (match Dict.lookup "description" d with Some t => t | None => PStr "" end,
         Dict.remove "description" d).
Proof.
  unfold Dict.mem, pop.
  destruct (Dict.lookup "description" d) eqn:E; [reflexivity|].
  now rewrite remove_absent.
Qed.

Lemma pop_schema (prop d : dict) :
  (if Dict.mem "schema" d then
     '(schema, d') <- pop "schema" d ;;
     ret (Dict.update prop (items_of schema), d')
   else ret (prop, d))
  = ret (Dict.update prop (schema_of d), Dict.remove "schema" d).
Proof.
  unfold Dict.mem, pop, schema_of.
  destruct (Dict.lookup "schema" d) eqn:E.
  - now rewrite bind_ret_l.
  - now rewrite remove_absent.
Qed.

Lemma setDictParamsSchema_loop_fold subParams :
  Forall has_name subParams ->
  forall properties,
    setDictParamsSchema_loop subParams properties
    = ret (fold_left (fun acc p => Dict.set (name_key p) (PDict (property_of p)) acc)
                     subParams properties).
Proof.
  induction 1 as [|d ds (n & Hne & Hn) _ IH]; intros properties.
  - reflexivity.
  - cbn [setDictParamsSchema_loop fold_left]. unfold pop at 1.
    rewrite Hn, bind_ret_l. cbv beta iota.
    rewrite pop_description, bind_ret_l. cbv beta iota.
    rewrite pop_schema, bind_ret_l. cbv beta iota.
    cbn [key_of]. rewrite bind_ret_l, IH.
    unfold name_key, property_of, schema_of. rewrite Hn.
    rewrite !lookup_remove_neq by reflexivity. reflexivity.
Qed.

Lemma fold_properties_other k ps :
  forall props,
    (forall q, In q ps -> name_key q <> k) ->
    Dict.lookup k
      (fold_left (fun acc p => Dict.set (name_key p) (PDict (property_of p)) acc)
                 ps props)
    = Dict.lookup k props.
Proof.
  induction ps as [|p ps IH]; intros props Hq; cbn [fold_left]; [reflexivity|].
  rewrite IH by (intros q Hin; apply Hq; now right).
  apply lookup_set_neq. apply key_eqb_neq. apply Hq. now left.
Qed.

Lemma fold_properties_last pre p post props :
  (forall q, In q post -> name_key q <> name_key p) ->
  Dict.lookup (name_key p)
    (fold_left (fun acc p => Dict.set (name_key p) (PDict (property_of p)) acc)
               (pre ++ p :: post) props)
  = Some (PDict (property_of p)).
Proof.
  intros Hq. rewrite fold_left_app. cbn [fold_left].
  rewrite fold_properties_other by exact Hq. apply lookup_set_eq.
Qed.

Lemma fold_properties_mem k v ps :
  forall props,
    Dict.lookup k
      (fold_left (fun acc p => Dict.set (name_key p) (PDict (property_of p)) acc)
                 ps props) = Some v ->
    Dict.lookup k props = Some v \/ exists p, In p ps /\ name_key p = k.
Proof.
  induction ps as [|p ps IH]; intros props H; cbn [fold_left] in H; [now left|].
  apply IH in H. destruct H as [H|(q & Hin & Hq)].
  - destruct (key_eqb (name_key p) k) eqn:E.
    + apply key_eqb_eq in E. right. exists p. split; [now left|exact E].
    + rewrite lookup_set_neq in H by exact E. now left.
  - right. exists q. split; [now right|exact Hq].
Qed.

Lemma has_name_key p n :
  Dict.lookup "name" p = Some (PStr n) -> name_key p = KStr n.
Proof. intros H. unfold name_key. now rewrite H. Qed.

(** X20.  The [properties] of a dict schema.  Every sub-parameter that
    [getParams] returned stands in [properties] under its name, the last
    one when several share a name, and no other key is there.  The
    property has the description of the sub-parameter as [title] (the
    empty string when it has none); it has no [name], [description] or
    [schema] key; and for every other key it has the value of the
    sub-parameter, or else that of its schema, whose entries stand
    directly in the property. *)
Theorem dict_properties :
  forall branch fuel param trp params tr obj,
    get param "type" = Some "dict" ->
    get param "value" = None ->
    getParams branch (getJsonParam branch fuel) param = (trp, Ret params) ->
    getJsonParam branch (S fuel) param = (tr, Ret (Some obj)) ->
    exists schema properties,
      Dict.lookup "schema" obj = Some (PDict schema)
      /\ Dict.lookup "properties" schema = Some (PDict properties)
      /\ (forall pre p post n,
             params = pre ++ p :: post ->
             Dict.lookup "name" p = Some (PStr n) ->
             (forall q, In q post -> Dict.lookup "name" q <> Some (PStr n)) ->
             exists prop,
               Dict.lookup n properties = Some (PDict prop)
               /\ is_property p prop)
      /\ (forall k,
             Dict.mem k properties = true ->
             exists p, In p params /\ Dict.lookup "name" p = Some (of_key k)).
Proof.
  intros branch fuel param trp params tr obj Ht Hv Hps H.
  pose proof (getParams_names _ _ _ _ _ Hps) as Hnames.
  pose proof (getParams_shape _ _ _ _ _ Hps) as Hshape.
  destruct (getJsonParam_dict _ _ _ _ _ Ht Hv Hps) as (properties & Hprops & Heq).
  rewrite Heq in H. clear Heq.
  apply bind_inv_Ret in H. destruct H as (t1 & schema & t2 & _ & H & _).
  injection H as _ <-.
  rewrite setDictParamsSchema_loop_fold in Hprops by exact Hnames.
  injection Hprops as <-.
  eexists _, _. split; [|split; [apply lookup_set_eq|split]].
  - rewrite lookup_addParamExtraAttrs by reflexivity.
    unfold Dict.update. cbn [fold_left fst snd]. apply lookup_set_eq.
  - intros pre p post n -> Hn Hpost.
    exists (property_of p). split.
    + rewrite <- (has_name_key _ _ Hn). apply fold_properties_last.
      intros q Hq. rewrite (has_name_key _ _ Hn).
      rewrite Forall_forall in Hnames.
      destruct (Hnames q) as (m & _ & Hm).
      { apply in_or_app. right. now right. }
      rewrite (has_name_key _ _ Hm). intros [= ->]. now apply (Hpost q).
    + apply property_of_is_property.
      rewrite Forall_forall in Hshape. apply Hshape.
      apply in_or_app. right. now left.
  - intros k Hk. unfold Dict.mem in Hk.
    match type of Hk with
    | context [Dict.lookup k ?d] => destruct (Dict.lookup k d) as [v|] eqn:E
    end; [|discriminate].
    apply fold_properties_mem in E. destruct E as [E|(p & Hin & Hp)]; [discriminate|].
    exists p. split; [exact Hin|].
    rewrite Forall_forall in Hnames. destruct (Hnames p Hin) as (m & _ & Hm).
    rewrite (has_name_key _ _ Hm) in Hp. subst k. exact Hm.
Qed.

Lemma dict_properties_witness :
  exists schema properties prop,
    Dict.lookup "properties" schema = Some (PDict properties)
    /\ Dict.lookup "x" properties = Some (PDict prop)
    /\ Dict.lookup "title" prop = Some (PStr "c")
    /\ Dict.lookup "type" prop = Some (PStr "number")
    /\ Dict.lookup "name" prop = None.
Proof.
  destruct (dict_properties "main" 1
              (mkElement "param" [("name", "opts"); ("type", "dict")]
                 [mkElement "param"
                    [("name", "x"); ("type", "int"); ("comment", "c")] []])
              [] _ [] _ eq_refl eq_refl eq_refl eq_refl)
    as (schema & properties & _ & Hp & Hlast & _).
  destruct (Hlast [] _ [] "x" eq_refl eq_refl (fun q H => match H with end))
    as (prop & Hl & Htitle & Hother).
  exists schema, properties, prop.
  split; [exact Hp|]. split; [exact Hl|]. split; [exact Htitle|].
  split; [exact (Hother "type" eq_refl)|exact (Hother "name" eq_refl)].
Defined.

(** ** Dict items *)

Lemma schema_key_not_param_key k :
  In k (map KStr schema_keys) -> key_eqb "schema" k = false
  /\ ~ In k (map KStr param_keys).
Proof.
  cbn. intros H.
  repeat (destruct H as [<-|H];
          [split; [reflexivity|];
           intros H'; repeat (destruct H' as [H'|H']; [discriminate|]); exact H'|]).
  destruct H.
Qed.

Lemma flatten_schema_is_flattened p : shape p -> is_flattened p (flatten_schema p).
Proof.
  intros Hsh. destruct (schema_of_shape p Hsh) as [Hws Hks].
  destruct Hsh as (Hw & Hk & _).
  intros k. unfold flatten_schema. fold (schema_of p).
  destruct (Dict.lookup "schema" p) as [v|] eqn:Es.
  - replace (items_of v) with (schema_of p) by (unfold schema_of; now rewrite Es).
    rewrite lookup_update by exact Hws.
    destruct (Dict.lookup k (schema_of p)) as [w|] eqn:E.
    + destruct (schema_key_not_param_key k) as [Hne Hnp].
      { apply Hks. eapply lookup_Some_in; eauto. }
      rewrite Hne. now rewrite (keys_within_lookup _ _ k Hk Hnp).
    + destruct (key_eqb "schema" k) eqn:Ek.
      * apply key_eqb_eq in Ek. subst k. now apply lookup_remove_eq.
      * rewrite lookup_remove_neq by exact Ek.
        now destruct (Dict.lookup k p).
  - destruct (key_eqb "schema" k) eqn:Ek.
    + apply key_eqb_eq in Ek. now subst k.
    + destruct (Dict.lookup k p) eqn:E; [reflexivity|].
      unfold schema_of. now rewrite Es.
Qed.

(** X21.  An [<item type="dict">] is converted to [title], [type]
    ["object"], [dynamic_keys] when the attribute is ["true"], and
    [params], in this order.  Its sub-parameters stay a list, under
    [params] and not [properties], each with the entries of its schema
    merged into it and its [name] and [description] kept; [<key>] and
    [<value>] children are not looked at.  An item whose type is missing
    or empty is reported and dropped: a list with that single item gets
    no [items]. *)
Theorem getListItemSchema_dict :
  forall branch fuel item,
    (forall tr r,
        get item "type" = Some "dict" ->
        getListItemSchema branch (getJsonParam branch fuel) item = (tr, Ret r) ->
        exists params j ps,
          getParams branch (getJsonParam branch fuel) item = (tr, Ret params)
          /\ r = Some j
          /\ keys j
             = [KStr "title"; KStr "type"]
               ++ (if is_str (get item "dynamic_keys") "true"
                   then [KStr "dynamic_keys"] else [])
               ++ [KStr "params"]
          /\ Dict.lookup "title" j = Some (PStr (get_or item "comment" ""))
          /\ Dict.lookup "type" j = Some (PStr "object")
          /\ Dict.lookup "params" j = Some (PList (map PDict ps))
          /\ Forall2 is_flattened params ps)
    /\ (truthy (get item "type") = false ->
        getListItemSchema branch (getJsonParam branch fuel) item
        = ([ItemNoType item], Ret None)
        /\ forall elem newType,
            findall elem "item" = [item] ->
            getListSchema branch (getJsonParam branch fuel) elem newType
            = ([ItemNoType item],
               Ret ([(KStr "type", newType)]
                    ++ match length_entry elem with
                       | Some v => [(KStr "length", v)]
                       | None => []
                       end))).
Proof.
  intros branch fuel item. split.
  - intros tr r Ht H. unfold getListItemSchema in H. rewrite Ht in H.
    cbn [truthy is_str negb] in H.
    replace ("dict" =? "") with false in H by reflexivity.
    replace ("dict" =? "choice") with false in H by reflexivity.
    replace ("dict" =? "dict") with true in H by reflexivity.
    cbn [negb] in H.
    apply bind_inv_Ret in H. destruct H as (t1 & params & t2 & Hps & H & ->).
    injection H as <- <-. rewrite app_nil_r.
    exists params. eexists. exists (map flatten_schema params).
    split; [exact Hps|]. split; [reflexivity|].
    split; [|split; [|split; [|split]]].
    + now destruct (is_str (get item "dynamic_keys") "true").
    + now destruct (is_str (get item "dynamic_keys") "true").
    + now destruct (is_str (get item "dynamic_keys") "true").
    + now destruct (is_str (get item "dynamic_keys") "true").
    + apply getParams_shape in Hps.
      induction Hps as [|p ps Hp _ IH]; cbn [map]; constructor; [|exact IH].
      now apply flatten_schema_is_flattened.
  - intros Ht.
    assert (Hitem : getListItemSchema branch (getJsonParam branch fuel) item
                    = ([ItemNoType item], Ret None)).
    { unfold getListItemSchema. now rewrite Ht. }
    split; [exact Hitem|].
    intros elem newType Hitems. unfold getListSchema.
    rewrite Hitems. cbn [List.length Nat.ltb Nat.leb].
    rewrite Hitem.
    cbv beta iota delta [bind ret]. cbn [py_bool app].
    rewrite length_condition.
    destruct (length_entry elem) as [v|] eqn:E; [|reflexivity].
    now rewrite (length_value _ _ E).
Qed.

Lemma getListItemSchema_dict_witness :
  exists params j ps,
    getParams "main" (getJsonParam "main" 1)
      (mkElement "item" [("type", "dict"); ("comment", "row")]
         [mkElement "param" [("name", "x"); ("type", "int")] []])
    = ([], Ret params)
    /\ keys j = [KStr "title"; KStr "type"; KStr "params"]
    /\ Dict.lookup "params" j = Some (PList (map PDict ps))
    /\ Forall2 is_flattened params ps.
Proof.
  destruct (proj1 (getListItemSchema_dict "main" 1
                     (mkElement "item" [("type", "dict"); ("comment", "row")]
                        [mkElement "param" [("name", "x"); ("type", "int")] []]))
              [] _ eq_refl eq_refl)
    as (params & j & ps & H1 & _ & H2 & _ & _ & H3 & H4).
  exists params, j, ps. auto.
Defined.

(** ** The properties of a result *)

Lemma returned_Ret {A} (m : M (option A)) tr r :
  m = (tr, Ret r) -> returned m = match r with Some a => [a] | None => [] end.
Proof. intros ->. reflexivity. Qed.

Lemma resultParams_loop_spec branch fuel cs :
  forall acc tr rp,
    resultParams_loop branch fuel cs acc = (tr, Ret rp) ->
    (forall k w,
        Dict.lookup k rp = Some w ->
        Dict.lookup k acc = Some w
        \/ exists c p,
            In c cs /\ named_param c = true
            /\ k = KStr (get_or c "name" "")
            /\ returned (getJsonParam branch fuel c) = [p]
            /\ w = PDict (property_of p))
    /\ (rp = [] ->
        acc = []
        /\ forall c, In c cs -> named_param c = true ->
                     returned (getJsonParam branch fuel c) = []).
Proof.
  induction cs as [|c cs IH]; intros acc tr rp H; cbn [resultParams_loop] in H.
  - injection H as _ <-. split; [now left|]. intros ->. split; [reflexivity|].
    intros c [].
  - unfold named_param.
    destruct (tag c =? "param") eqn:Etag; cbn [negb] in H; cbv iota in H.
    2:{ destruct (IH _ _ _ H) as [H1 H2]. split.
        - intros k w Hk. destruct (H1 k w Hk) as [?|(c' & p & Hin & ?)]; [now left|].
          right. exists c', p. split; [now right|assumption].
        - intros Hrp. destruct (H2 Hrp) as [Ha Hc]. split; [exact Ha|].
          intros c' [<-|Hin]; [|now apply Hc].
          rewrite Etag. discriminate. }
    destruct (truthy (get c "name")) eqn:Ename; cbn [negb] in H; cbv iota in H.
    2:{ apply bind_inv_Ret in H. destruct H as (? & [] & ? & _ & H & _).
        destruct (IH _ _ _ H) as [H1 H2]. split.
        - intros k w Hk. destruct (H1 k w Hk) as [?|(c' & p & Hin & ?)]; [now left|].
          right. exists c', p. split; [now right|assumption].
        - intros Hrp. destruct (H2 Hrp) as [Ha Hc]. split; [exact Ha|].
          intros c' [<-|Hin]; [|now apply Hc].
          rewrite Etag, Ename. discriminate. }
    apply bind_inv_Ret in H. destruct H as (t1 & j & t2 & Hj & H & _).
    destruct j as [p|].
    2:{ destruct (IH _ _ _ H) as [H1 H2]. split.
        - intros k w Hk. destruct (H1 k w Hk) as [?|(c' & q & Hin & ?)]; [now left|].
          right. exists c', q. split; [now right|assumption].
        - intros Hrp. destruct (H2 Hrp) as [Ha Hc]. split; [exact Ha|].
          intros c' [<-|Hin]; [|now apply Hc].
          intros _. now rewrite (returned_Ret _ _ _ Hj). }
    destruct (get c "name") as [n|] eqn:En; [|discriminate].
    assert (Hn : Dict.lookup "name" p = Some (PStr n)).
    { eapply getJsonParam_name; eauto. intros ->. discriminate. }
    unfold pop at 1 in H. rewrite Hn, bind_ret_l in H. cbv beta iota in H.
    rewrite pop_description, bind_ret_l in H. cbv beta iota in H.
    rewrite pop_schema, bind_ret_l in H. cbv beta iota in H.
    replace (Dict.update
               (Dict.update
                  [(KStr "title",
                     match Dict.lookup "description" (Dict.remove "name" p) with
                     | Some t => t
                     | None => PStr ""
                     end)]
                  (schema_of (Dict.remove "description" (Dict.remove "name" p))))
               (Dict.remove "schema"
                  (Dict.remove "description" (Dict.remove "name" p))))
      with (property_of p) in H.
    2:{ unfold property_of, schema_of.
        now rewrite !lookup_remove_neq by reflexivity. }
    destruct (IH _ _ _ H) as [H1 H2]. split.
    + intros k w Hk. destruct (H1 k w Hk) as [Hacc|(c' & q & Hin & ?)].
      * destruct (key_eqb (get_or c "name" "") k) eqn:Ek.
        -- apply key_eqb_eq in Ek. subst k. rewrite lookup_set_eq in Hacc.
           injection Hacc as <-. right. exists c, p.
           split; [now left|]. rewrite Etag, En. cbn [andb]. rewrite Ename.
           split; [reflexivity|]. split; [reflexivity|].
           split; [|reflexivity]. now rewrite (returned_Ret _ _ _ Hj).
        -- rewrite lookup_set_neq in Hacc by exact Ek. now left.
      * right. exists c', q. split; [now right|assumption].
    + intros Hrp. destruct (H2 Hrp) as [Ha _]. now apply set_not_nil in Ha.
Qed.

Lemma getJsonMethod_resolve_result branch fuel outputElem jsonMethod rv0 tr d :
  getJsonMethod_resolve branch fuel outputElem jsonMethod rv0 = (tr, Ret (Some d)) ->
  exists rt rv rp trr,
    resultParams_loop branch fuel (getchildren outputElem) [] = (trr, Ret rp)
    /\ Dict.lookup "result" d
       = Some (PDict (result_object (get_or outputElem "comment" "") rt rv rp)).
Proof.
  unfold getJsonMethod_resolve. intros H.
  apply bind_inv_Ret in H. destruct H as (t1 & [rv rt] & t2 & _ & H & _).
  apply bind_inv_Ret in H. destruct H as (t3 & rp & t4 & Hrp & H & _).
  injection H as _ <-. exists rt, rv, rp, t3. split; [exact Hrp|].
  apply lookup_set_eq.
Qed.

Lemma getJsonMethod_result branch fuel hn method authTypes tr d :
  getJsonMethod branch fuel hn method authTypes = (tr, Ret (Some d)) ->
  exists outputElem rt rv rp trr,
    find method "output" = Some outputElem
    /\ resultParams_loop branch fuel (getchildren outputElem) [] = (trr, Ret rp)
    /\ Dict.lookup "result" d
       = Some (PDict (result_object (get_or outputElem "comment" "") rt rv rp)).
Proof.
  intros H. apply getJsonMethod_inv in H.
  destruct H as (_ & _ & inp & out & trp & params & tro & _ & Hout & _ & Ho & _).
  exists out.
  assert (Hres : exists rv0 t,
             getJsonMethod_resolve branch fuel out
               (jsonMethod_head hn method authTypes params) rv0 = (t, Ret (Some d))).
  { unfold getJsonMethod_output in Ho.
    destruct (truthy (get out "value")); [eauto|].
    destruct (truthy (get out "type")); cbn [negb] in Ho; [eauto|].
    apply bind_inv_Ret in Ho. destruct Ho as (? & ? & ? & _ & Ho & _).
    discriminate. }
  destruct Hres as (rv0 & t & Hres).
  apply getJsonMethod_resolve_result in Hres.
  destruct Hres as (rt & rv & rp & trr & Hrp & Hd).
  exists rt, rv, rp, trr. auto.
Qed.

(** X22.  The [properties] of the result of a converted method.  The
    schema of the result has an empty [title].  Its [properties], when
    present, are not empty, and each stands under the name of a named
    [<param>] child of [<output>] that [getJsonParam] converted, with the
    description as [title] and the entries of the schema merged in; when
    [properties] is absent, no such child was converted. *)
Theorem result_properties :
  forall branch fuel hn method authTypes tr d,
    getJsonMethod branch fuel hn method authTypes = (tr, Ret (Some d)) ->
    exists outputElem result,
      find method "output" = Some outputElem
      /\ Dict.lookup "result" d = Some (PDict result)
      /\ forall schema,
          Dict.lookup "schema" result = Some (PDict schema) ->
          Dict.lookup "title" schema = Some (PStr "")
          /\ match Dict.lookup "properties" schema with
             | Some v =>
                 exists properties,
                   v = PDict properties /\ properties <> []
                   /\ forall k w,
                       Dict.lookup k properties = Some w ->
                       exists c p prop,
                         In c (getchildren outputElem)
                         /\ named_param c = true
                         /\ k = KStr (get_or c "name" "")
                         /\ returned (getJsonParam branch fuel c) = [p]
                         /\ w = PDict prop
                         /\ is_property p prop
             | None =>
                 forall c, In c (getchildren outputElem) ->
                           named_param c = true ->
                           returned (getJsonParam branch fuel c) = []
             end.
Proof.
  intros branch fuel hn method authTypes tr d H.
  apply getJsonMethod_result in H.
  destruct H as (out & rt & rv & rp & trr & Hout & Hrp & Hd).
  exists out. eexists. split; [exact Hout|]. split; [exact Hd|].
  intros schema Hs. rewrite result_object_schema in Hs.
  destruct (type_bool (type rt)); [|discriminate].
  apply resultParams_loop_spec in Hrp. destruct Hrp as [H1 H2].
  destruct rp as [|kv rp].
  - injection Hs as <-. split; [reflexivity|]. cbn [Dict.lookup key_eqb String.eqb Ascii.eqb Bool.eqb].
    now apply H2.
  - injection Hs as <-. split; [reflexivity|].
    change (Dict.lookup "properties"
              (Dict.set "properties" (PDict (kv :: rp))
                 [(KStr "title", PStr ""); (KStr "type", of_type (type rt))]))
      with (Some (PDict (kv :: rp))).
    eexists. split; [reflexivity|]. split; [discriminate|].
    intros k w Hk. destruct (H1 k w Hk) as [Hc|(c & p & Hin & Hnp & -> & Hret & ->)];
      [discriminate|].
    exists c, p, (property_of p). repeat (split; [assumption || reflexivity|]).
    apply property_of_is_property.
    unfold returned in Hret.
    destruct (getJsonParam branch fuel c) as [t r] eqn:E. cbn [result snd] in Hret.
    destruct r as [[q|]| |]; try discriminate. injection Hret as ->.
    eapply getJsonParam_shape; eauto.
Qed.

Lemma result_properties_witness :
  exists outputElem result,
    find (mkElement "method" [("name", "get"); ("auth_type", "")]
            [Sample.input_empty;
             mkElement "output" [("type", "dict")]
               [mkElement "param" [("name", "x"); ("type", "int"); ("comment", "c")] []]])
         "output" = Some outputElem
    /\ Dict.lookup "result"
         (Dict.set "result"
            (PDict [(KStr "name", PStr "Response (object)");
                    (KStr "comment", PStr "");
                    (KStr "schema",
                      PDict [(KStr "title", PStr "");
                             (KStr "type", PStr "object");
                             (KStr "properties",
                               PDict [(KStr "x",
                                        PDict [(KStr "title", PStr "c");
                                               (KStr "type", PStr "number")])])])])
            (jsonMethod_head "user"
               (mkElement "method" [("name", "get"); ("auth_type", "")]
                  [Sample.input_empty;
                   mkElement "output" [("type", "dict")]
                     [mkElement "param"
                        [("name", "x"); ("type", "int"); ("comment", "c")] []]])
               ["ADMIN"] []))
       = Some (PDict result).
Proof.
  destruct (result_properties "main" 1 "user"
              (mkElement "method" [("name", "get"); ("auth_type", "")]
                 [Sample.input_empty;
                  mkElement "output" [("type", "dict")]
                    [mkElement "param"
                       [("name", "x"); ("type", "int"); ("comment", "c")] []]])
              ["ADMIN"] [] _ eq_refl)
    as (out & res & Hout & Hres & _).
  exists out, res. split; [exact Hout|exact Hres].
Defined.

(** ** Comments and diagnostics of a choice *)

Lemma getChoiceJsonParam_loop_full cs :
  Forall choice_ok cs ->
  forall values comments default,
    getChoiceJsonParam_loop cs values comments default =
      (map InvalidChoiceValue (filter odd_choice_type cs),
       Ret (Some
         (values ++ map choice_value cs,
          fold_left (fun cm c =>
                       if truthy (get c "comment")
                       then Dict.set (choice_value c) (of_opt (get c "comment")) cm
                       else cm) cs comments,
          fold_left (fun d c =>
                       if truthy (get c "default") then Some (choice_value c)
                       else d) cs default))).
Proof.
  induction 1 as [|c cs (Htag & value & Hv & Hint) _ IH];
    intros values comments default.
  - simpl. now rewrite app_nil_r.
  - cbn [getChoiceJsonParam_loop]. rewrite Htag, Hv. simpl negb. cbv iota.
    assert (Hval :
               (if truthy (get c "type")
                then if is_str (get c "type") "int"
                     then match PyStr.int value with
                          | Some z => ret (KInt z)
                          | None => raise (ValueError value)
                          end
                     else if is_str (get c "type") "str" then ret (KStr value)
                          else print (InvalidChoiceValue c) ;; ret (KStr value)
                else ret (KStr value))
               = (if odd_choice_type c then [InvalidChoiceValue c] else [],
                  Ret (choice_value c)) :> M pykey).
    { unfold choice_value, odd_choice_type. rewrite Hv.
      destruct (get c "type") as [ty|] eqn:Ety; [|reflexivity].
      cbn [is_str truthy].
      destruct (String.eqb_spec ty "int") as [->|Hni].
      - simpl. specialize (Hint eq_refl).
        destruct (PyStr.int value); [reflexivity|congruence].
      - destruct (negb (ty =? "")); [|reflexivity].
        destruct (ty =? "str"); reflexivity. }
    rewrite (bind_Ret _ _ _ _ Hval), IH.
    cbn [events result fst snd map fold_left filter].
    rewrite <- app_assoc. cbn [app].
    now destruct (odd_choice_type c).
Qed.

Lemma fold_comments_other k cs :
  forall comments,
    (forall c, In c cs -> choice_value c = k -> truthy (get c "comment") = false) ->
    Dict.lookup k
      (fold_left (fun cm c =>
                    if truthy (get c "comment")
                    then Dict.set (choice_value c) (of_opt (get c "comment")) cm
                    else cm) cs comments)
    = Dict.lookup k comments.
Proof.
  induction cs as [|c cs IH]; intros comments Hc; cbn [fold_left]; [reflexivity|].
  rewrite IH by (intros c' Hin; apply Hc; now right).
  destruct (truthy (get c "comment")) eqn:E; [|reflexivity].
  apply lookup_set_neq. apply key_eqb_neq. intros Hk.
  rewrite (Hc c (or_introl eq_refl) Hk) in E. discriminate.
Qed.

(** X23.  A choice parameter whose children can all be taken in.  The
    diagnostics are one per child whose [type] is neither empty, nor
    [int], nor [str], in document order, then the one on a choice without
    children.  The keys of the object are [name] (when not empty),
    [description] (when the element has a [comment], even an empty one),
    [enum], [default] (when a child is marked) and [value_comment] (when
    a child has a non-empty comment), in this order.  [value_comment]
    maps the value of a child to its comment, the last non-empty one
    when several children have the same value. *)
Theorem getChoiceJsonParam_keys_comments_diagnostics :
  forall param,
    Forall choice_ok (getchildren param) ->
    exists obj,
      getChoiceJsonParam param
      = (map InvalidChoiceValue (filter odd_choice_type (getchildren param))
         ++ match getchildren param with
            | [] => [ChoiceNoValues param]
            | _ => []
            end,
         Ret (Some obj))
      /\ keys obj
         = (if truthy (get param "name") then [KStr "name"] else [])
           ++ match get param "comment" with
              | Some _ => [KStr "description"]
              | None => []
              end
           ++ [KStr "enum"]
           ++ match marked_default (getchildren param) with
              | Some _ => [KStr "default"]
              | None => []
              end
           ++ (if existsb (fun c => truthy (get c "comment")) (getchildren param)
               then [KStr "value_comment"] else [])
      /\ Dict.lookup "description" obj = option_map PStr (get param "comment")
      /\ forall pre c post cm,
          getchildren param = pre ++ c :: post ->
          get c "comment" = Some cm -> cm <> "" ->
          (forall c', In c' post -> choice_value c' = choice_value c ->
                      truthy (get c' "comment") = false) ->
          exists comments,
            Dict.lookup "value_comment" obj = Some (PDict comments)
            /\ Dict.lookup (choice_value c) comments = Some (PStr cm).
Proof.
  intros param Hok.
  unfold getChoiceJsonParam.
  rewrite (getChoiceJsonParam_loop_full _ Hok [] [] None).
  rewrite (bind_Ret _ _ _ _ eq_refl). cbv beta iota.
  rewrite fold_default_marked. cbn [app].
  pose proof (fold_comments_nil (getchildren param) []) as Hcm.
  cbn [orb] in Hcm.
  assert (Hlast : forall pre c post cm,
             getchildren param = pre ++ c :: post ->
             get c "comment" = Some cm -> cm <> "" ->
             (forall c', In c' post -> choice_value c' = choice_value c ->
                         truthy (get c' "comment") = false) ->
             Dict.lookup (choice_value c)
               (fold_left (fun cm c =>
                             if truthy (get c "comment")
                             then Dict.set (choice_value c) (of_opt (get c "comment")) cm
                             else cm) (getchildren param) [])
             = Some (PStr cm)).
  { intros pre c post cm -> Hc Hne Hpost.
    rewrite fold_left_app. cbn [fold_left].
    rewrite fold_comments_other by exact Hpost.
    rewrite Hc, (truthy_Some _ Hne). apply lookup_set_eq. }
  revert Hcm Hlast.
  match goal with
  | |- context [fold_left ?f (getchildren param) []] =>
      generalize (fold_left f (getchildren param) [])
  end.
  intros comments Hcm Hlast. rewrite <- Hcm. clear Hcm.
  assert (Hw : when (match map choice_value (getchildren param) with
                     | [] => true | _ => false end)
                    (print (ChoiceNoValues param))
               = (match getchildren param with
                  | [] => [ChoiceNoValues param]
                  | _ => []
                  end, Ret tt)).
  { unfold when. now destruct (getchildren param). }
  rewrite (bind_Ret _ _ _ _ Hw).
  unfold ret. cbn [events result fst snd]. rewrite app_nil_r.
  eexists. split; [reflexivity|].
  split; [|split].
  - destruct (truthy (get param "name")), (get param "comment"),
      (marked_default (getchildren param)), comments; reflexivity.
  - destruct (truthy (get param "name")), (get param "comment"),
      (marked_default (getchildren param)), comments; reflexivity.
  - intros pre c post cm Hch Hc Hne Hpost.
    specialize (Hlast pre c post cm Hch Hc Hne Hpost).
    exists comments. split; [|exact Hlast].
    destruct comments as [|kv comments]; [discriminate|].
    apply lookup_set_eq.
Qed.

Lemma getChoiceJsonParam_keys_comments_diagnostics_witness :
  exists obj,
    getChoiceJsonParam
      (mkElement "param" [("name", "kind"); ("type", "choice")]
         [mkElement "choice" [("value", "a"); ("type", "enum"); ("comment", "first")] []])
    = ([InvalidChoiceValue
          (mkElement "choice" [("value", "a"); ("type", "enum"); ("comment", "first")] [])],
       Ret (Some obj))
    /\ keys obj = [KStr "name"; KStr "enum"; KStr "value_comment"].
Proof.
  destruct (getChoiceJsonParam_keys_comments_diagnostics
              (mkElement "param" [("name", "kind"); ("type", "choice")]
                 [mkElement "choice"
                    [("value", "a"); ("type", "enum"); ("comment", "first")] []]))
    as (obj & H1 & H2 & _).
  - constructor; [|constructor].
    split; [reflexivity|]. exists "a". split; [reflexivity|discriminate].
  - exists obj. split; [exact H1|exact H2].
Defined.

(** ** The files of a run *)

Lemma convertSubsystem_loop_outcome fuel branch hn cs :
  forall methods tr r,
    convertSubsystem_loop fuel branch hn cs methods = (tr, Ret r) ->
    r = if forallb has_auth_type (filter is_method cs)
        then Some (methods ++ flat_map (method_descriptor fuel branch hn)
                                       (filter is_method cs))
        else None.
Proof.
  induction cs as [|c cs IH]; intros methods tr r H.
  - injection H as _ <-. cbn. now rewrite app_nil_r.
  - cbn [convertSubsystem_loop] in H. cbn [filter].
    destruct (tag c =? "method") eqn:Et; cbn [negb] in H.
    2:{ replace (is_method c) with false by (unfold is_method; now rewrite Et).
        eauto. }
    replace (is_method c) with true by (unfold is_method; now rewrite Et).
    cbn [forallb flat_map]. unfold has_auth_type at 1, method_descriptor at 1.
    destruct (get c "auth_type") as [a|] eqn:Ea.
    2:{ apply bind_inv_Ret in H. destruct H as (? & ? & ? & _ & H & _).
        now injection H as _ <-. }
    apply bind_inv_Ret in H. destruct H as (t1 & auth & t2 & Hauth & H & _).
    apply bind_inv_Ret in H. destruct H as (t3 & j & t4 & Hj & H & _).
    unfold returned. rewrite Hauth. cbn [result snd]. rewrite Hj. cbn [snd andb].
    destruct j as [j|]; cbv iota; apply IH in H; rewrite H.
    + now rewrite <- app_assoc.
    + reflexivity.
Qed.

(** X24.  A run that ends writes, in document order, one file for each
    [<handler>] child that has a non-empty name and whose [<method>]
    children all have an [auth_type], holding the descriptors of its
    converted methods, and no other file. *)
Theorem convert_writes :
  forall fuel cs branch outDir,
    result (convert_loop fuel cs branch outDir) = Ret tt ->
    writes (events (convert_loop fuel cs branch outDir))
    = flat_map (handler_file fuel branch outDir) (filter is_handler cs).
Proof.
  intros fuel cs branch outDir. induction cs as [|h cs IH]; intros H.
  - reflexivity.
  - cbn [convert_loop] in H |- *. cbn [filter]. unfold is_handler at 1.
    destruct (tag h =? "handler"); cbn [negb] in H |- *; [|now apply IH].
    destruct (convertSubsystem fuel h branch outDir) as [t1 r1] eqn:E1.
    destruct (convert_loop fuel cs branch outDir) as [t2 r2] eqn:E2.
    unfold bind in H |- *. destruct r1 as [[]|e1|]; try discriminate.
    cbn [events result fst snd] in H, IH |- *. subst r2.
    rewrite writes_app, (IH eq_refl). cbn [flat_map]. f_equal.
    unfold handler_file.
    destruct (truthy (get h "name")) eqn:Hn.
    + destruct (convertSubsystem_loop fuel branch (get_or h "name" "")
                  (getchildren h) []) as [tr r] eqn:El.
      rewrite (convertSubsystem_named _ _ _ _ _ _ Hn El) in E1.
      destruct r as [x|e|]; try discriminate.
      injection E1 as <-.
      apply convertSubsystem_loop_outcome in El. cbn [app] in El. subst x.
      cbn [writes filter is_write andb]. unfold writes in *.
      rewrite filter_app. fold (writes (map Stdout tr)). rewrite writes_Print.
      now destruct (forallb has_auth_type (filter is_method (getchildren h))).
    + rewrite (convertSubsystem_unnamed _ _ _ _ Hn) in E1.
      now injection E1 as <-.
Qed.

Lemma convert_writes_witness :
  writes (events (convert_loop 3 [Sample.handler_no_auth; Sample.handler_ok]
                    "main" "out"))
  = flat_map (handler_file 3 "main" "out")
             (filter is_handler [Sample.handler_no_auth; Sample.handler_ok]).
Proof.
  apply (convert_writes 3 [Sample.handler_no_auth; Sample.handler_ok] "main" "out").
  reflexivity.
Defined.
